(** * Self-storage cost calculator: a binary64 embedding

    The calculator of [self_storage_cost_calculator.py] works on Python
    floats, that is IEEE 754 binary64 numbers.  The embedding keeps that
    arithmetic: a [float] is one of Rocq's primitive binary64 numbers,
    [*], [+] and [-] are the processor's operations, and Python's
    two-argument [round] is written out on the exact value of its
    argument.

    Layout: the definitions (integer roundings, Python's builtins, the
    calculator, the vocabulary of the statements), then a small theory of
    binary64 rounding derived from the specification of the primitive
    floats, then the properties of the calculator: first those
    of its description, then further ones of its order, sign and
    rounding behaviour. *)

From Stdlib Require Import ZArith Lia Bool List String.
From Stdlib Require Import Floats.
Import ListNotations.

Set Warnings "-inexact-float".

(** ** Roundings on integers *)

(** Nearest integer to [a / b] for [0 < b], ties to the even one.  It is
    both the decimal rounding of [round] and, with [b] a power of two,
    the rounding of a binary64 mantissa. *)
Definition div_half_even (a b : Z) : Z :=
  let q := (a / b)%Z in
  let r := (a mod b)%Z in
  match (2 * r ?= b)%Z with
  | Lt => q
  | Gt => (q + 1)%Z
  | Eq => if Z.even q then q else (q + 1)%Z
  end.

(** Exact values are counted in units of [2^-2148], the finest grain of
    a product of two binary64 numbers; a binary64 number is a multiple of
    [2^1074] such units.  [ulp_exp u] is the exponent, in these units, of
    the last place of the binade of [u]. *)
Definition ulp_exp (u : Z) : Z := Z.max (Z.log2 u - 52) 1074.

(** Round to nearest, ties to even, with unbounded exponent. *)
Definition round_units (u : Z) : Z :=
  (div_half_even u (2 ^ ulp_exp u) * 2 ^ ulp_exp u)%Z.

(** The value given to an infinity, in units of [2^-1074]: [2^1024]. *)
Definition inf_units : Z := (2 ^ 2098)%Z.

(** The binary64 rounding of a signed exact value [u] (in units of
    [2^-2148]), as a value in units of [2^-1074]; overflow gives the
    infinity of the sign. *)
Definition round_signed (u : Z) : Z :=
  (Z.sgn u * Z.min (round_units (Z.abs u) / 2 ^ 1074) inf_units)%Z.

Local Open Scope float_scope.

(** ** Python's numeric builtins *)

Module Py.

(** [max(a, b)] keeps its first argument unless the second one is
    strictly greater. *)
Definition max (a b : float) : float := if a <? b then b else a.

Definition pow10 (ndigits : nat) : Z := (10 ^ Z.of_nat ndigits)%Z.

(** The decimal numerator of [round]: the exact value [m * 2^e] scaled
    by [10^ndigits] and rounded to an integer, half to even. *)
Definition decimal_numerator (m : positive) (e : Z) (ndigits : nat) : Z :=
  match e with
  | Zneg k => div_half_even (Zpos m * pow10 ndigits) (2 ^ Zpos k)
  | _ => (Zpos m * 2 ^ e * pow10 ndigits)%Z
  end.

(** The quotient [n / d] to 1080 fractional bits, with one more bit that
    records a non-zero remainder. *)
Definition sticky_quotient (n d : Z) : Z :=
  let t := (n * 2 ^ 1080)%Z in
  (2 * (t / d) + (if (t mod d =? 0)%Z then 0 else 1))%Z.

(** The decimal [n / d] read back as the nearest binary64 number, ties
    to even: the format rounds the sticky quotient once.  The last place
    of a binary64 number is never below [2^-1074], so the remainder bit
    at [2^-1081] decides the ties as the full quotient would. *)
Definition strtod (n d : Z) : float :=
  SF2Prim (binary_normalize prec emax (sticky_quotient n d) (-1081) false).

(** Beyond this many digits [round] returns its argument. *)
Definition NDIGITS_MAX : nat := 323.

(** [round(x, ndigits)] for a float [x] and [0 <= ndigits]: zeros,
    infinities and NaN are returned as they are; a finite [x] is rounded
    to [ndigits] decimals, half to even on its exact value, and read
    back with its sign. *)
Definition round (x : float) (ndigits : nat) : float :=
  if (NDIGITS_MAX <? ndigits)%nat then x
  else
    match Prim2SF x with
    | S754_finite s m e =>
        let r := strtod (decimal_numerator m e ndigits) (pow10 ndigits) in
        if s then - r else r
    | _ => x
    end.

(** [float.is_integer]. *)
Definition is_integer (x : float) : bool :=
  match Prim2SF x with
  | S754_zero _ => true
  | S754_finite _ m e => ((0 <=? e) || (Zpos m mod 2 ^ (- e) =? 0))%Z
  | _ => false
  end.

End Py.

(** ** Constants of the module *)

Definition COEFF_GRAY_LIN : float := 0.79.
Definition COEFF_KICKER_LIN : float := 0.23.
Definition COEFF_DOOR_DENSITY : float := 0.30.
Definition DOOR_HEIGHT_STANDARD : float := 2.1.

Definition PRICE_WHITE : float := 110.
Definition PRICE_GRAY : float := 84.
Definition PRICE_KICKER : float := 81.
Definition PRICE_DOOR_1M : float := 780.
Definition PRICE_DOOR_075M : float := 780.

(** ** Data model *)

(** The report.  The source annotates [door_count] as [int]; the value
    [calculate] stores there is the float [round(door_count, 1)], so the
    field is a float here as it is at run time. *)
Record MaterialReport := mkMaterialReport {
  gray_area_m2 : float;
  white_area_m2 : float;
  kicker_length_mb : float;
  door_count : float;
  avg_door_width_m : float;
  cost_gray_pln : float;
  cost_white_pln : float;
  cost_kicker_pln : float;
  cost_doors_pln : float;
  cost_total_pln : float
}.

(** The calculator holds its price table; [default_calculator] is the
    one built with the default arguments of [__init__].  The integer
    defaults are read as the floats they become in the first product. *)
Record SelfStorageCostCalculator := mkCalculator {
  price_white : float;
  price_gray : float;
  price_kicker : float;
  price_door_1m : float;
  price_door_075m : float
}.

Definition default_calculator : SelfStorageCostCalculator :=
  mkCalculator PRICE_WHITE PRICE_GRAY PRICE_KICKER PRICE_DOOR_1M PRICE_DOOR_075M.

(** ** The cost model *)

Definition _avg_door_width (pct_door_075 pct_door_1m : float) : float :=
  pct_door_075 * 0.75 + pct_door_1m * 1.0.

Definition _door_count (pum : float) : float := pum * COEFF_DOOR_DENSITY.

Definition _door_cost (self : SelfStorageCostCalculator)
    (door_count pct_door_075 pct_door_1m : float) : float :=
  let n_075 := door_count * pct_door_075 in
  let n_1m := door_count * pct_door_1m in
  n_075 * price_door_075m self + n_1m * price_door_1m self.

Definition calculate (self : SelfStorageCostCalculator)
    (pum_m2 height_m pct_door_075 pct_door_1m : float) : MaterialReport :=
  let gray_mb := pum_m2 * COEFF_GRAY_LIN in
  let gray_area := gray_mb * height_m in
  let kicker_length := pum_m2 * COEFF_KICKER_LIN in
  let white_part_lower := (pum_m2 * COEFF_KICKER_LIN) * height_m in
  let door_count := _door_count pum_m2 in
  let avg_width := _avg_door_width pct_door_075 pct_door_1m in
  let height_above_door := Py.max 0.0 (height_m - DOOR_HEIGHT_STANDARD) in
  let white_part_lintels :=
    (pum_m2 * COEFF_DOOR_DENSITY) * avg_width * height_above_door in
  let white_area := white_part_lower + white_part_lintels in
  let cost_gray := gray_area * price_gray self in
  let cost_white := white_area * price_white self in
  let cost_kicker := kicker_length * price_kicker self in
  let cost_doors := _door_cost self door_count pct_door_075 pct_door_1m in
  let cost_total := cost_gray + cost_white + cost_kicker + cost_doors in
  {| gray_area_m2 := Py.round gray_area 2;
     white_area_m2 := Py.round white_area 2;
     kicker_length_mb := Py.round kicker_length 2;
     door_count := Py.round door_count 1;
     avg_door_width_m := Py.round avg_width 3;
     cost_gray_pln := Py.round cost_gray 2;
     cost_white_pln := Py.round cost_white 2;
     cost_kicker_pln := Py.round cost_kicker 2;
     cost_doors_pln := Py.round cost_doors 2;
     cost_total_pln := Py.round cost_total 2 |}.

(** The analysis dictionary: its string keys and float values, in
    insertion order. *)
Definition dict := list (string * float).

Fixpoint dict_get (d : dict) (k : string) : option float :=
  match d with
  | [] => None
  | (k', v) :: d' => if String.eqb k' k then Some v else dict_get d' k
  end.

Definition height_sensitivity_analysis (self : SelfStorageCostCalculator)
    (pum_m2 height_high height_low pct_door_075 pct_door_1m : float)
    : MaterialReport * MaterialReport * dict :=
  let r_high := calculate self pum_m2 height_high pct_door_075 pct_door_1m in
  let r_low := calculate self pum_m2 height_low pct_door_075 pct_door_1m in
  let savings_white := cost_white_pln r_high - cost_white_pln r_low in
  let savings_gray := cost_gray_pln r_high - cost_gray_pln r_low in
  let savings_total := cost_total_pln r_high - cost_total_pln r_low in
  let analysis :=
    [ ("height_high_m", height_high);
      ("height_low_m", height_low);
      ("pum_m2", pum_m2);
      ("savings_white_pln", Py.round savings_white 2);
      ("savings_gray_pln", Py.round savings_gray 2);
      ("savings_total_pln", Py.round savings_total 2);
      ("white_high_m2", white_area_m2 r_high);
      ("white_low_m2", white_area_m2 r_low);
      ("gray_high_m2", gray_area_m2 r_high);
      ("gray_low_m2", gray_area_m2 r_low) ]%string in
  (r_high, r_low, analysis).

(** ** The unrounded quantities of [calculate]

    The locals of [calculate] that the statements below speak about,
    under their names in the source. *)

Definition gray_area (pum_m2 height_m : float) : float :=
  (pum_m2 * COEFF_GRAY_LIN) * height_m.

Definition white_part_lower (pum_m2 height_m : float) : float :=
  (pum_m2 * COEFF_KICKER_LIN) * height_m.

Definition height_above_door (height_m : float) : float :=
  Py.max 0.0 (height_m - DOOR_HEIGHT_STANDARD).

Definition white_part_lintels
    (pum_m2 height_m pct_door_075 pct_door_1m : float) : float :=
  (pum_m2 * COEFF_DOOR_DENSITY) * _avg_door_width pct_door_075 pct_door_1m
  * height_above_door height_m.

Definition white_area
    (pum_m2 height_m pct_door_075 pct_door_1m : float) : float :=
  white_part_lower pum_m2 height_m
  + white_part_lintels pum_m2 height_m pct_door_075 pct_door_1m.

(** ** Vocabulary of the statements *)

(** The value of a binary64 number in units of [2^-1074] (an integer),
    with [2^1024] standing for an infinity and 0 for NaN. *)
Definition SV (x : spec_float) : Z :=
  match x with
  | S754_zero _ => 0%Z
  | S754_infinity s => if s then (- inf_units)%Z else inf_units
  | S754_nan => 0%Z
  | S754_finite s m e =>
      let v := (Zpos m * 2 ^ (e + 1074))%Z in if s then (- v)%Z else v
  end.

Definition FV (x : float) : Z := SV (Prim2SF x).

Definition has_sign (s : bool) (x : spec_float) : Prop :=
  match x with
  | S754_nan => False
  | S754_zero s' | S754_infinity s' | S754_finite s' _ _ => s' = s
  end.

Definition SFsign (x : spec_float) : bool :=
  match x with
  | S754_zero s | S754_infinity s | S754_finite s _ _ => s
  | S754_nan => false
  end.

Definition is_fin (x : spec_float) : Prop :=
  match x with
  | S754_zero _ | S754_finite _ _ _ => True
  | _ => False
  end.

(** The comparisons of the source, as propositions. *)
Notation "x <= y" := ((x <=? y)%float = true) : float_scope.
Notation "x < y" := ((x <? y)%float = true) : float_scope.

(** Neither an infinity nor NaN ([math.isfinite]). *)
Definition finite (x : float) : Prop := is_finite x = true.

(** [+0.0] or [-0.0]. *)
Definition zero_float (x : float) : Prop := exists s, Prim2SF x = S754_zero s.

(** The sign bit is clear and the number is not NaN. *)
Definition pos_sign (x : float) : Prop := has_sign false (Prim2SF x).

(** [v'] is the negation of [v]: bit for bit, or as numbers (the two
    zeros compare equal). *)
Definition negation_of (v' v : float) : Prop := v' = - v \/ (v' =? - v) = true.

(** The largest finite binary64 number. *)
Definition MAX_FLOAT : float := 0x1.fffffffffffffp+1023.

(** The value of [round(x, ndigits)] for a finite [0 <= x] of value [v]. *)
Definition round_value (ndigits : nat) (v : Z) : Z :=
  round_signed
    (Py.sticky_quotient (div_half_even (v * Py.pow10 ndigits) (2 ^ 1074))
       (Py.pow10 ndigits) * 2 ^ 1067).

(** A price table of finite prices above zero. *)
Definition positive_prices (self : SelfStorageCostCalculator) : Prop :=
  (finite (price_white self) /\ 0 < price_white self) /\
  (finite (price_gray self) /\ 0 < price_gray self) /\
  (finite (price_kicker self) /\ 0 < price_kicker self) /\
  (finite (price_door_1m self) /\ 0 < price_door_1m self) /\
  (finite (price_door_075m self) /\ 0 < price_door_075m self).

(** The price table of [other] is at least that of [self], price by
    price. *)
Definition prices_le (self other : SelfStorageCostCalculator) : Prop :=
  price_white self <= price_white other /\
  price_gray self <= price_gray other /\
  price_kicker self <= price_kicker other /\
  price_door_1m self <= price_door_1m other /\
  price_door_075m self <= price_door_075m other.


(** [y] exceeds [x] by more than 0.01, one unit of the second decimal,
    on the exact values. *)
Definition more_than_a_cent_above (x y : float) : Prop :=
  (2 ^ 1074 < 100 * (FV y - FV x))%Z.

(** ** Proof automation *)

(** Order, sign and finiteness facts of binary64 numbers. *)
Create HintDb float_facts.

(** A closed fact about concrete binary64 numbers, by evaluation. *)
Ltac by_evaluation := vm_compute; repeat split; reflexivity.

(** * Binary64 rounding

    The roundings on integers, and what [binary_round_aux] of the
    specification of the primitive floats computes. *)

(** ** Nearest integer, ties to even *)

Section IntegerRounding.

Local Open Scope Z_scope.

(** The result is the quotient or the next integer. *)
Lemma div_half_even_range a b :
  a / b <= div_half_even a b <= a / b + 1.
Proof.
  unfold div_half_even.
  destruct (2 * (a mod b) ?= b); [destruct (Z.even (a / b))|..]; lia.
Qed.

(** A multiple of the divisor is rounded to its quotient. *)
Lemma div_half_even_exact k b : 0 < b -> div_half_even (k * b) b = k.
Proof.
  intros Hb. unfold div_half_even.
  rewrite Z.mod_mul, Z.div_mul by lia.
  change (2 * 0) with 0. destruct (Z.compare_spec 0 b); lia.
Qed.

(** Only the ratio matters. *)
Lemma div_half_even_scale a b c :
  0 < b -> 0 < c -> div_half_even (a * c) (b * c) = div_half_even a b.
Proof.
  intros Hb Hc. unfold div_half_even.
  rewrite Z.div_mul_cancel_r, Z.mul_mod_distr_r by lia.
  replace (2 * (a mod b * c)) with (2 * (a mod b) * c) by ring.
  destruct (Z.compare_spec (2 * (a mod b) * c) (b * c));
    destruct (Z.compare_spec (2 * (a mod b)) b); try reflexivity; nia.
Qed.

(** The rounding is monotone in the dividend. *)
Lemma div_half_even_mono a1 a2 b :
  0 < b -> a1 <= a2 -> div_half_even a1 b <= div_half_even a2 b.
Proof.
  intros Hb Ha.
  assert (Hq : a1 / b <= a2 / b) by (apply Z.div_le_mono; lia).
  destruct (Z.eq_dec (a1 / b) (a2 / b)) as [E|N].
  - assert (Hr : a1 mod b <= a2 mod b).
    { rewrite !Z.mod_eq by lia. rewrite E. lia. }
    unfold div_half_even. rewrite E.
    destruct (Z.compare_spec (2 * (a1 mod b)) b);
      destruct (Z.compare_spec (2 * (a2 mod b)) b);
      destruct (Z.even (a2 / b)); lia.
  - pose proof (div_half_even_range a1 b). pose proof (div_half_even_range a2 b). lia.
Qed.

Lemma div_half_even_nonneg a b : 0 < b -> 0 <= a -> 0 <= div_half_even a b.
Proof.
  intros Hb Ha. pose proof (div_half_even_range a b).
  assert (0 <= a / b) by (apply Z.div_pos; lia). lia.
Qed.

Lemma div_half_even_le a b k : 0 < b -> a <= k * b -> div_half_even a b <= k.
Proof.
  intros Hb H. rewrite <- (div_half_even_exact k b Hb).
  now apply div_half_even_mono.
Qed.

Lemma div_half_even_ge a b k : 0 < b -> k * b <= a -> k <= div_half_even a b.
Proof.
  intros Hb H. rewrite <- (div_half_even_exact k b Hb).
  now apply div_half_even_mono.
Qed.

Lemma ulp_exp_mono u1 u2 : 0 <= u1 <= u2 -> ulp_exp u1 <= ulp_exp u2.
Proof.
  intros H. unfold ulp_exp.
  assert (Z.log2 u1 <= Z.log2 u2) by (apply Z.log2_le_mono; lia). lia.
Qed.

Lemma round_units_0 : round_units 0 = 0.
Proof. reflexivity. Qed.

Lemma round_units_nonneg u : 0 <= u -> 0 <= round_units u.
Proof.
  intros H. unfold round_units.
  assert (0 < 2 ^ ulp_exp u) by (apply Z.pow_pos_nonneg; unfold ulp_exp; lia).
  pose proof (div_half_even_nonneg u _ H0 H). nia.
Qed.

(** The rounding is monotone.  Within a binade it is [div_half_even_mono];
    across binades the results are separated by the power of two between
    them, which both binades contain. *)
Lemma round_units_mono u1 u2 :
  0 <= u1 <= u2 -> round_units u1 <= round_units u2.
Proof.
  intros [H0 H12].
  pose proof (ulp_exp_mono u1 u2 (conj H0 H12)) as HE.
  assert (HP1 : 0 < 2 ^ ulp_exp u1) by (apply Z.pow_pos_nonneg; unfold ulp_exp; lia).
  assert (HP2 : 0 < 2 ^ ulp_exp u2) by (apply Z.pow_pos_nonneg; unfold ulp_exp; lia).
  destruct (Z.eq_dec (ulp_exp u1) (ulp_exp u2)) as [E|N].
  - unfold round_units. rewrite E.
    apply Z.mul_le_mono_nonneg_r; [lia|].
    apply div_half_even_mono; lia.
  - assert (Hlt : ulp_exp u1 < ulp_exp u2) by lia.
    assert (Hu2 : 0 < u2).
    { destruct (Z.eq_dec u2 0) as [->|]; [|lia].
      assert (u1 = 0) by lia. subst. lia. }
    assert (Hl2 : ulp_exp u2 = Z.log2 u2 - 52) by (unfold ulp_exp in *; lia).
    assert (Hl21 : 1074 < Z.log2 u2 - 52) by (unfold ulp_exp in *; lia).
    assert (Hl12 : Z.log2 u1 < Z.log2 u2) by (unfold ulp_exp in *; lia).
    (* the lower one stays below 2^(log2 u2), the upper one above *)
    transitivity (2 ^ Z.log2 u2).
    + unfold round_units.
      set (E1 := ulp_exp u1) in *.
      assert (HE1 : 1074 <= E1) by (unfold E1, ulp_exp; lia).
      assert (HE1' : E1 <= Z.log2 u2) by lia.
      replace (2 ^ Z.log2 u2) with (2 ^ (Z.log2 u2 - E1) * 2 ^ E1)
        by (rewrite <- Z.pow_add_r by lia; f_equal; lia).
      apply Z.mul_le_mono_nonneg_r; [lia|].
      apply div_half_even_le; [lia|].
      rewrite <- Z.pow_add_r by lia.
      replace (Z.log2 u2 - E1 + E1) with (Z.log2 u2) by lia.
      destruct (Z.eq_dec u1 0) as [->|Hne].
      * apply Z.pow_nonneg; lia.
      * destruct (Z.log2_spec u1) as [_ Hs]; [lia|].
        apply Z.le_trans with (2 ^ Z.succ (Z.log2 u1)); [lia|].
        apply Z.pow_le_mono_r; lia.
    + unfold round_units. rewrite Hl2.
      replace (2 ^ Z.log2 u2) with (2 ^ 52 * 2 ^ (Z.log2 u2 - 52)) at 1
        by (rewrite <- Z.pow_add_r by lia; f_equal; lia).
      apply Z.mul_le_mono_nonneg_r; [apply Z.pow_nonneg; lia|].
      apply div_half_even_ge; [apply Z.pow_pos_nonneg; lia|].
      rewrite <- Z.pow_add_r by lia.
      replace (52 + (Z.log2 u2 - 52)) with (Z.log2 u2) by lia.
      apply Z.log2_spec; lia.
Qed.

End IntegerRounding.

(** ** Shifting a mantissa *)

Section ShiftRecord.

Local Open Scope Z_scope.

(** The binary iteration of the specification is the unary one. *)
Lemma iter_pos_nat {A} (f : A -> A) p x :
  iter_pos f p x = Nat.iter (Pos.to_nat p) f x.
Proof.
  revert x. induction p as [p IH|p IH|]; intros x; simpl iter_pos.
  - rewrite !IH, Pos2Nat.inj_xI.
    replace (S (2 * Pos.to_nat p)) with (Pos.to_nat p + (Pos.to_nat p + 1))%nat by lia.
    rewrite !Nat.iter_add. reflexivity.
  - rewrite !IH, Pos2Nat.inj_xO.
    replace (2 * Pos.to_nat p)%nat with (Pos.to_nat p + Pos.to_nat p)%nat by lia.
    rewrite Nat.iter_add. reflexivity.
  - reflexivity.
Qed.

(** One shift halves the mantissa, moves its last bit into the round bit
    and ors the round bit into the sticky bit. *)
Lemma shr_1_nonneg m r s :
  0 <= m ->
  shr_1 {| shr_m := m; shr_r := r; shr_s := s |} =
  {| shr_m := m / 2; shr_r := Z.odd m; shr_s := r || s |}.
Proof.
  intros Hm. destruct m as [|p|p]; [reflexivity| |lia].
  destruct p as [p|p|]; unfold shr_1.
  - f_equal. rewrite Pos2Z.inj_xI. apply Z.div_unique with 1; lia.
  - f_equal. rewrite Pos2Z.inj_xO. apply Z.div_unique with 0; lia.
  - reflexivity.
Qed.

Lemma mod_pow2_succ m k :
  0 <= k ->
  m mod 2 ^ (k + 1) = m mod 2 ^ k + 2 ^ k * (if Z.testbit m k then 1 else 0).
Proof.
  intros Hk. rewrite Z.pow_add_r, Z.pow_1_r by lia.
  rewrite Z.rem_mul_r by lia.
  rewrite Z.testbit_odd, Z.shiftr_div_pow2 by lia.
  rewrite Zmod_odd. reflexivity.
Qed.

(** After [k + 1] shifts the record holds the quotient by [2^(k+1)], bit
    [k] as the round bit and the lower bits, ored, as the sticky bit. *)
Lemma iter_shr_1 m k :
  0 <= m ->
  Nat.iter (S k) shr_1 {| shr_m := m; shr_r := false; shr_s := false |} =
  {| shr_m := m / 2 ^ Z.of_nat (S k);
     shr_r := Z.testbit m (Z.of_nat k);
     shr_s := negb (m mod 2 ^ Z.of_nat k =? 0) |}.
Proof.
  intros Hm. induction k as [|k IH].
  - change (Nat.iter 1 shr_1 ?x) with (shr_1 x). rewrite shr_1_nonneg by lia.
    change (Z.of_nat 1) with 1. change (Z.of_nat 0) with 0.
    rewrite Z.pow_1_r, Z.pow_0_r, Z.mod_1_r, Z.bit0_odd. reflexivity.
  - change (Nat.iter (S (S k)) shr_1 ?x) with (shr_1 (Nat.iter (S k) shr_1 x)).
    rewrite IH. rewrite shr_1_nonneg by (apply Z.div_pos; [lia|apply Z.pow_pos_nonneg; lia]).
    f_equal.
    + rewrite Z.div_div by (try apply Z.pow_pos_nonneg; lia).
      f_equal. rewrite (Nat2Z.inj_succ (S k)), Z.pow_succ_r by lia. ring.
    + rewrite Z.testbit_odd, Z.shiftr_div_pow2 by lia. reflexivity.
    + rewrite (Nat2Z.inj_succ k). unfold Z.succ.
      rewrite (mod_pow2_succ m (Z.of_nat k)) by lia.
      assert (0 <= m mod 2 ^ Z.of_nat k < 2 ^ Z.of_nat k)
        by (apply Z.mod_pos_bound, Z.pow_pos_nonneg; lia).
      destruct (Z.testbit m (Z.of_nat k)); simpl.
      * symmetry. apply negb_true_iff, Z.eqb_neq. lia.
      * rewrite Z.mul_0_r, Z.add_0_r. reflexivity.
Qed.

(** Rounding by round and sticky bits is [div_half_even] by a power of two. *)
Lemma round_nearest_even_shr m n :
  0 <= m -> 0 < n ->
  round_nearest_even (m / 2 ^ n)
    (loc_of_shr_record
       {| shr_m := m / 2 ^ n;
          shr_r := Z.testbit m (n - 1);
          shr_s := negb (m mod 2 ^ (n - 1) =? 0) |}) =
  div_half_even m (2 ^ n).
Proof.
  intros Hm Hn.
  pose proof (mod_pow2_succ m (n - 1) ltac:(lia)) as Hmod.
  replace (n - 1 + 1) with n in Hmod by lia.
  assert (Hlow : 0 <= m mod 2 ^ (n - 1) < 2 ^ (n - 1))
    by (apply Z.mod_pos_bound, Z.pow_pos_nonneg; lia).
  assert (Hpow : 2 ^ n = 2 * 2 ^ (n - 1)).
  { rewrite <- Z.pow_succ_r by lia. f_equal. lia. }
  unfold div_half_even, loc_of_shr_record, round_nearest_even.
  rewrite Hmod.
  destruct (Z.testbit m (n - 1)).
  - destruct (Z.eqb_spec (m mod 2 ^ (n - 1)) 0) as [E|N]; simpl negb; cbv iota.
    + rewrite E, Hpow.
      destruct (Z.compare_spec (2 * (0 + 2 ^ (n - 1) * 1)) (2 * 2 ^ (n - 1)));
        try reflexivity; lia.
    + destruct (Z.compare_spec (2 * (m mod 2 ^ (n - 1) + 2 ^ (n - 1) * 1)) (2 ^ n));
        try reflexivity; lia.
  - destruct (Z.compare_spec (2 * (m mod 2 ^ (n - 1) + 2 ^ (n - 1) * 0)) (2 ^ n));
      try lia.
    destruct (negb (m mod 2 ^ (n - 1) =? 0)); reflexivity.
Qed.

(** The number of bits, through the integer logarithm. *)
Lemma digits2_pos_log2 p : Zpos (digits2_pos p) = Z.log2 (Zpos p) + 1.
Proof.
  induction p as [p IH|p IH|]; simpl digits2_pos.
  - rewrite Pos2Z.inj_succ, IH, Pos2Z.inj_xI, Z.log2_succ_double by lia. lia.
  - rewrite Pos2Z.inj_succ, IH, Pos2Z.inj_xO, Z.log2_double by lia. lia.
  - reflexivity.
Qed.

Lemma fexp64 k : fexp prec emax k = Z.max (k - 53) (-1074).
Proof. reflexivity. Qed.

(** [shr_fexp] on an exact mantissa: the shift that brings it to the last
    place of its binade, if that shift is positive. *)
Lemma shr_fexp_exact m e :
  0 <= m ->
  shr_fexp prec emax m e loc_Exact =
  let n := fexp prec emax (Zdigits2 m + e) - e in
  if 0 <? n
  then ({| shr_m := m / 2 ^ n;
           shr_r := Z.testbit m (n - 1);
           shr_s := negb (m mod 2 ^ (n - 1) =? 0) |}, e + n)
  else ({| shr_m := m; shr_r := false; shr_s := false |}, e).
Proof.
  intros Hm. unfold shr_fexp. cbv zeta.
  set (n := fexp prec emax (Zdigits2 m + e) - e).
  unfold shr. change (shr_record_of_loc m loc_Exact) with
    {| shr_m := m; shr_r := false; shr_s := false |}.
  destruct n as [|p|p] eqn:En; try reflexivity.
  change (0 <? Z.pos p) with true. cbv iota.
  rewrite iter_pos_nat.
  destruct (Pos2Nat.is_succ p) as [k Hk]. rewrite Hk.
  rewrite iter_shr_1 by lia.
  assert (Z.pos p = Z.of_nat (S k)) by lia.
  assert (Z.pos p - 1 = Z.of_nat k) by lia.
  congruence.
Qed.

End ShiftRecord.

(** ** The rounding of the format *)

Section FormatRounding.

Local Open Scope Z_scope.

Lemma Zdigits2_log2 q : 0 < q -> Zdigits2 q = Z.log2 q + 1.
Proof.
  destruct q as [|p|p]; try lia. intros _. apply digits2_pos_log2.
Qed.

Lemma pow2_pos k : 0 <= k -> 0 < 2 ^ k.
Proof. intros. apply Z.pow_pos_nonneg; lia. Qed.

Lemma pow2_split a b : 0 <= a -> 0 <= b -> 2 ^ (a + b) = 2 ^ a * 2 ^ b.
Proof. intros. apply Z.pow_add_r; lia. Qed.

(** The last step of [binary_round_aux]: a rounded mantissa [q] at the
    exponent [E] of its binade is renormalised and checked for overflow. *)
Lemma round_finish s q E :
  0 <= q <= 2 ^ 53 -> -1074 <= E -> (-1074 < E -> 2 ^ 52 <= q) ->
  let r :=
    let '(mrs, e) := shr_fexp prec emax q E loc_Exact in
    match shr_m mrs with
    | Z0 => S754_zero s
    | Zpos m => if e <=? emax - prec then S754_finite s m e else S754_infinity s
    | Zneg _ => S754_nan
    end in
  valid_binary r = true /\ has_sign s r /\
  Z.abs (SV r) = Z.min (q * 2 ^ (E + 1074)) inf_units.
Proof.
  intros [Hq0 Hq1] HE Hnorm.
  rewrite shr_fexp_exact by lia. cbv zeta.
  change (emax - prec) with 971.
  assert (HP : 0 < 2 ^ (E + 1074)) by (apply pow2_pos; lia).
  destruct (Z.eq_dec q 0) as [->|Hq].
  { (* zero *)
    change (Zdigits2 0) with 0. rewrite fexp64.
    replace (Z.max (0 + E - 53) (-1074) - E) with (-1074 - E) by lia.
    assert (E = -1074) by (destruct (Z_lt_le_dec (-1074) E) as [H|H]; [specialize (Hnorm H); lia|lia]).
    subst E. simpl. repeat split. }
  assert (Hqpos : 0 < q) by lia.
  rewrite Zdigits2_log2, fexp64 by lia.
  destruct (Z.eq_dec q (2 ^ 53)) as [Hq53|Hq53].
  - (* the mantissa was rounded up to the next binade *)
    subst q. rewrite Z.log2_pow2 by lia.
    replace (Z.max (53 + 1 + E - 53) (-1074) - E) with 1 by lia.
    change (0 <? 1) with true. cbv iota. cbn [shr_m].
    change (2 ^ 53 / 2 ^ 1) with (Zpos (2 ^ 52)%positive).
    cbv iota.
    destruct (Z.leb_spec (E + 1) 971) as [Hle|Hgt].
    + split; [|split].
      * unfold valid_binary, bounded, canonical_mantissa.
        rewrite digits2_pos_log2, fexp64.
        change (Z.log2 (Z.pos (2 ^ 52))) with 52.
        apply andb_true_intro; split; [apply Z.eqb_eq|apply Z.leb_le]; change (emax - prec) with 971; lia.
      * reflexivity.
      * unfold SV. destruct s.
        -- rewrite Z.abs_opp, Z.abs_eq by lia.
           replace (E + 1 + 1074) with (1 + (E + 1074)) by lia.
           rewrite pow2_split by lia.
           change (Z.pos (2 ^ 52)) with (2 ^ 52). change (2 ^ 1) with 2.
           replace (2 ^ 52 * (2 * 2 ^ (E + 1074))) with (2 ^ 53 * 2 ^ (E + 1074)) by (change (2 ^ 53) with (2 * 2 ^ 52); ring).
           symmetry. apply Z.min_l. unfold inf_units.
           replace 2098 with (53 + 2045) by lia. rewrite (pow2_split 53 2045) by lia.
           apply Z.mul_le_mono_nonneg_l; [lia|]. apply Z.pow_le_mono_r; lia.
        -- rewrite Z.abs_eq by lia.
           replace (E + 1 + 1074) with (1 + (E + 1074)) by lia.
           rewrite pow2_split by lia.
           change (Z.pos (2 ^ 52)) with (2 ^ 52). change (2 ^ 1) with 2.
           replace (2 ^ 52 * (2 * 2 ^ (E + 1074))) with (2 ^ 53 * 2 ^ (E + 1074)) by (change (2 ^ 53) with (2 * 2 ^ 52); ring).
           symmetry. apply Z.min_l. unfold inf_units.
           replace 2098 with (53 + 2045) by lia. rewrite (pow2_split 53 2045) by lia.
           apply Z.mul_le_mono_nonneg_l; [lia|]. apply Z.pow_le_mono_r; lia.
    + split; [|split]; try reflexivity.
      assert (Hinf : inf_units <= 2 ^ 53 * 2 ^ (E + 1074)).
      { unfold inf_units.
        replace 2098 with (53 + 2045) by lia. rewrite (pow2_split 53 2045) by lia.
        apply Z.mul_le_mono_nonneg_l; [lia|]. apply Z.pow_le_mono_r; lia. }
      assert (0 < inf_units) by (unfold inf_units; apply pow2_pos; lia).
      unfold SV. destruct s; [rewrite Z.abs_opp|]; rewrite Z.abs_eq by lia; lia.
  - assert (Hlt : q < 2 ^ 53) by lia.
    assert (Hl : Z.log2 q < 53) by (apply Z.log2_lt_pow2; lia).
    assert (Hl' : -1074 < E -> 52 <= Z.log2 q).
    { intros H. apply Z.log2_le_pow2; [lia|]. auto. }
    replace (Z.max (Z.log2 q + 1 + E - 53) (-1074) - E) with 0 by lia.
    change (0 <? 0) with false. cbv iota. cbn [shr_m].
    destruct q as [|p|p]; try lia.
    destruct (Z.leb_spec E 971) as [Hle|Hgt].
    + split; [|split].
      * unfold valid_binary, bounded, canonical_mantissa.
        rewrite digits2_pos_log2, fexp64.
        apply andb_true_intro; split; [apply Z.eqb_eq|apply Z.leb_le]; change (emax - prec) with 971; lia.
      * reflexivity.
      * assert (Z.pos p * 2 ^ (E + 1074) <= inf_units).
        { unfold inf_units.
          replace 2098 with (53 + 2045) by lia. rewrite (pow2_split 53 2045) by lia.
          apply Z.mul_le_mono_nonneg; try lia. apply Z.pow_le_mono_r; lia. }
        unfold SV. destruct s; [rewrite Z.abs_opp|]; rewrite Z.abs_eq by lia; lia.
    + split; [|split]; try reflexivity.
      assert (Hinf : inf_units <= Z.pos p * 2 ^ (E + 1074)).
      { unfold inf_units.
        replace 2098 with (52 + 2046) by lia. rewrite (pow2_split 52 2046) by lia.
        apply Z.mul_le_mono_nonneg; try lia. apply Z.pow_le_mono_r; lia. }
      assert (0 < inf_units) by (unfold inf_units; apply pow2_pos; lia).
      unfold SV. destruct s; [rewrite Z.abs_opp|]; rewrite Z.abs_eq by lia; lia.
Qed.

Lemma div_half_even_1 m : div_half_even m 1 = m.
Proof. replace m with (m * 1) at 1 by ring. apply div_half_even_exact. lia. Qed.

(** What the first shift-and-round of [binary_round_aux] computes, as
    integers. *)
Lemma round_mantissa_spec m e :
  0 < m -> -2148 <= e ->
  let E := Z.max (Z.log2 m + 1 + e - 53) (-1074) in
  e <= E ->
  let q := div_half_even m (2 ^ (E - e)) in
  0 <= q <= 2 ^ 53 /\ (-1074 < E -> 2 ^ 52 <= q) /\
  round_units (m * 2 ^ (e + 2148)) / 2 ^ 1074 = q * 2 ^ (E + 1074).
Proof.
  intros Hm He E HE q.
  assert (Hn : 0 <= E - e) by lia.
  assert (HPn : 0 < 2 ^ (E - e)) by (apply pow2_pos; lia).
  destruct (Z.log2_spec m Hm) as [Hlo Hhi].
  assert (Hl0 : 0 <= Z.log2 m) by apply Z.log2_nonneg.
  split; [split|split].
  - apply div_half_even_nonneg; lia.
  - apply div_half_even_le; [lia|].
    rewrite <- pow2_split by lia.
    apply Z.le_trans with (2 ^ Z.succ (Z.log2 m)); [lia|].
    apply Z.pow_le_mono_r; lia.
  - intros Hsub. apply div_half_even_ge; [lia|].
    rewrite <- pow2_split by lia.
    apply Z.le_trans with (2 ^ Z.log2 m); [|lia].
    apply Z.pow_le_mono_r; lia.
  - unfold round_units.
    assert (HU : ulp_exp (m * 2 ^ (e + 2148)) = E + 2148).
    { unfold ulp_exp. rewrite Z.log2_mul_pow2 by lia. lia. }
    rewrite HU.
    replace (2 ^ (E + 2148)) with (2 ^ (E - e) * 2 ^ (e + 2148))
      by (rewrite <- pow2_split by lia; f_equal; lia).
    rewrite div_half_even_scale by (try apply pow2_pos; lia).
    fold q.
    replace (2 ^ (E - e) * 2 ^ (e + 2148)) with (2 ^ (E + 1074) * 2 ^ 1074)
      by (rewrite <- !pow2_split by lia; f_equal; lia).
    rewrite Z.mul_assoc, Z.div_mul by (apply Z.pow_nonzero; lia).
    reflexivity.
Qed.

(** [binary_round_aux] on an exact dyadic [p * 2^e] that is not finer
    than its binade allows: the result is a valid binary64 number of
    sign [s] whose magnitude is the rounding of the exact value, capped
    at infinity. *)
Lemma binary_round_aux_exact s p e :
  -2148 <= e -> e <= fexp prec emax (Zpos (digits2_pos p) + e) ->
  let r := binary_round_aux prec emax s (Zpos p) e loc_Exact in
  valid_binary r = true /\ has_sign s r /\
  Z.abs (SV r) =
  Z.min (round_units (Zpos p * 2 ^ (e + 2148)) / 2 ^ 1074) inf_units.
Proof.
  intros He. rewrite digits2_pos_log2, fexp64. intros HE.
  pose proof (round_mantissa_spec (Zpos p) e ltac:(lia) He HE) as (Hq & Hnorm & Hval).
  cbv zeta. rewrite Hval. clear Hval.
  set (E := Z.max (Z.log2 (Z.pos p) + 1 + e - 53) (-1074)) in *.
  assert (HEmin : -1074 <= E) by (unfold E; lia).
  unfold binary_round_aux.
  rewrite shr_fexp_exact by lia. cbv zeta.
  change (Zdigits2 (Z.pos p)) with (Z.pos (digits2_pos p)).
  rewrite digits2_pos_log2, fexp64. fold E.
  destruct (Z.ltb_spec 0 (E - e)) as [Hn|Hn].
  - cbn [shr_m]. rewrite round_nearest_even_shr by lia.
    replace (e + (E - e)) with E by lia.
    apply (round_finish s _ E Hq HEmin Hnorm).
  - assert (E = e) by lia.
    cbn [shr_m loc_of_shr_record round_nearest_even].
    replace (E - e) with 0 in Hq, Hnorm by lia.
    change (2 ^ 0) with 1 in Hq, Hnorm. rewrite div_half_even_1 in Hq, Hnorm.
    replace (E - e) with 0 by lia. change (2 ^ 0) with 1. rewrite div_half_even_1.
    rewrite <- H.
    apply (round_finish s _ E Hq HEmin Hnorm).
Qed.

Lemma Pos_iter_xO m d : Zpos (Pos.iter xO m d) = Zpos m * 2 ^ Zpos d.
Proof.
  rewrite (Pos.iter_swap_gen _ _ Zpos xO (Z.mul 2)) by reflexivity.
  change (Pos.iter (Z.mul 2) (Z.pos m) d) with (Z.shiftl (Zpos m) (Zpos d)).
  apply Z.shiftl_mul_pow2. lia.
Qed.

(** Aligning to a lower exponent multiplies the mantissa. *)
Lemma shl_align_spec m e e' :
  let '(mz, ez) := shl_align m e e' in
  ez = Z.min e e' /\ Zpos mz = Zpos m * 2 ^ (e - ez).
Proof.
  unfold shl_align. destruct (e' - e) as [|d|d] eqn:Hd.
  - replace (Z.min e e') with e by lia. rewrite Z.sub_diag. split; lia.
  - replace (Z.min e e') with e by lia. rewrite Z.sub_diag. split; lia.
  - replace (Z.min e e') with e' by lia. split; [reflexivity|].
    rewrite Pos_iter_xO. f_equal. f_equal. lia.
Qed.

(** [binary_round] first aligns the mantissa; after that it is
    [binary_round_aux] on the same value. *)
Lemma binary_round_exact s p e :
  -2148 <= e ->
  let r := binary_round prec emax s p e in
  valid_binary r = true /\ has_sign s r /\
  Z.abs (SV r) =
  Z.min (round_units (Zpos p * 2 ^ (e + 2148)) / 2 ^ 1074) inf_units.
Proof.
  intros He. unfold binary_round.
  pose proof (shl_align_spec p e (fexp prec emax (Z.pos (digits2_pos p) + e))) as Hal.
  destruct (shl_align p e (fexp prec emax (Z.pos (digits2_pos p) + e))) as [mz ez].
  destruct Hal as [Hez Hmz].
  rewrite digits2_pos_log2, fexp64 in Hez.
  assert (Hv : Zpos p * 2 ^ (e + 2148) = Zpos mz * 2 ^ (ez + 2148)).
  { rewrite Hmz, <- Z.mul_assoc, <- pow2_split by lia. f_equal. f_equal. lia. }
  rewrite Hv.
  apply binary_round_aux_exact; [lia|].
  rewrite digits2_pos_log2, fexp64, Hmz.
  rewrite Z.log2_mul_pow2 by lia. lia.
Qed.

End FormatRounding.

(** ** Order and values *)

Section OrderValues.

Local Open Scope Z_scope.

Lemma inf_units_pos : 0 < inf_units.
Proof. unfold inf_units. apply pow2_pos. lia. Qed.

Lemma round_cap_nonneg u : 0 <= u -> 0 <= Z.min (round_units u / 2 ^ 1074) inf_units.
Proof.
  intros H. pose proof inf_units_pos.
  assert (0 <= round_units u / 2 ^ 1074).
  { apply Z.div_pos; [apply round_units_nonneg; lia|apply pow2_pos; lia]. }
  lia.
Qed.

Lemma round_cap_mono u1 u2 :
  0 <= u1 <= u2 ->
  Z.min (round_units u1 / 2 ^ 1074) inf_units <=
  Z.min (round_units u2 / 2 ^ 1074) inf_units.
Proof.
  intros H. apply Z.min_le_compat_r.
  apply Z.div_le_mono; [apply pow2_pos; lia|].
  now apply round_units_mono.
Qed.

Lemma round_signed_0 : round_signed 0 = 0.
Proof. reflexivity. Qed.

Lemma round_signed_opp u : round_signed (- u) = - round_signed u.
Proof. unfold round_signed. rewrite Z.sgn_opp, Z.abs_opp. ring. Qed.

Lemma round_signed_nonneg u : 0 <= u -> 0 <= round_signed u.
Proof.
  intros H. unfold round_signed.
  pose proof (round_cap_nonneg (Z.abs u) ltac:(lia)).
  destruct (Z.eq_dec u 0) as [->|]; [reflexivity|].
  rewrite Z.sgn_pos by lia. lia.
Qed.

Lemma round_signed_pos_eq u :
  0 <= u -> round_signed u = Z.min (round_units u / 2 ^ 1074) inf_units.
Proof.
  intros H. unfold round_signed.
  destruct (Z.eq_dec u 0) as [->|]; [reflexivity|].
  rewrite Z.sgn_pos, Z.abs_eq by lia. lia.
Qed.

(** The signed rounding is monotone and odd. *)
Lemma round_signed_mono u1 u2 : u1 <= u2 -> round_signed u1 <= round_signed u2.
Proof.
  intros H.
  destruct (Z_le_gt_dec 0 u1) as [H1|H1].
  - rewrite !round_signed_pos_eq by lia. apply round_cap_mono. lia.
  - destruct (Z_le_gt_dec 0 u2) as [H2|H2].
    + pose proof (round_signed_nonneg u2 H2).
      pose proof (round_signed_nonneg (- u1) ltac:(lia)) as H3.
      rewrite round_signed_opp in H3. lia.
    + pose proof (round_signed_opp u1) as E1.
      pose proof (round_signed_opp u2) as E2.
      rewrite !round_signed_pos_eq in E1, E2 by lia.
      pose proof (round_cap_mono (- u2) (- u1) ltac:(lia)). lia.
Qed.

Lemma round_signed_le_inf u : round_signed u <= inf_units.
Proof.
  unfold round_signed. pose proof inf_units_pos.
  pose proof (round_cap_nonneg (Z.abs u) ltac:(lia)).
  destruct (Z.sgn_spec u) as [[_ ->]|[[_ ->]|[_ ->]]]; lia.
Qed.

(** ** Valid binary64 numbers and their scaled values *)

(** What [valid_binary] says of a finite number: its exponent is the one
    of its binade, within range. *)
Lemma valid_finite s m e :
  valid_binary (S754_finite s m e) = true ->
  -1074 <= e <= 971 /\ 0 < Zpos m < 2 ^ 53 /\ (-1074 < e -> 2 ^ 52 <= Zpos m) /\
  Z.max (Z.log2 (Zpos m) + 1 + e - 53) (-1074) = e.
Proof.
  unfold valid_binary, bounded, canonical_mantissa.
  rewrite digits2_pos_log2, fexp64. change (emax - prec) with 971.
  intros H. apply andb_prop in H as [H1 H2].
  apply Z.eqb_eq in H1. apply Z.leb_le in H2.
  assert (Hl : Z.log2 (Zpos m) < 53) by lia.
  repeat split; try lia.
  - apply Z.log2_lt_pow2; lia.
  - intros He. apply Z.log2_le_pow2; lia.
Qed.

(** A finite number is not zero and lies below the value of infinity. *)
Lemma SV_finite_bounds s m e :
  valid_binary (S754_finite s m e) = true ->
  0 < Zpos m * 2 ^ (e + 1074) < inf_units.
Proof.
  intros H. apply valid_finite in H as (He & Hm & _ & _).
  assert (0 < 2 ^ (e + 1074)) by (apply pow2_pos; lia).
  split; [lia|].
  unfold inf_units. replace 2098 with (53 + 2045) by lia.
  rewrite (pow2_split 53 2045) by lia.
  assert (2 ^ (e + 1074) <= 2 ^ 2045) by (apply Z.pow_le_mono_r; lia).
  nia.
Qed.

Lemma SV_bounds x : valid_binary x = true -> - inf_units <= SV x <= inf_units.
Proof.
  pose proof inf_units_pos.
  destruct x as [s|s| |s m e]; cbn [SV]; intros Hv; try lia.
  - destruct s; lia.
  - pose proof (SV_finite_bounds s m e Hv). cbv zeta. destruct s; lia.
Qed.

Lemma is_fin_SV x :
  valid_binary x = true -> is_fin x -> - inf_units < SV x < inf_units.
Proof.
  pose proof inf_units_pos.
  destruct x as [s|s| |s m e]; cbn [SV is_fin]; intros Hv Hf; try lia; try tauto.
  pose proof (SV_finite_bounds s m e Hv). cbv zeta. destruct s; lia.
Qed.

(** On valid numbers the lexicographic comparison of exponent and mantissa
    is the comparison of values. *)
Lemma finite_compare m1 e1 m2 e2 :
  valid_binary (S754_finite false m1 e1) = true ->
  valid_binary (S754_finite false m2 e2) = true ->
  match e1 ?= e2 with
  | Lt => Lt
  | Gt => Gt
  | Eq => Pos.compare_cont Eq m1 m2
  end = (Zpos m1 * 2 ^ (e1 + 1074) ?= Zpos m2 * 2 ^ (e2 + 1074)).
Proof.
  intros H1 H2.
  apply valid_finite in H1 as (He1 & Hm1 & Hn1 & _).
  apply valid_finite in H2 as (He2 & Hm2 & Hn2 & _).
  assert (Hlt : forall ma ea mb eb,
             -1074 <= ea -> ea < eb -> 0 < ma < 2 ^ 53 -> 2 ^ 52 <= mb ->
             ma * 2 ^ (ea + 1074) < mb * 2 ^ (eb + 1074)).
  { intros ma ea mb eb Ha Hab Hma Hmb.
    assert (0 < 2 ^ (ea + 1074)) by (apply pow2_pos; lia).
    replace (eb + 1074) with ((eb - ea - 1) + 1 + (ea + 1074)) by lia.
    rewrite (pow2_split (eb - ea - 1 + 1) (ea + 1074)) by lia.
    rewrite (pow2_split (eb - ea - 1) 1) by lia. change (2 ^ 1) with 2.
    assert (1 <= 2 ^ (eb - ea - 1)) by (pose proof (pow2_pos (eb - ea - 1)); lia).
    set (X := 2 ^ (eb - ea - 1)) in *.
    apply Z.lt_le_trans with (2 ^ 53 * 2 ^ (ea + 1074)).
    { apply Z.mul_lt_mono_pos_r; lia. }
    rewrite Z.mul_assoc. apply Z.mul_le_mono_nonneg_r; [lia|].
    apply Z.le_trans with (mb * (1 * 2)); [lia|].
    apply Z.mul_le_mono_nonneg_l; lia. }
  destruct (Z.compare_spec e1 e2) as [E|L|G].
  - subst e2. fold (Pos.compare m1 m2). rewrite Pos2Z.inj_compare.
    assert (0 < 2 ^ (e1 + 1074)) by (apply pow2_pos; lia).
    destruct (Z.compare_spec (Zpos m1) (Zpos m2));
      destruct (Z.compare_spec (Zpos m1 * 2 ^ (e1 + 1074)) (Zpos m2 * 2 ^ (e1 + 1074)));
      try reflexivity; nia.
  - symmetry. apply Z.compare_lt_iff. apply Hlt; lia.
  - symmetry. apply Z.compare_gt_iff. apply Hlt; lia.
Qed.

(** [SFcompare] compares values, for numbers that are not NaN. *)
Lemma SFcompare_SV x y :
  valid_binary x = true -> valid_binary y = true ->
  x <> S754_nan -> y <> S754_nan ->
  SFcompare x y = Some (SV x ?= SV y).
Proof.
  intros Hx Hy Nx Ny. pose proof inf_units_pos as HI.
  destruct x as [sx|sx| |sx mx ex]; try congruence;
    destruct y as [sy|sy| |sy my ey]; try congruence;
    try pose proof (SV_finite_bounds _ _ _ Hx) as Bx;
    try pose proof (SV_finite_bounds _ _ _ Hy) as By;
    unfold SFcompare, SV; cbv zeta.
  - reflexivity.
  - f_equal. symmetry. destruct sy; [apply Z.compare_gt_iff|apply Z.compare_lt_iff]; lia.
  - f_equal. symmetry. destruct sy; [apply Z.compare_gt_iff|apply Z.compare_lt_iff]; lia.
  - f_equal. symmetry. destruct sx; [apply Z.compare_lt_iff|apply Z.compare_gt_iff]; lia.
  - f_equal. symmetry. destruct sx, sy;
      [apply Z.compare_eq_iff|apply Z.compare_lt_iff|apply Z.compare_gt_iff|apply Z.compare_eq_iff]; lia.
  - f_equal. symmetry. destruct sx, sy;
      first [apply Z.compare_lt_iff; lia|apply Z.compare_gt_iff; lia].
  - f_equal. symmetry. destruct sx; [apply Z.compare_lt_iff|apply Z.compare_gt_iff]; lia.
  - f_equal. symmetry. destruct sx, sy;
      first [apply Z.compare_lt_iff; lia|apply Z.compare_gt_iff; lia].
  - f_equal.
    assert (Hx' : valid_binary (S754_finite false mx ex) = true) by exact Hx.
    assert (Hy' : valid_binary (S754_finite false my ey) = true) by exact Hy.
    destruct sx, sy.
    + rewrite Z.compare_opp.
      rewrite <- (finite_compare my ey mx ex Hy' Hx').
      rewrite (Z.compare_antisym ey ex).
      destruct (ey ?= ex); simpl; try reflexivity.
      fold (Pos.compare mx my). fold (Pos.compare my mx).
      symmetry. apply Pos.compare_antisym.
    + symmetry. apply Z.compare_lt_iff. lia.
    + symmetry. apply Z.compare_gt_iff. lia.
    + apply finite_compare; assumption.
Qed.

Lemma SFleb_SV x y :
  valid_binary x = true -> valid_binary y = true ->
  x <> S754_nan -> y <> S754_nan ->
  SFleb x y = (SV x <=? SV y).
Proof.
  intros. unfold SFleb. rewrite SFcompare_SV by assumption.
  unfold Z.leb. destruct (SV x ?= SV y); reflexivity.
Qed.

Lemma SFltb_SV x y :
  valid_binary x = true -> valid_binary y = true ->
  x <> S754_nan -> y <> S754_nan ->
  SFltb x y = (SV x <? SV y).
Proof.
  intros. unfold SFltb. rewrite SFcompare_SV by assumption.
  unfold Z.ltb. destruct (SV x ?= SV y); reflexivity.
Qed.

Lemma SFeqb_SV x y :
  valid_binary x = true -> valid_binary y = true ->
  x <> S754_nan -> y <> S754_nan ->
  SFeqb x y = (SV x =? SV y).
Proof.
  intros. unfold SFeqb. rewrite SFcompare_SV by assumption.
  unfold Z.eqb. destruct (SV x) , (SV y); simpl; try reflexivity.
  - destruct (Pos.compare_spec p p0); destruct (Pos.eqb_spec p p0); congruence || (subst; lia) || reflexivity.
  - rewrite Pos.compare_antisym.
    destruct (Pos.compare_spec p0 p); destruct (Pos.eqb_spec p p0); simpl; congruence || (subst; lia) || reflexivity.
Qed.

End OrderValues.

(** ** The operations of the specification *)

Section SpecOperations.

Local Open Scope Z_scope.

Lemma has_sign_not_nan s r : has_sign s r -> r <> S754_nan.
Proof. destruct r; simpl; congruence || tauto. Qed.

Lemma has_sign_SFsign s r : has_sign s r -> SFsign r = s.
Proof. destruct r; simpl; tauto. Qed.

(** A value is its magnitude with its sign. *)
Lemma SV_of_sign s r X :
  valid_binary r = true -> has_sign s r -> Z.abs (SV r) = X ->
  SV r = if s then - X else X.
Proof.
  intros Hv Hs HX. pose proof inf_units_pos.
  destruct r as [s'|s'| |s' m e]; cbn [has_sign] in Hs; try tauto; subst s';
    cbn [SV] in *; cbv zeta in *.
  - destruct s; lia.
  - destruct s; lia.
  - pose proof (SV_finite_bounds s m e Hv). destruct s; lia.
Qed.

Lemma round_signed_of_sign (s : bool) u :
  0 <= u ->
  (if s then - Z.min (round_units u / 2 ^ 1074) inf_units
   else Z.min (round_units u / 2 ^ 1074) inf_units) =
  round_signed (if s then - u else u).
Proof.
  intros Hu. destruct s.
  - rewrite round_signed_opp, round_signed_pos_eq by lia. reflexivity.
  - rewrite round_signed_pos_eq by lia. reflexivity.
Qed.

(** A representable value is rounded to itself. *)
Lemma round_units_fix s m e :
  valid_binary (S754_finite s m e) = true ->
  Z.min (round_units (Zpos m * 2 ^ (e + 2148)) / 2 ^ 1074) inf_units =
  Zpos m * 2 ^ (e + 1074).
Proof.
  intros Hv. pose proof (SV_finite_bounds s m e Hv) as HB.
  apply valid_finite in Hv as (He & Hm & Hn & HE).
  pose proof (round_mantissa_spec (Zpos m) e ltac:(lia) ltac:(lia)) as H.
  cbv zeta in H. rewrite HE in H. specialize (H ltac:(lia)).
  destruct H as (_ & _ & H). rewrite H.
  rewrite Z.sub_diag. change (2 ^ 0) with 1. rewrite div_half_even_1. lia.
Qed.

Lemma round_signed_fix x :
  valid_binary x = true -> is_fin x -> round_signed (SV x * 2 ^ 1074) = SV x.
Proof.
  destruct x as [s|s| |s m e]; cbn [is_fin SV]; try tauto; intros Hv _.
  cbv zeta. pose proof (round_units_fix s m e Hv) as HF.
    pose proof (valid_finite s m e Hv) as (He & _).
    assert (HP : Zpos m * 2 ^ (e + 1074) * 2 ^ 1074 = Zpos m * 2 ^ (e + 2148)).
    { rewrite <- Z.mul_assoc, <- pow2_split by lia. do 2 f_equal. lia. }
    assert (0 < Zpos m * 2 ^ (e + 2148)).
    { apply Z.mul_pos_pos; [lia|apply pow2_pos; lia]. }
  destruct s.
  - rewrite Z.mul_opp_l, round_signed_opp, HP, round_signed_pos_eq by lia. lia.
  - rewrite HP, round_signed_pos_eq by lia. lia.
Qed.

(** ** Multiplication *)

(** The product of two finite numbers is the rounding of the exact product. *)
Lemma SFmul_finite sx mx ex sy my ey :
  valid_binary (S754_finite sx mx ex) = true ->
  valid_binary (S754_finite sy my ey) = true ->
  let r := SF64mul (S754_finite sx mx ex) (S754_finite sy my ey) in
  valid_binary r = true /\ has_sign (xorb sx sy) r /\
  Z.abs (SV r) =
  Z.min (round_units (Zpos mx * 2 ^ (ex + 1074) * (Zpos my * 2 ^ (ey + 1074)))
         / 2 ^ 1074) inf_units.
Proof.
  intros Hx Hy.
  apply valid_finite in Hx as (Hex & Hmx & Hnx & HEx).
  apply valid_finite in Hy as (Hey & Hmy & Hny & HEy).
  unfold SF64mul, SFmul.
  replace (Zpos mx * 2 ^ (ex + 1074) * (Zpos my * 2 ^ (ey + 1074)))
    with (Zpos (mx * my) * 2 ^ (ex + ey + 2148)).
  2:{ rewrite Pos2Z.inj_mul.
      replace (ex + ey + 2148) with ((ex + 1074) + (ey + 1074)) by lia.
      rewrite pow2_split by lia. ring. }
  apply binary_round_aux_exact; [lia|].
  rewrite digits2_pos_log2, fexp64, Pos2Z.inj_mul.
  pose proof (Z.log2_mul_below (Zpos mx) (Zpos my) ltac:(lia) ltac:(lia)).
  pose proof (Z.log2_nonneg (Zpos mx)). pose proof (Z.log2_nonneg (Zpos my)).
  lia.
Qed.

(** Products of zeros and finite numbers: sign, validity and value. *)
Lemma SFmul_fin x y :
  valid_binary x = true -> valid_binary y = true -> is_fin x -> is_fin y ->
  let r := SF64mul x y in
  valid_binary r = true /\ has_sign (xorb (SFsign x) (SFsign y)) r /\
  SV r = round_signed (SV x * SV y).
Proof.
  intros Hx Hy Fx Fy.
  destruct x as [sx|sx| |sx mx ex]; cbn [is_fin] in Fx; try tauto;
    destruct y as [sy|sy| |sy my ey]; cbn [is_fin] in Fy; try tauto.
  - cbv zeta. cbn. repeat split.
  - cbv zeta. cbn [SF64mul SFmul SFsign SV has_sign valid_binary]. unfold SF64mul, SFmul.
    cbn [SV has_sign valid_binary]. repeat split.
  - cbv zeta. unfold SF64mul, SFmul. cbn [SFsign SV has_sign valid_binary].
    rewrite Z.mul_0_r. repeat split.
  - pose proof (SFmul_finite sx mx ex sy my ey Hx Hy) as (Hv & Hs & Ha).
    cbv zeta. split; [exact Hv|]. split; [exact Hs|].
    rewrite (SV_of_sign _ _ _ Hv Hs Ha).
    pose proof (SV_finite_bounds _ _ _ Hx). pose proof (SV_finite_bounds _ _ _ Hy).
    rewrite round_signed_of_sign by nia.
    f_equal. cbn [SV]. cbv zeta. destruct sx, sy; cbn [xorb]; ring.
Qed.

(** ** Addition and subtraction *)

(** [binary_normalize] rounds the signed exact value. *)
Lemma binary_normalize_spec S e :
  -2148 <= e ->
  let r := binary_normalize prec emax S e false in
  valid_binary r = true /\ r <> S754_nan /\
  SV r = round_signed (S * 2 ^ (e + 2148)).
Proof.
  intros He. assert (HP : 0 < 2 ^ (e + 2148)) by (apply pow2_pos; lia).
  destruct S as [|p|p]; unfold binary_normalize.
  - repeat split. discriminate.
  - pose proof (binary_round_exact false p e ltac:(lia)) as (Hv & Hs & Ha).
    split; [exact Hv|]. split; [eapply has_sign_not_nan; eauto|].
    rewrite (SV_of_sign _ _ _ Hv Hs Ha).
    rewrite round_signed_pos_eq by lia. reflexivity.
  - pose proof (binary_round_exact true p e ltac:(lia)) as (Hv & Hs & Ha).
    split; [exact Hv|]. split; [eapply has_sign_not_nan; eauto|].
    rewrite (SV_of_sign _ _ _ Hv Hs Ha).
    replace (Z.neg p * 2 ^ (e + 2148)) with (- (Z.pos p * 2 ^ (e + 2148))) by lia.
    rewrite round_signed_opp, round_signed_pos_eq by lia. reflexivity.
Qed.

(** The aligned mantissa of an operand of a sum carries its value. *)
Lemma aligned_value s m e ez :
  -1074 <= ez -> ez <= e ->
  cond_Zopp s (Zpos (fst (shl_align m e ez))) * 2 ^ (ez + 1074) =
  SV (S754_finite s m e).
Proof.
  intros Hz Hle.
  pose proof (shl_align_spec m e ez) as H.
  destruct (shl_align m e ez) as [mz ez']. destruct H as [Hez Hmz].
  cbn [fst SV]. cbv zeta. rewrite Hmz, Hez.
  replace (Z.min e ez) with ez by lia.
  assert (Zpos m * 2 ^ (e - ez) * 2 ^ (ez + 1074) = Zpos m * 2 ^ (e + 1074)).
  { rewrite <- Z.mul_assoc, <- pow2_split by lia. do 2 f_equal. lia. }
  unfold cond_Zopp. destruct s; lia.
Qed.

(** Sums and differences of zeros and finite numbers round the exact result. *)
Lemma SFadd_fin x y :
  valid_binary x = true -> valid_binary y = true -> is_fin x -> is_fin y ->
  let r := SF64add x y in
  valid_binary r = true /\ r <> S754_nan /\
  SV r = round_signed ((SV x + SV y) * 2 ^ 1074).
Proof.
  intros Hx Hy Fx Fy.
  destruct x as [sx|sx| |sx mx ex]; cbn [is_fin] in Fx; try tauto;
    destruct y as [sy|sy| |sy my ey]; cbn [is_fin] in Fy; try tauto;
    cbv zeta; unfold SF64add, SFadd.
  - destruct sx, sy; repeat split; discriminate.
  - split; [exact Hy|]. split; [discriminate|].
    change (SV (S754_zero sx)) with 0. rewrite Z.add_0_l.
    symmetry. now apply round_signed_fix.
  - split; [exact Hx|]. split; [discriminate|].
    change (SV (S754_zero sy)) with 0. rewrite Z.add_0_r.
    symmetry. now apply round_signed_fix.
  - pose proof (valid_finite _ _ _ Hx) as (Hex & _).
    pose proof (valid_finite _ _ _ Hy) as (Hey & _).
    set (ez := Z.min ex ey).
    pose proof (binary_normalize_spec
                  (cond_Zopp sx (Zpos (fst (shl_align mx ex ez))) +
                   cond_Zopp sy (Zpos (fst (shl_align my ey ez)))) ez ltac:(lia))
      as (Hv & Hn & Hs).
    split; [exact Hv|]. split; [exact Hn|].
    rewrite Hs. f_equal.
    rewrite <- (aligned_value sx mx ex ez), <- (aligned_value sy my ey ez) by lia.
    replace (ez + 2148) with (ez + 1074 + 1074) by lia.
    rewrite (pow2_split (ez + 1074) 1074) by lia. ring.
Qed.

Lemma SFsub_fin x y :
  valid_binary x = true -> valid_binary y = true -> is_fin x -> is_fin y ->
  let r := SF64sub x y in
  valid_binary r = true /\ r <> S754_nan /\
  SV r = round_signed ((SV x - SV y) * 2 ^ 1074).
Proof.
  intros Hx Hy Fx Fy.
  destruct x as [sx|sx| |sx mx ex]; cbn [is_fin] in Fx; try tauto;
    destruct y as [sy|sy| |sy my ey]; cbn [is_fin] in Fy; try tauto;
    cbv zeta; unfold SF64sub, SFsub.
  - destruct sx, sy; repeat split; discriminate.
  - split; [exact Hy|]. split; [discriminate|].
    change (SV (S754_zero sx)) with 0. rewrite Z.sub_0_l.
    assert (E : SV (S754_finite (negb sy) my ey) = - SV (S754_finite sy my ey)).
    { cbn [SV]. cbv zeta. destruct sy; cbn [negb]; lia. }
    rewrite E, Z.mul_opp_l, round_signed_opp. f_equal.
    symmetry. now apply round_signed_fix.
  - split; [exact Hx|]. split; [discriminate|].
    change (SV (S754_zero sy)) with 0. rewrite Z.sub_0_r.
    symmetry. now apply round_signed_fix.
  - pose proof (valid_finite _ _ _ Hx) as (Hex & _).
    pose proof (valid_finite _ _ _ Hy) as (Hey & _).
    set (ez := Z.min ex ey).
    pose proof (binary_normalize_spec
                  (cond_Zopp sx (Zpos (fst (shl_align mx ex ez))) -
                   cond_Zopp sy (Zpos (fst (shl_align my ey ez)))) ez ltac:(lia))
      as (Hv & Hn & Hs).
    split; [exact Hv|]. split; [exact Hn|].
    rewrite Hs. f_equal.
    rewrite <- (aligned_value sx mx ex ez), <- (aligned_value sy my ey ez) by lia.
    replace (ez + 2148) with (ez + 1074 + 1074) by lia.
    rewrite (pow2_split (ez + 1074) 1074) by lia. ring.
Qed.

End SpecOperations.

(** * Primitive floats *)

Section PrimitiveFloats.

Local Open Scope Z_scope.

Lemma SFcompare_nan_l y : SFcompare S754_nan y = None.
Proof. reflexivity. Qed.

Lemma SFcompare_nan_r x : SFcompare x S754_nan = None.
Proof. destruct x; reflexivity. Qed.

(** The predicates of the primitive floats, on the specification side. *)
Lemma is_nan_spec x : is_nan x = true <-> Prim2SF x = S754_nan.
Proof.
  unfold is_nan. rewrite eqb_spec. split.
  - intros H. destruct (Prim2SF x) eqn:E; try reflexivity;
      rewrite SFeqb_SV in H; try (rewrite <- E; apply Prim2SF_valid); try discriminate;
      rewrite Z.eqb_refl in H; discriminate.
  - intros ->. reflexivity.
Qed.

Lemma not_nan_spec x : is_nan x = false <-> Prim2SF x <> S754_nan.
Proof.
  rewrite <- is_nan_spec. destruct (is_nan x); split; congruence.
Qed.

Lemma is_finite_spec x : finite x <-> is_fin (Prim2SF x).
Proof.
  unfold finite, is_finite, is_infinity.
  destruct (is_nan x) eqn:En.
  - apply is_nan_spec in En. rewrite En. simpl. split; [discriminate|tauto].
  - rewrite eqb_spec, abs_spec. change (Prim2SF infinity) with (S754_infinity false).
    apply not_nan_spec in En.
    destruct (Prim2SF x) as [s|s| |s m e]; simpl; split; intros H;
      try tauto; try reflexivity; try discriminate; congruence.
Qed.

Lemma finite_not_nan x : finite x -> Prim2SF x <> S754_nan.
Proof. intros H. apply is_finite_spec in H. destruct (Prim2SF x); simpl in *; congruence || tauto. Qed.

(** The comparisons of the primitive floats compare values, and fail on NaN. *)
Lemma leb_spec_FV x y :
  (x <= y)%float <->
  Prim2SF x <> S754_nan /\ Prim2SF y <> S754_nan /\ FV x <= FV y.
Proof.
  rewrite leb_spec. unfold FV. split.
  - intros H.
    assert (Nx : Prim2SF x <> S754_nan).
    { intros E. rewrite E in H. discriminate. }
    assert (Ny : Prim2SF y <> S754_nan).
    { intros E. rewrite E in H. unfold SFleb in H. rewrite SFcompare_nan_r in H. discriminate. }
    rewrite SFleb_SV in H by (auto using Prim2SF_valid).
    apply Z.leb_le in H. auto.
  - intros (Nx & Ny & H).
    rewrite SFleb_SV by (auto using Prim2SF_valid). now apply Z.leb_le.
Qed.

Lemma ltb_spec_FV x y :
  (x < y)%float <->
  Prim2SF x <> S754_nan /\ Prim2SF y <> S754_nan /\ FV x < FV y.
Proof.
  rewrite ltb_spec. unfold FV. split.
  - intros H.
    assert (Nx : Prim2SF x <> S754_nan).
    { intros E. rewrite E in H. discriminate. }
    assert (Ny : Prim2SF y <> S754_nan).
    { intros E. rewrite E in H. unfold SFltb in H. rewrite SFcompare_nan_r in H. discriminate. }
    rewrite SFltb_SV in H by (auto using Prim2SF_valid).
    apply Z.ltb_lt in H. auto.
  - intros (Nx & Ny & H).
    rewrite SFltb_SV by (auto using Prim2SF_valid). now apply Z.ltb_lt.
Qed.

Lemma ltb_false_FV x y :
  Prim2SF x <> S754_nan -> Prim2SF y <> S754_nan ->
  (x <? y)%float = false -> FV y <= FV x.
Proof.
  intros Nx Ny H. rewrite ltb_spec, SFltb_SV in H by (auto using Prim2SF_valid).
  apply Z.ltb_ge in H. exact H.
Qed.

Lemma eqb_spec_FV x y :
  (x =? y)%float = true <->
  Prim2SF x <> S754_nan /\ Prim2SF y <> S754_nan /\ FV x = FV y.
Proof.
  rewrite eqb_spec. unfold FV. split.
  - intros H.
    assert (Nx : Prim2SF x <> S754_nan).
    { intros E. rewrite E in H. discriminate. }
    assert (Ny : Prim2SF y <> S754_nan).
    { intros E. rewrite E in H. unfold SFeqb in H. rewrite SFcompare_nan_r in H. discriminate. }
    rewrite SFeqb_SV in H by (auto using Prim2SF_valid).
    apply Z.eqb_eq in H. auto.
  - intros (Nx & Ny & H).
    rewrite SFeqb_SV by (auto using Prim2SF_valid). now apply Z.eqb_eq.
Qed.

Lemma FV_0 : FV 0 = 0.
Proof. reflexivity. Qed.

Lemma FV_bounds x : - inf_units <= FV x <= inf_units.
Proof. apply SV_bounds, Prim2SF_valid. Qed.

Lemma finite_FV x : finite x -> - inf_units < FV x < inf_units.
Proof. intros H. apply is_fin_SV; [apply Prim2SF_valid|now apply is_finite_spec]. Qed.

(** A number that is not NaN and has a value below infinity is finite. *)
Lemma finite_of_FV x :
  Prim2SF x <> S754_nan -> - inf_units < FV x < inf_units -> finite x.
Proof.
  intros N H. apply is_finite_spec. unfold FV in H.
  destruct (Prim2SF x) as [s|s| |s m e]; simpl; try tauto.
  cbn [SV] in H. destruct s; lia.
Qed.

(** A number between two finite numbers is finite. *)
Lemma finite_between l x u :
  finite l -> finite u -> (l <= x)%float -> (x <= u)%float -> finite x.
Proof.
  intros Hl Hu Hlx Hxu.
  apply leb_spec_FV in Hlx as (_ & Nx & H1).
  apply leb_spec_FV in Hxu as (_ & _ & H2).
  apply finite_FV in Hl, Hu. apply finite_of_FV; [assumption|lia].
Qed.

(** The order facts used below. *)
Lemma le_trans x y z : (x <= y)%float -> (y <= z)%float -> (x <= z)%float.
Proof.
  rewrite !leb_spec_FV. intros (? & ? & ?) (? & ? & ?). repeat split; auto; lia.
Qed.

Lemma lt_le x y : (x < y)%float -> (x <= y)%float.
Proof.
  rewrite leb_spec_FV, ltb_spec_FV. intros (? & ? & ?). repeat split; auto; lia.
Qed.

Lemma le_refl x : Prim2SF x <> S754_nan -> (x <= x)%float.
Proof. intros. apply leb_spec_FV. repeat split; auto; lia. Qed.

(** ** The operations on finite numbers *)

(** The primitive operations on finite numbers: no NaN, and the value is
    the rounding of the exact result. *)
Lemma mul_finite x y :
  finite x -> finite y ->
  Prim2SF (x * y) <> S754_nan /\
  has_sign (xorb (SFsign (Prim2SF x)) (SFsign (Prim2SF y))) (Prim2SF (x * y)) /\
  FV (x * y) = round_signed (FV x * FV y).
Proof.
  intros Hx Hy. apply is_finite_spec in Hx, Hy.
  pose proof (SFmul_fin _ _ (Prim2SF_valid x) (Prim2SF_valid y) Hx Hy) as (Hv & Hs & HV).
  unfold FV. rewrite mul_spec. split; [eapply has_sign_not_nan; eauto|]. split; assumption.
Qed.

Lemma add_finite x y :
  finite x -> finite y ->
  Prim2SF (x + y) <> S754_nan /\
  FV (x + y) = round_signed ((FV x + FV y) * 2 ^ 1074).
Proof.
  intros Hx Hy. apply is_finite_spec in Hx, Hy.
  pose proof (SFadd_fin _ _ (Prim2SF_valid x) (Prim2SF_valid y) Hx Hy) as (Hv & Hs & HV).
  unfold FV. rewrite add_spec. split; assumption.
Qed.

Lemma sub_finite x y :
  finite x -> finite y ->
  Prim2SF (x - y) <> S754_nan /\
  FV (x - y) = round_signed ((FV x - FV y) * 2 ^ 1074).
Proof.
  intros Hx Hy. apply is_finite_spec in Hx, Hy.
  pose proof (SFsub_fin _ _ (Prim2SF_valid x) (Prim2SF_valid y) Hx Hy) as (Hv & Hs & HV).
  unfold FV. rewrite sub_spec. split; assumption.
Qed.

(** ** Monotonicity *)

Lemma nonneg_le_finite x u : (0 <= x)%float -> (x <= u)%float -> finite u -> finite x.
Proof.
  intros H0 Hu Fu. apply (finite_between 0%float x u); auto. reflexivity.
Qed.

(** Multiplication is monotone on non-negative numbers below finite bounds. *)
Lemma mul_le_mono a b c d :
  finite b -> finite d ->
  (0 <= a)%float -> (a <= b)%float -> (0 <= c)%float -> (c <= d)%float ->
  (0 <= a * c)%float /\ (a * c <= b * d)%float.
Proof.
  intros Fb Fd H0a Hab H0c Hcd.
  assert (Fa : finite a) by (eapply nonneg_le_finite; eauto).
  assert (Fc : finite c) by (eapply nonneg_le_finite; eauto).
  destruct (mul_finite a c Fa Fc) as (N1 & _ & V1).
  destruct (mul_finite b d Fb Fd) as (N2 & _ & V2).
  apply leb_spec_FV in H0a as (_ & _ & H0a). apply leb_spec_FV in Hab as (_ & _ & Hab).
  apply leb_spec_FV in H0c as (_ & _ & H0c). apply leb_spec_FV in Hcd as (_ & _ & Hcd).
  rewrite FV_0 in *.
  split; apply leb_spec_FV; repeat split; auto; try discriminate.
  - rewrite FV_0, V1. apply round_signed_nonneg. nia.
  - rewrite V1, V2. apply round_signed_mono. nia.
Qed.

(** Subtraction of a fixed finite number is monotone. *)
Lemma sub_le_mono a b c :
  finite a -> finite b -> finite c -> (a <= b)%float -> (a - c <= b - c)%float.
Proof.
  intros Fa Fb Fc Hab.
  destruct (sub_finite a c Fa Fc) as (N1 & V1).
  destruct (sub_finite b c Fb Fc) as (N2 & V2).
  apply leb_spec_FV in Hab as (_ & _ & Hab).
  apply leb_spec_FV. repeat split; auto.
  rewrite V1, V2. apply round_signed_mono.
  apply Z.mul_le_mono_nonneg_r; [apply Z.pow_nonneg|]; lia.
Qed.

End PrimitiveFloats.

(** * Python's [round] *)

Section PythonRound.

Local Open Scope Z_scope.

Lemma pow10_pos nd : 0 < Py.pow10 nd.
Proof. unfold Py.pow10. apply Z.pow_pos_nonneg; lia. Qed.

Lemma sticky_quotient_0 d : Py.sticky_quotient 0 d = 0.
Proof.
  unfold Py.sticky_quotient. cbv zeta. rewrite Z.mul_0_l, Zmod_0_l, Zdiv_0_l. reflexivity.
Qed.

Lemma sticky_quotient_nonneg n d : 0 < d -> 0 <= n -> 0 <= Py.sticky_quotient n d.
Proof.
  intros Hd Hn. unfold Py.sticky_quotient. cbv zeta.
  assert (0 <= n * 2 ^ 1080) by (apply Z.mul_nonneg_nonneg; [lia|apply Z.pow_nonneg; lia]).
  assert (0 <= n * 2 ^ 1080 / d) by (apply Z.div_pos; lia).
  destruct (n * 2 ^ 1080 mod d =? 0); lia.
Qed.

(** The sticky quotient is monotone in the numerator. *)
Lemma sticky_quotient_mono n1 n2 d :
  0 < d -> n1 <= n2 -> Py.sticky_quotient n1 d <= Py.sticky_quotient n2 d.
Proof.
  intros Hd Hn. unfold Py.sticky_quotient. cbv zeta.
  set (t1 := n1 * 2 ^ 1080). set (t2 := n2 * 2 ^ 1080).
  assert (Ht : t1 <= t2).
  { apply Z.mul_le_mono_nonneg_r; [apply Z.pow_nonneg|]; lia. }
  assert (Hq : t1 / d <= t2 / d) by (apply Z.div_le_mono; lia).
  pose proof (Z.mod_pos_bound t1 d Hd). pose proof (Z.mod_pos_bound t2 d Hd).
  destruct (Z.eq_dec (t1 / d) (t2 / d)) as [E|N].
  - assert (t1 mod d <= t2 mod d) by (rewrite !Z.mod_eq by lia; rewrite E; lia).
    destruct (Z.eqb_spec (t1 mod d) 0); destruct (Z.eqb_spec (t2 mod d) 0); lia.
  - destruct (t1 mod d =? 0); destruct (t2 mod d =? 0); lia.
Qed.

(** [strtod] never gives NaN; its value is the rounding of the sticky
    quotient. *)
Lemma strtod_spec n d :
  Prim2SF (Py.strtod n d) <> S754_nan /\
  FV (Py.strtod n d) = round_signed (Py.sticky_quotient n d * 2 ^ 1067).
Proof.
  unfold Py.strtod, FV.
  pose proof (binary_normalize_spec (Py.sticky_quotient n d) (-1081) ltac:(lia))
    as (Hv & Hn & Hs).
  rewrite Prim2SF_SF2Prim by exact Hv. split; [exact Hn|exact Hs].
Qed.

(** The decimal numerator, from the value of the number. *)
Lemma decimal_numerator_value s m e nd :
  valid_binary (S754_finite s m e) = true ->
  Py.decimal_numerator m e nd =
  div_half_even (Zpos m * 2 ^ (e + 1074) * Py.pow10 nd) (2 ^ 1074).
Proof.
  intros Hv. apply valid_finite in Hv as (He & _).
  unfold Py.decimal_numerator. destruct e as [|k|k].
  - change (0 + 1074) with 1074.
    replace (Zpos m * 2 ^ 1074 * Py.pow10 nd) with (Zpos m * 2 ^ 0 * Py.pow10 nd * 2 ^ 1074) by (change (2 ^ 0) with 1; ring).
    rewrite div_half_even_exact by (apply pow2_pos; lia). reflexivity.
  - replace (Zpos m * 2 ^ (Zpos k + 1074) * Py.pow10 nd)
      with (Zpos m * 2 ^ Zpos k * Py.pow10 nd * 2 ^ 1074)
      by (rewrite pow2_split by lia; ring).
    rewrite div_half_even_exact by (apply pow2_pos; lia). reflexivity.
  - assert (Hk : Zpos k <= 1074) by lia.
    replace (2 ^ 1074) with (2 ^ Zpos k * 2 ^ (Zneg k + 1074))
      by (rewrite <- pow2_split by lia; f_equal; lia).
    replace (Zpos m * 2 ^ (Zneg k + 1074) * Py.pow10 nd)
      with (Zpos m * Py.pow10 nd * 2 ^ (Zneg k + 1074)) by ring.
    rewrite div_half_even_scale by (apply pow2_pos; lia). reflexivity.
Qed.

Lemma div_half_even_0 b : 0 < b -> div_half_even 0 b = 0.
Proof. intros Hb. apply (div_half_even_exact 0 b Hb). Qed.

Lemma round_value_0 nd : round_value nd 0 = 0.
Proof.
  unfold round_value. replace (0 * Py.pow10 nd) with 0 by ring.
  rewrite div_half_even_0 by (apply pow2_pos; lia).
  rewrite sticky_quotient_0. reflexivity.
Qed.

Lemma round_value_mono nd v1 v2 :
  0 <= v1 <= v2 -> round_value nd v1 <= round_value nd v2.
Proof.
  intros H. unfold round_value. apply round_signed_mono.
  apply Z.mul_le_mono_nonneg_r; [apply Z.pow_nonneg; lia|].
  apply sticky_quotient_mono; [apply pow10_pos|].
  apply div_half_even_mono; [apply pow2_pos; lia|].
  pose proof (pow10_pos nd). nia.
Qed.

Lemma round_value_nonneg nd v : 0 <= v -> 0 <= round_value nd v.
Proof.
  intros H. rewrite <- (round_value_0 nd). apply round_value_mono. lia.
Qed.

(** A number at or above zero is a zero, a positive finite number or the
    positive infinity. *)
Lemma nonneg_cases x :
  (0 <= x)%float ->
  (exists s, Prim2SF x = S754_zero s) \/
  (exists m e, Prim2SF x = S754_finite false m e) \/
  Prim2SF x = S754_infinity false.
Proof.
  intros H. apply leb_spec_FV in H as (_ & N & H). rewrite FV_0 in H.
  unfold FV in H. pose proof (Prim2SF_valid x) as Hv. pose proof inf_units_pos.
  destruct (Prim2SF x) as [s|s| |s m e]; try congruence.
  - left. eauto.
  - right. right. cbn [SV] in H. destruct s; [lia|reflexivity].
  - right. left. pose proof (SV_finite_bounds s m e Hv).
    cbn [SV] in H. cbv zeta in H. destruct s; [lia|eauto].
Qed.

Lemma round_unfold x nd :
  (nd <= Py.NDIGITS_MAX)%nat ->
  Py.round x nd =
  match Prim2SF x with
  | S754_finite s m e =>
      let r := Py.strtod (Py.decimal_numerator m e nd) (Py.pow10 nd) in
      if s then (- r)%float else r
  | _ => x
  end.
Proof.
  intros H. unfold Py.round.
  destruct (Nat.ltb_spec Py.NDIGITS_MAX nd); [lia|reflexivity].
Qed.

Lemma round_zero x nd s : Prim2SF x = S754_zero s -> Py.round x nd = x.
Proof.
  intros H. unfold Py.round. rewrite H. destruct (Py.NDIGITS_MAX <? nd)%nat; reflexivity.
Qed.

Lemma round_infinity x nd s : Prim2SF x = S754_infinity s -> Py.round x nd = x.
Proof.
  intros H. unfold Py.round. rewrite H. destruct (Py.NDIGITS_MAX <? nd)%nat; reflexivity.
Qed.

(** The value of [round] on a finite number at or above zero. *)
Lemma round_nonneg_FV x nd :
  (nd <= Py.NDIGITS_MAX)%nat -> finite x -> (0 <= x)%float ->
  Prim2SF (Py.round x nd) <> S754_nan /\ FV (Py.round x nd) = round_value nd (FV x).
Proof.
  intros Hnd Fx H0.
  destruct (nonneg_cases x H0) as [[s Hz]|[(m & e & Hf)|Hi]].
  - rewrite (round_zero x nd s Hz). unfold FV. rewrite Hz. cbn [SV].
    rewrite round_value_0. split; [discriminate|reflexivity].
  - rewrite round_unfold by exact Hnd. rewrite Hf. cbv zeta.
    pose proof (Prim2SF_valid x) as Hv. rewrite Hf in Hv.
    rewrite (decimal_numerator_value false m e nd Hv).
    destruct (strtod_spec
                (div_half_even (Zpos m * 2 ^ (e + 1074) * Py.pow10 nd) (2 ^ 1074))
                (Py.pow10 nd)) as (Hn & HV).
    split; [exact Hn|]. rewrite HV. unfold round_value, FV. rewrite Hf. reflexivity.
  - apply is_finite_spec in Fx. rewrite Hi in Fx. destruct Fx.
Qed.

(** [round] is monotone on numbers at or above zero, and keeps them there. *)
Lemma round_le_mono x y nd :
  (0 <= x)%float -> (x <= y)%float ->
  (0 <= Py.round x nd)%float /\ (Py.round x nd <= Py.round y nd)%float.
Proof.
  intros H0 Hxy.
  destruct (Nat.ltb_spec Py.NDIGITS_MAX nd) as [Hbig|Hnd].
  { unfold Py.round. apply Nat.ltb_lt in Hbig. rewrite Hbig. auto. }
  assert (H0y : (0 <= y)%float) by exact (le_trans _ _ _ H0 Hxy).
  assert (Hx : Prim2SF (Py.round x nd) <> S754_nan /\ 0 <= FV (Py.round x nd)).
  { destruct (nonneg_cases x H0) as [[s Hz]|[(m & e & Hf)|Hi]].
    - rewrite (round_zero x nd s Hz). unfold FV. rewrite Hz. split; [discriminate|reflexivity].
    - assert (Fx : finite x) by (apply is_finite_spec; rewrite Hf; exact I).
      destruct (round_nonneg_FV x nd Hnd Fx H0) as (N & V). split; [exact N|].
      rewrite V. apply round_value_nonneg.
      apply leb_spec_FV in H0 as (_ & _ & H0). rewrite FV_0 in H0. exact H0.
    - rewrite (round_infinity x nd false Hi). unfold FV. rewrite Hi.
      split; [discriminate|]. cbn [SV]. pose proof inf_units_pos. lia. }
  destruct Hx as (Nx & Vx).
  split.
  { apply leb_spec_FV. repeat split; auto. discriminate. }
  destruct (nonneg_cases y H0y) as [[s Hz]|[(m & e & Hf)|Hi]].
  - assert (Fy : finite y) by (apply is_finite_spec; rewrite Hz; exact I).
    assert (Fx : finite x) by (eapply nonneg_le_finite; eauto).
    destruct (round_nonneg_FV x nd Hnd Fx H0) as (N1 & V1).
    destruct (round_nonneg_FV y nd Hnd Fy H0y) as (N2 & V2).
    apply leb_spec_FV. repeat split; auto. rewrite V1, V2.
    apply round_value_mono.
    apply leb_spec_FV in H0 as (_ & _ & H0). apply leb_spec_FV in Hxy as (_ & _ & Hxy).
    rewrite FV_0 in H0. lia.
  - assert (Fy : finite y) by (apply is_finite_spec; rewrite Hf; exact I).
    assert (Fx : finite x) by (eapply nonneg_le_finite; eauto).
    destruct (round_nonneg_FV x nd Hnd Fx H0) as (N1 & V1).
    destruct (round_nonneg_FV y nd Hnd Fy H0y) as (N2 & V2).
    apply leb_spec_FV. repeat split; auto. rewrite V1, V2.
    apply round_value_mono.
    apply leb_spec_FV in H0 as (_ & _ & H0). apply leb_spec_FV in Hxy as (_ & _ & Hxy).
    rewrite FV_0 in H0. lia.
  - rewrite (round_infinity y nd false Hi).
    apply leb_spec_FV. repeat split; auto.
    + rewrite Hi. discriminate.
    + unfold FV at 2. rewrite Hi. cbn [SV]. apply FV_bounds.
Qed.

(** [round] on some values whose results in CPython are known: 2.675 and
    1.005 lie below the decimal they print as, 0.125 and 0.375 are exact
    ties, which go to the even digit. *)
Example round_examples :
  (Py.round 2.675 2 = 2.67 /\ Py.round 1.005 2 = 1.0 /\
   Py.round 0.125 2 = 0.12 /\ Py.round 0.375 2 = 0.38 /\
   Py.round 2.5 0 = 2.0 /\ Py.round (-0.001) 2 = - 0 /\
   Py.round 1e22 2 = 1e22 /\ Py.round 5e-324 2 = 0 /\
   Py.round infinity 2 = infinity)%float.
Proof. by_evaluation. Qed.

End PythonRound.

(** * Signs, zeros and infinities *)

Section SignsZeros.

Local Open Scope Z_scope.

Lemma nonneg_not_nan x : (0 <= x)%float -> Prim2SF x <> S754_nan.
Proof. intros H. now apply leb_spec_FV in H as (_ & N & _). Qed.

Lemma nonneg_FV x : (0 <= x)%float -> 0 <= FV x.
Proof. intros H. apply leb_spec_FV in H as (_ & _ & H). now rewrite FV_0 in H. Qed.

Lemma nonneg_of_FV x : Prim2SF x <> S754_nan -> 0 <= FV x -> (0 <= x)%float.
Proof. intros N H. apply leb_spec_FV. repeat split; auto. discriminate. Qed.

Lemma finite_zero : finite 0.
Proof. reflexivity. Qed.

Lemma nonneg_finite_or_inf x :
  (0 <= x)%float -> finite x \/ Prim2SF x = S754_infinity false.
Proof.
  intros H. destruct (nonneg_cases x H) as [[s Hz]|[(m & e & Hf)|Hi]].
  - left. apply is_finite_spec. rewrite Hz. exact I.
  - left. apply is_finite_spec. rewrite Hf. exact I.
  - now right.
Qed.

Lemma FV_infinity x : Prim2SF x = S754_infinity false -> FV x = inf_units.
Proof. intros H. unfold FV. rewrite H. reflexivity. Qed.

(** ** Sums of non-negative numbers *)

Lemma add_infinity_l x y :
  Prim2SF x = S754_infinity false -> (0 <= y)%float ->
  Prim2SF (x + y) = S754_infinity false.
Proof.
  intros Hx Hy. rewrite add_spec, Hx.
  destruct (nonneg_cases y Hy) as [[s Hz]|[(m & e & Hf)|Hi]].
  - rewrite Hz. reflexivity.
  - rewrite Hf. reflexivity.
  - rewrite Hi. reflexivity.
Qed.

Lemma add_infinity_r x y :
  (0 <= x)%float -> Prim2SF y = S754_infinity false ->
  Prim2SF (x + y) = S754_infinity false.
Proof.
  intros Hx Hy. rewrite add_spec, Hy.
  destruct (nonneg_cases x Hx) as [[s Hz]|[(m & e & Hf)|Hi]].
  - rewrite Hz. reflexivity.
  - rewrite Hf. reflexivity.
  - rewrite Hi. reflexivity.
Qed.

(** Sums of numbers at or above zero stay there, infinities included. *)
Lemma add_nonneg x y : (0 <= x)%float -> (0 <= y)%float -> (0 <= x + y)%float.
Proof.
  intros Hx Hy. pose proof inf_units_pos.
  destruct (nonneg_finite_or_inf x Hx) as [Fx|Ix].
  - destruct (nonneg_finite_or_inf y Hy) as [Fy|Iy].
    + destruct (add_finite x y Fx Fy) as (N & V).
      apply nonneg_of_FV; [exact N|]. rewrite V. apply round_signed_nonneg.
      apply nonneg_FV in Hx, Hy.
      apply Z.mul_nonneg_nonneg; [lia|apply Z.pow_nonneg; lia].
    + pose proof (add_infinity_r x y Hx Iy) as E.
      apply nonneg_of_FV; [rewrite E; discriminate|]. rewrite (FV_infinity _ E). lia.
  - pose proof (add_infinity_l x y Ix Hy) as E.
    apply nonneg_of_FV; [rewrite E; discriminate|]. rewrite (FV_infinity _ E). lia.
Qed.

Lemma le_infinity x y :
  Prim2SF x <> S754_nan -> Prim2SF y = S754_infinity false -> (x <= y)%float.
Proof.
  intros N E. apply leb_spec_FV. repeat split; auto.
  - rewrite E. discriminate.
  - rewrite (FV_infinity _ E). apply FV_bounds.
Qed.

(** Addition is monotone on numbers at or above zero. *)
Lemma add_le_mono a b c d :
  (0 <= a)%float -> (a <= b)%float -> (0 <= c)%float -> (c <= d)%float ->
  (a + c <= b + d)%float.
Proof.
  intros H0a Hab H0c Hcd.
  assert (H0b : (0 <= b)%float) by exact (le_trans _ _ _ H0a Hab).
  assert (H0d : (0 <= d)%float) by exact (le_trans _ _ _ H0c Hcd).
  pose proof (nonneg_not_nan _ (add_nonneg a c H0a H0c)) as Nac.
  destruct (nonneg_finite_or_inf b H0b) as [Fb|Ib].
  - destruct (nonneg_finite_or_inf d H0d) as [Fd|Id].
    + assert (Fa : finite a) by (eapply nonneg_le_finite; eauto).
      assert (Fc : finite c) by (eapply nonneg_le_finite; eauto).
      destruct (add_finite a c Fa Fc) as (N1 & V1).
      destruct (add_finite b d Fb Fd) as (N2 & V2).
      apply leb_spec_FV. repeat split; auto. rewrite V1, V2.
      apply round_signed_mono.
      apply leb_spec_FV in Hab as (_ & _ & Hab). apply leb_spec_FV in Hcd as (_ & _ & Hcd).
      apply Z.mul_le_mono_nonneg_r; [apply Z.pow_nonneg|]; lia.
    + apply le_infinity; [exact Nac|]. now apply add_infinity_r.
  - apply le_infinity; [exact Nac|]. now apply add_infinity_l.
Qed.

(** ** Products *)

Lemma pos_cases x :
  (0 < x)%float ->
  (exists m e, Prim2SF x = S754_finite false m e) \/ Prim2SF x = S754_infinity false.
Proof.
  intros H. pose proof (lt_le _ _ H) as H'.
  apply ltb_spec_FV in H as (_ & _ & H). rewrite FV_0 in H.
  destruct (nonneg_cases x H') as [[s Hz]|[Hf|Hi]]; auto.
  unfold FV in H. rewrite Hz in H. cbn [SV] in H. lia.
Qed.

Lemma pos_sign_of_lt x : (0 < x)%float -> pos_sign x.
Proof.
  intros H. unfold pos_sign.
  destruct (pos_cases x H) as [(m & e & ->)| ->]; reflexivity.
Qed.

Lemma mul_pos_sign x y :
  finite x -> finite y -> pos_sign x -> pos_sign y -> pos_sign (x * y).
Proof.
  intros Fx Fy Sx Sy. destruct (mul_finite x y Fx Fy) as (_ & Hs & _).
  unfold pos_sign in *.
  rewrite (has_sign_SFsign _ _ Sx), (has_sign_SFsign _ _ Sy) in Hs. exact Hs.
Qed.

(** A number at or above zero times a positive finite number. *)
Lemma mul_nonneg_pos x y :
  (0 <= x)%float -> finite y -> (0 < y)%float -> (0 <= x * y)%float.
Proof.
  intros Hx Fy Hy. pose proof inf_units_pos.
  destruct (nonneg_finite_or_inf x Hx) as [Fx|Ix].
  - destruct (mul_finite x y Fx Fy) as (N & _ & V).
    apply nonneg_of_FV; [exact N|]. rewrite V. apply round_signed_nonneg.
    apply nonneg_FV in Hx. apply lt_le, nonneg_FV in Hy. nia.
  - destruct (pos_cases y Hy) as [(m & e & Ey)|Ey].
    + assert (E : Prim2SF (x * y) = S754_infinity false)
        by (rewrite mul_spec, Ix, Ey; reflexivity).
      apply nonneg_of_FV; [rewrite E; discriminate|]. rewrite (FV_infinity _ E). lia.
    + apply is_finite_spec in Fy. rewrite Ey in Fy. destruct Fy.
Qed.

Lemma mul_nonneg a c :
  finite a -> finite c -> (0 <= a)%float -> (0 <= c)%float -> (0 <= a * c)%float.
Proof.
  intros Fa Fc Ha Hc.
  apply (mul_le_mono a a c c Fa Fc Ha (le_refl a (finite_not_nan a Fa))
           Hc (le_refl c (finite_not_nan c Fc))).
Qed.

(** ** Zeros *)

(** Comparing equal to zero is being one of the two zeros. *)
Lemma zero_float_spec x : (x =? 0)%float = true <-> zero_float x.
Proof.
  rewrite eqb_spec_FV, FV_0. unfold zero_float, FV.
  pose proof (Prim2SF_valid x) as Hv. pose proof inf_units_pos.
  split.
  - intros (N & _ & H0). destruct (Prim2SF x) as [s|s| |s m e]; try congruence.
    + eauto.
    + cbn [SV] in H0. destruct s; lia.
    + pose proof (SV_finite_bounds s m e Hv). cbn [SV] in H0. cbv zeta in H0.
      destruct s; lia.
  - intros [s ->]. repeat split; discriminate.
Qed.

Lemma zero_float_finite x : zero_float x -> finite x.
Proof. intros [s H]. apply is_finite_spec. rewrite H. exact I. Qed.

Lemma zero_mul_l x y : zero_float x -> finite y -> zero_float (x * y).
Proof.
  intros [s Hx] Fy. apply is_finite_spec in Fy. unfold zero_float.
  rewrite mul_spec, Hx.
  destruct (Prim2SF y) as [sy|sy| |sy my ey]; cbn [is_fin] in Fy; try tauto;
    eexists; reflexivity.
Qed.

Lemma mul_zero_r x y : finite x -> zero_float y -> zero_float (x * y).
Proof.
  intros Fx [s Hy]. apply is_finite_spec in Fx. unfold zero_float.
  rewrite mul_spec, Hy.
  destruct (Prim2SF x) as [sx|sx| |sx mx ex]; cbn [is_fin] in Fx; try tauto;
    eexists; reflexivity.
Qed.

Lemma zero_add x y : zero_float x -> zero_float y -> zero_float (x + y).
Proof.
  intros [sx Hx] [sy Hy]. unfold zero_float. rewrite add_spec, Hx, Hy.
  destruct sx, sy; eexists; reflexivity.
Qed.

(** Adding a zero to a number with a clear sign bit gives that number back,
    bit for bit. *)
Lemma add_zero_r x z : pos_sign x -> zero_float z -> (x + z)%float = x.
Proof.
  intros Sx [s Hz]. apply Prim2SF_inj. rewrite add_spec, Hz.
  unfold pos_sign in Sx.
  destruct (Prim2SF x) as [sx|sx| |sx mx ex]; cbn [has_sign] in Sx; try tauto; subst sx;
    try reflexivity.
  destruct s; reflexivity.
Qed.

Lemma round_zero_float x nd : zero_float x -> Py.round x nd = x.
Proof. intros [s H]. eapply round_zero; eauto. Qed.

Lemma zero_float_0 : zero_float 0.
Proof. exists false. reflexivity. Qed.

(** ** [max(0.0, d)] *)

Lemma max_0_nonneg d : (0 <= Py.max 0 d)%float.
Proof.
  unfold Py.max. destruct (0 <? d)%float eqn:E.
  - now apply lt_le.
  - reflexivity.
Qed.

Lemma max_0_finite d : finite d -> finite (Py.max 0 d).
Proof.
  intros H. unfold Py.max. destruct (0 <? d)%float; [exact H|reflexivity].
Qed.

Lemma max_0_mono d1 d2 : (d1 <= d2)%float -> (Py.max 0 d1 <= Py.max 0 d2)%float.
Proof.
  intros H. unfold Py.max.
  destruct (0 <? d1)%float eqn:E1; destruct (0 <? d2)%float eqn:E2.
  - exact H.
  - apply leb_spec_FV in H as (N1 & N2 & H).
    apply ltb_spec_FV in E1 as (_ & _ & E1).
    apply ltb_false_FV in E2; [|discriminate|exact N2]. lia.
  - now apply lt_le.
  - reflexivity.
Qed.

(** [max(0.0, d)] is [0.0] itself when [d] is not above zero. *)
Lemma max_0_of_le d : Prim2SF d <> S754_nan -> FV d <= 0 -> Py.max 0 d = 0%float.
Proof.
  intros N H. unfold Py.max. destruct (0 <? d)%float eqn:E; [|reflexivity].
  apply ltb_spec_FV in E as (_ & _ & E). rewrite FV_0 in E. lia.
Qed.

(** ** Symmetry under negation *)

(** The rounding of the format does not look at the sign. *)
Lemma binary_round_aux_opp s m e l :
  binary_round_aux prec emax (negb s) m e l =
  SFopp (binary_round_aux prec emax s m e l).
Proof.
  unfold binary_round_aux.
  destruct (shr_fexp prec emax m e l) as [mrs' e'].
  destruct (shr_fexp prec emax _ e' loc_Exact) as [mrs'' e''].
  destruct (shr_m mrs''); [reflexivity| |reflexivity].
  destruct (e'' <=? emax - prec); reflexivity.
Qed.

Lemma binary_round_opp s m e :
  binary_round prec emax (negb s) m e = SFopp (binary_round prec emax s m e).
Proof.
  unfold binary_round. destruct (shl_align m e _) as [mz ez].
  apply binary_round_aux_opp.
Qed.

Lemma binary_normalize_opp S e :
  S <> 0 ->
  binary_normalize prec emax (- S) e false =
  SFopp (binary_normalize prec emax S e false).
Proof.
  intros HS. destruct S as [|p|p]; [congruence| |]; cbn [Z.opp binary_normalize].
  - apply (binary_round_opp false).
  - apply (binary_round_opp true).
Qed.

(** Swapping the operands of a difference negates it, unless it is the
    positive zero both ways. *)
Lemma SFsub_swap x y :
  SF64sub y x = SFopp (SF64sub x y) \/
  (SF64sub x y = S754_zero false /\ SF64sub y x = S754_zero false).
Proof.
  destruct x as [sx|sx| |sx mx ex]; destruct y as [sy|sy| |sy my ey];
    unfold SF64sub, SFsub; try (left; reflexivity);
    try (destruct sx, sy; (left; reflexivity) || (right; split; reflexivity)).
  rewrite (Z.min_comm ey ex).
  set (ez := Z.min ex ey).
  set (a := cond_Zopp sx (Zpos (fst (shl_align mx ex ez)))).
  set (b := cond_Zopp sy (Zpos (fst (shl_align my ey ez)))).
  destruct (Z.eq_dec (a - b) 0) as [E|N].
  - right. replace (b - a) with 0 by lia. rewrite E. split; reflexivity.
  - left. replace (b - a) with (- (a - b)) by lia.
    now apply binary_normalize_opp.
Qed.

Lemma opp_involutive x : (- - x)%float = x.
Proof.
  apply Prim2SF_inj. rewrite !opp_spec.
  destruct (Prim2SF x); cbn [SFopp]; rewrite ?negb_involutive; reflexivity.
Qed.

Lemma sub_swap x y :
  (y - x)%float = (- (x - y))%float \/ ((x - y)%float = 0%float /\ (y - x)%float = 0%float).
Proof.
  destruct (SFsub_swap (Prim2SF x) (Prim2SF y)) as [H|[H1 H2]].
  - left. apply Prim2SF_inj. rewrite opp_spec, !sub_spec. exact H.
  - right. split; apply Prim2SF_inj; rewrite sub_spec; assumption.
Qed.

(** [round] commutes with negation. *)
Lemma round_opp x nd : Py.round (- x) nd = (- Py.round x nd)%float.
Proof.
  unfold Py.round. destruct (Py.NDIGITS_MAX <? nd)%nat; [reflexivity|].
  rewrite opp_spec.
  destruct (Prim2SF x) as [s|s| |s m e]; cbn [SFopp]; try reflexivity.
  destruct s; cbn [negb]; cbv zeta; [|reflexivity].
  symmetry. apply opp_involutive.
Qed.

(** ** Commutativity of addition and the unit of multiplication *)

Lemma SFadd_comm x y : SF64add x y = SF64add y x.
Proof.
  destruct x as [sx|sx| |sx mx ex]; destruct y as [sy|sy| |sy my ey];
    unfold SF64add, SFadd; try reflexivity;
    try (destruct sx, sy; reflexivity).
  rewrite (Z.min_comm ey ex), Z.add_comm. reflexivity.
Qed.

Lemma add_comm x y : (x + y)%float = (y + x)%float.
Proof. apply Prim2SF_inj. rewrite !add_spec. apply SFadd_comm. Qed.

(** Valid numbers of equal sign and value are equal. *)
Lemma spec_float_eq x y :
  valid_binary x = true -> valid_binary y = true ->
  x <> S754_nan -> y <> S754_nan ->
  SFsign x = SFsign y -> SV x = SV y -> x = y.
Proof.
  intros Hx Hy Nx Ny Hs HV. pose proof inf_units_pos.
  destruct x as [sx|sx| |sx mx ex]; try congruence;
    destruct y as [sy|sy| |sy my ey]; try congruence;
    cbn [SFsign] in Hs; subst sy;
    try pose proof (SV_finite_bounds _ _ _ Hx) as Bx;
    try pose proof (SV_finite_bounds _ _ _ Hy) as By;
    cbn [SV] in HV; cbv zeta in HV; try reflexivity;
    try (destruct sx; lia).
  assert (Hx' : valid_binary (S754_finite false mx ex) = true) by exact Hx.
  assert (Hy' : valid_binary (S754_finite false my ey) = true) by exact Hy.
  pose proof (finite_compare mx ex my ey Hx' Hy') as HC.
  assert (E : Zpos mx * 2 ^ (ex + 1074) = Zpos my * 2 ^ (ey + 1074)) by (destruct sx; lia).
  rewrite E, Z.compare_refl in HC.
  destruct (Z.compare_spec ex ey) as [Ee|?|?]; try discriminate.
  apply Pos.compare_eq in HC. congruence.
Qed.

(** One is a right unit of the product of finite numbers. *)
Lemma mul_1_r x : finite x -> (x * 1)%float = x.
Proof.
  intros Fx. apply Prim2SF_inj.
  assert (F1 : finite 1) by reflexivity.
  destruct (mul_finite x 1 Fx F1) as (N & Hs & V).
  change (SFsign (Prim2SF 1)) with false in Hs. rewrite xorb_false_r in Hs.
  apply spec_float_eq; auto using Prim2SF_valid.
  - now apply finite_not_nan.
  - now apply has_sign_SFsign.
  - fold (FV (x * 1)) (FV x). rewrite V.
    change (FV 1) with (2 ^ 1074).
    apply round_signed_fix; [apply Prim2SF_valid|now apply is_finite_spec].
Qed.

End SignsZeros.

(** * The error of one rounding *)

Section RoundingError.

Local Open Scope Z_scope.

(** ** The error of one rounding *)

(** Rounding to an integer moves by at most half a unit. *)
Lemma div_half_even_error a b :
  0 < b -> 2 * Z.abs (div_half_even a b * b - a) <= b.
Proof.
  intros Hb. unfold div_half_even.
  pose proof (Z.div_mod a b ltac:(lia)) as E.
  pose proof (Z.mod_pos_bound a b Hb) as B.
  set (q := a / b) in *. set (r := a mod b) in *.
  destruct (Z.compare_spec (2 * r) b); [destruct (Z.even q)|..]; nia.
Qed.

(** One rounding moves a value by at most [2^-53] of it, or by half the
    smallest subnormal. *)
Lemma round_units_error u :
  0 <= u -> 2 ^ 53 * Z.abs (round_units u - u) <= u + 2 ^ 1126.
Proof.
  intros Hu. unfold round_units.
  set (E := ulp_exp u).
  assert (HE : 1074 <= E) by (unfold E, ulp_exp; lia).
  assert (HP : 0 < 2 ^ E) by (apply pow2_pos; lia).
  pose proof (div_half_even_error u (2 ^ E) HP) as HD.
  assert (HB : 2 ^ 52 * 2 ^ E <= u + 2 ^ 1126).
  { rewrite <- pow2_split by lia.
    destruct (Z.eq_dec E 1074) as [->|NE].
    - change (52 + 1074) with 1126. lia.
    - assert (E = Z.log2 u - 52) by (unfold E, ulp_exp in *; lia).
      assert (0 < u).
      { destruct (Z.eq_dec u 0) as [->|]; [|lia]. unfold E, ulp_exp in NE. simpl in NE. lia. }
      replace (52 + E) with (Z.log2 u) by lia.
      pose proof (Z.log2_spec u ltac:(lia)).
      assert (0 < 2 ^ 1126) by (apply pow2_pos; lia). lia. }
  change (2 ^ 53) with (2 ^ 52 * 2).
  set (d := Z.abs (div_half_even u (2 ^ E) * 2 ^ E - u)) in *.
  assert (0 <= 2 ^ 52) by lia. nia.
Qed.

(** A rounded value is a binary64 value. *)
Lemma round_units_multiple u :
  0 <= u -> round_units u / 2 ^ 1074 * 2 ^ 1074 = round_units u.
Proof.
  intros Hu. unfold round_units.
  set (E := ulp_exp u).
  assert (HE : 1074 <= E) by (unfold E, ulp_exp; lia).
  replace (2 ^ E) with (2 ^ (E - 1074) * 2 ^ 1074)
    by (rewrite <- pow2_split by lia; f_equal; lia).
  rewrite Z.mul_assoc, Z.div_mul by (apply Z.pow_nonzero; lia). reflexivity.
Qed.

(** A finite result of an operation on non-negative numbers is the plain
    rounding of the exact result. *)
Lemma round_signed_finite u :
  0 <= u -> round_signed u < inf_units ->
  round_signed u * 2 ^ 1074 = round_units u.
Proof.
  intros Hu Hlt. rewrite round_signed_pos_eq in * by lia.
  rewrite Z.min_l by lia. now apply round_units_multiple.
Qed.

End RoundingError.

(** * The quantities of the calculator *)

#[local] Hint Resolve lt_le le_refl finite_not_nan nonneg_not_nan
  add_nonneg mul_nonneg max_0_nonneg pos_sign_of_lt finite_zero : float_facts.

(** ** Bounds and exact roundings *)

Section Bounds.

(** A finite number lies between the two largest finite numbers. *)
Lemma finite_le_max x : finite x -> x <= MAX_FLOAT /\ - MAX_FLOAT <= x.
Proof.
  intros Fx. pose proof (finite_not_nan x Fx) as N.
  assert (B : (- (9007199254740991 * 2 ^ 2045) <= FV x <= 9007199254740991 * 2 ^ 2045)%Z).
  { unfold FV. pose proof (Prim2SF_valid x) as Hv. apply is_finite_spec in Fx.
    destruct (Prim2SF x) as [s|s| |s m e]; cbn [is_fin] in Fx; try tauto.
    - cbn [SV]. lia.
    - apply valid_finite in Hv as (He & Hm & _).
      assert (0 < 2 ^ (e + 1074))%Z by (apply pow2_pos; lia).
      assert (2 ^ (e + 1074) <= 2 ^ 2045)%Z by (apply Z.pow_le_mono_r; lia).
      assert (Zpos m * 2 ^ (e + 1074) <= 9007199254740991 * 2 ^ 2045)%Z.
      { apply Z.mul_le_mono_nonneg; lia. }
      cbn [SV]. cbv zeta. destruct s; lia. }
  split; apply leb_spec_FV; repeat split; auto; try discriminate.
  - change (FV MAX_FLOAT) with (9007199254740991 * 2 ^ 2045)%Z. lia.
  - change (FV (- MAX_FLOAT)) with (- (9007199254740991 * 2 ^ 2045))%Z. lia.
Qed.

(** A product of non-negative numbers below finite bounds whose product
    is finite. *)
Lemma mul_bounded a b c d :
  finite b -> finite d -> finite (b * d) ->
  0 <= a -> a <= b -> 0 <= c -> c <= d ->
  finite (a * c) /\ 0 <= a * c /\ a * c <= b * d.
Proof.
  intros Fb Fd Fbd H0a Hab H0c Hcd.
  destruct (mul_le_mono a b c d Fb Fd H0a Hab H0c Hcd) as [H0 Hle].
  split; [|split]; auto. eapply nonneg_le_finite; eauto.
Qed.

Lemma round_nonneg x nd : 0 <= x -> 0 <= Py.round x nd.
Proof.
  intros H. apply (round_le_mono x x nd H). auto with float_facts.
Qed.

(** A finite sum of non-negative numbers has finite terms. *)
Lemma add_finite_inv x y :
  0 <= x -> 0 <= y -> finite (x + y) -> finite x /\ finite y.
Proof.
  intros Hx Hy F.
  destruct (nonneg_finite_or_inf x Hx) as [Fx|Ix].
  - destruct (nonneg_finite_or_inf y Hy) as [Fy|Iy]; [auto|].
    apply is_finite_spec in F. rewrite (add_infinity_r x y Hx Iy) in F. destruct F.
  - apply is_finite_spec in F. rewrite (add_infinity_l x y Ix Hy) in F. destruct F.
Qed.

(** A finite product or sum of non-negative numbers is the plain rounding
    of the exact result. *)
Lemma mul_exact_rounding x y :
  finite x -> finite y -> 0 <= x -> 0 <= y -> finite (x * y) ->
  (FV (x * y) * 2 ^ 1074 = round_units (FV x * FV y))%Z.
Proof.
  intros Fx Fy Hx Hy F.
  destruct (mul_finite x y Fx Fy) as (_ & _ & V).
  apply finite_FV in F. apply nonneg_FV in Hx, Hy.
  rewrite V in *. apply round_signed_finite; [nia|lia].
Qed.

Lemma add_exact_rounding x y :
  finite x -> finite y -> 0 <= x -> 0 <= y -> finite (x + y) ->
  (FV (x + y) * 2 ^ 1074 = round_units (FV x * 2 ^ 1074 + FV y * 2 ^ 1074))%Z.
Proof.
  intros Fx Fy Hx Hy F.
  destruct (add_finite x y Fx Fy) as (_ & V).
  apply finite_FV in F. apply nonneg_FV in Hx, Hy.
  rewrite V in *. rewrite <- Z.mul_add_distr_r.
  assert (0 <= 2 ^ 1074)%Z by (apply Z.pow_nonneg; lia).
  apply round_signed_finite; [nia|lia].
Qed.

(** Swapping the operands of a rounded difference negates it. *)
Lemma round_sub_swap a b nd :
  negation_of (Py.round (b - a) nd) (Py.round (a - b) nd).
Proof.
  destruct (sub_swap a b) as [H|[H1 H2]].
  - left. rewrite H. apply round_opp.
  - right. rewrite H1, H2.
    rewrite (round_zero_float 0 nd zero_float_0). reflexivity.
Qed.

End Bounds.

(** ** The height above the doors *)

Section HeightAboveDoor.

Variable h : float.
Hypothesis h_finite : finite h.

(** The difference to the clear height of the doors cannot overflow. *)
Lemma height_diff_finite : finite (h - DOOR_HEIGHT_STANDARD).
Proof.
  destruct (finite_le_max h h_finite) as [Hu Hl].
  assert (FM : finite MAX_FLOAT) by reflexivity.
  assert (FM' : finite (- MAX_FLOAT)) by reflexivity.
  assert (Fd : finite DOOR_HEIGHT_STANDARD) by reflexivity.
  pose proof (sub_le_mono h MAX_FLOAT DOOR_HEIGHT_STANDARD h_finite FM Fd Hu) as H1.
  pose proof (sub_le_mono (- MAX_FLOAT) h DOOR_HEIGHT_STANDARD FM' h_finite Fd Hl) as H2.
  apply (finite_between (- MAX_FLOAT - DOOR_HEIGHT_STANDARD) _
           (MAX_FLOAT - DOOR_HEIGHT_STANDARD)); auto; reflexivity.
Qed.

Lemma height_above_door_facts :
  finite (height_above_door h) /\ 0 <= height_above_door h.
Proof.
  unfold height_above_door. split.
  - apply max_0_finite, height_diff_finite.
  - apply max_0_nonneg.
Qed.

End HeightAboveDoor.

Lemma height_above_door_mono h1 h2 :
  finite h1 -> finite h2 -> h1 <= h2 ->
  height_above_door h1 <= height_above_door h2.
Proof.
  intros F1 F2 H. apply max_0_mono, sub_le_mono; auto. reflexivity.
Qed.

(** At or below the clear height of the doors nothing is above them. *)
Lemma height_above_door_low h :
  0 < h -> h <= DOOR_HEIGHT_STANDARD -> height_above_door h = 0.
Proof.
  intros Ph Hle.
  assert (Fh : finite h).
  { apply (finite_between 0 h DOOR_HEIGHT_STANDARD); try reflexivity;
      auto with float_facts. }
  assert (Fd : finite DOOR_HEIGHT_STANDARD) by reflexivity.
  destruct (sub_finite h DOOR_HEIGHT_STANDARD Fh Fd) as (N & V).
  apply max_0_of_le; [exact N|].
  rewrite V. apply leb_spec_FV in Hle as (_ & _ & Hle).
  change 0%Z with (round_signed 0). apply round_signed_mono.
  assert (0 <= 2 ^ 1074)%Z by (apply Z.pow_nonneg; lia). nia.
Qed.

(** ** The unrounded quantities under the input contract

    A finite floor area above zero and door-mix shares in [[0, 1]]. *)

Section InputContract.

Variables pum p q : float.
Hypothesis pum_finite : finite pum.
Hypothesis pum_pos : 0 < pum.
Hypothesis p_lo : 0 <= p.
Hypothesis p_hi : p <= 1.
Hypothesis q_lo : 0 <= q.
Hypothesis q_hi : q <= 1.

(** [pum * c] for a density coefficient [0 < c <= 1]. *)
Lemma density_facts c :
  0 < c -> c <= 1 ->
  finite (pum * c) /\ 0 <= pum * c /\ pos_sign (pum * c) /\
  pum * c <= MAX_FLOAT * c.
Proof.
  intros Pc Hc.
  assert (Fc : finite c).
  { apply (finite_between 0 c 1); try reflexivity; auto with float_facts. }
  destruct (finite_le_max pum pum_finite) as [Hmax _].
  destruct (mul_bounded pum MAX_FLOAT c 1) as (F & H0 & _);
    try reflexivity; auto with float_facts.
  destruct (mul_le_mono pum MAX_FLOAT c c) as (_ & Hle);
    try reflexivity; auto with float_facts.
  repeat split; auto.
  apply mul_pos_sign; auto with float_facts.
Qed.

(** The average door width lies between 0 and 1.75. *)
Lemma avg_door_width_facts :
  finite (_avg_door_width p q) /\ 0 <= _avg_door_width p q /\
  _avg_door_width p q <= 1.75.
Proof.
  unfold _avg_door_width.
  destruct (mul_bounded p 1 0.75 0.75) as (F1 & N1 & L1); try reflexivity; auto.
  destruct (mul_bounded q 1 1.0 1.0) as (F2 & N2 & L2); try reflexivity; auto.
  pose proof (add_nonneg _ _ N1 N2) as N.
  pose proof (add_le_mono _ _ _ _ N1 L1 N2 L2) as L.
  change (1 * 0.75 + 1 * 1.0) with 1.75 in L.
  split; [|split]; auto.
  apply (nonneg_le_finite _ 1.75); auto. reflexivity.
Qed.

(** The width of wall above the doors, [pum * 0.30 * avg_width]. *)
Lemma lintel_length_facts :
  finite (pum * COEFF_DOOR_DENSITY * _avg_door_width p q) /\
  0 <= pum * COEFF_DOOR_DENSITY * _avg_door_width p q.
Proof.
  destruct (density_facts COEFF_DOOR_DENSITY) as (F & N & _ & L);
    try reflexivity.
  destruct avg_door_width_facts as (Fa & Na & La).
  destruct (mul_bounded (pum * COEFF_DOOR_DENSITY) (MAX_FLOAT * COEFF_DOOR_DENSITY)
              (_avg_door_width p q) 1.75)
    as (F' & N' & _); try reflexivity; auto.
Qed.

Lemma white_part_lintels_nonneg h :
  finite h -> 0 <= white_part_lintels pum h p q.
Proof.
  intros Fh. unfold white_part_lintels.
  destruct lintel_length_facts as (F & N).
  destruct (height_above_door_facts h Fh) as (Fa & Na).
  auto with float_facts.
Qed.

Lemma white_part_lower_nonneg h :
  finite h -> 0 < h ->
  0 <= white_part_lower pum h /\ pos_sign (white_part_lower pum h).
Proof.
  intros Fh Ph. unfold white_part_lower.
  destruct (density_facts COEFF_KICKER_LIN) as (F & N & S & _);
    try reflexivity.
  split.
  - auto with float_facts.
  - apply mul_pos_sign; auto with float_facts.
Qed.

Lemma gray_area_nonneg h : finite h -> 0 < h -> 0 <= gray_area pum h.
Proof.
  intros Fh Ph. unfold gray_area.
  destruct (density_facts COEFF_GRAY_LIN) as (F & N & S & _);
    try reflexivity.
  auto with float_facts.
Qed.

Lemma white_area_nonneg h : finite h -> 0 < h -> 0 <= white_area pum h p q.
Proof.
  intros Fh Ph. unfold white_area. apply add_nonneg.
  - now apply white_part_lower_nonneg.
  - now apply white_part_lintels_nonneg.
Qed.

Lemma door_cost_nonneg :
  0 <= _door_cost default_calculator (_door_count pum) p q.
Proof.
  unfold _door_cost, _door_count. cbv zeta.
  cbn [price_door_075m price_door_1m default_calculator].
  destruct (density_facts COEFF_DOOR_DENSITY) as (F & N & _ & L);
    try reflexivity.
  destruct (mul_bounded (pum * COEFF_DOOR_DENSITY) (MAX_FLOAT * COEFF_DOOR_DENSITY) p 1)
    as (F1 & N1 & _); try reflexivity; auto.
  destruct (mul_bounded (pum * COEFF_DOOR_DENSITY) (MAX_FLOAT * COEFF_DOOR_DENSITY) q 1)
    as (F2 & N2 & _); try reflexivity; auto.
  apply add_nonneg; apply mul_nonneg_pos; auto; reflexivity.
Qed.

End InputContract.

(** ** The report *)

(** The report of [calculate], field by field, over the unrounded
    quantities. *)
Lemma calculate_fields self pum h p q :
  calculate self pum h p q =
  {| gray_area_m2 := Py.round (gray_area pum h) 2;
     white_area_m2 := Py.round (white_area pum h p q) 2;
     kicker_length_mb := Py.round (pum * COEFF_KICKER_LIN) 2;
     door_count := Py.round (_door_count pum) 1;
     avg_door_width_m := Py.round (_avg_door_width p q) 3;
     cost_gray_pln := Py.round (gray_area pum h * price_gray self) 2;
     cost_white_pln := Py.round (white_area pum h p q * price_white self) 2;
     cost_kicker_pln := Py.round (pum * COEFF_KICKER_LIN * price_kicker self) 2;
     cost_doors_pln := Py.round (_door_cost self (_door_count pum) p q) 2;
     cost_total_pln :=
       Py.round (gray_area pum h * price_gray self
                 + white_area pum h p q * price_white self
                 + pum * COEFF_KICKER_LIN * price_kicker self
                 + _door_cost self (_door_count pum) p q) 2 |}.
Proof. reflexivity. Qed.

(** With equal door prices the two terms of [_door_cost] trade places. *)
Lemma door_cost_symmetric n p q :
  _door_cost default_calculator n p q = _door_cost default_calculator n q p.
Proof.
  unfold _door_cost. cbv zeta.
  cbn [price_door_075m price_door_1m default_calculator].
  unfold PRICE_DOOR_075M, PRICE_DOOR_1M. apply add_comm.
Qed.

(** * Order, signs and roundings, continued *)

(** ** Sums, differences and products in order *)

Section OrderFacts.

(** A product with a positive finite factor is monotone in the other
    factor, the positive infinity included. *)
Lemma mul_le_mono_pos_r a b c :
  0 <= a -> a <= b -> finite c -> 0 < c -> a * c <= b * c.
Proof.
  intros H0a Hab Fc Pc.
  assert (H0b : 0 <= b) by exact (le_trans _ _ _ H0a Hab).
  destruct (nonneg_finite_or_inf b H0b) as [Fb|Ib].
  - destruct (mul_le_mono a b c c) as [_ H]; auto with float_facts.
  - apply le_infinity.
    + apply nonneg_not_nan. now apply mul_nonneg_pos.
    + destruct (pos_cases c Pc) as [(m & e & Ec)|Ec].
      * rewrite mul_spec, Ib, Ec. reflexivity.
      * apply is_finite_spec in Fc. rewrite Ec in Fc. destruct Fc.
Qed.

(** A sum is at least its first term, and at least its second. *)
Lemma le_add_r a b : 0 <= a -> 0 <= b -> a <= a + b.
Proof.
  intros Ha Hb.
  pose proof (add_nonneg a b Ha Hb) as Hab.
  destruct (nonneg_finite_or_inf a Ha) as [Fa|Ia].
  - destruct (nonneg_finite_or_inf b Hb) as [Fb|Ib].
    + destruct (add_finite a b Fa Fb) as (N & V).
      apply leb_spec_FV. repeat split; auto with float_facts.
      rewrite V.
      rewrite <- (round_signed_fix (Prim2SF a)) at 1;
        [|apply Prim2SF_valid|now apply is_finite_spec].
      apply round_signed_mono. fold (FV a).
      apply nonneg_FV in Hb.
      assert (0 <= 2 ^ 1074)%Z by (apply Z.pow_nonneg; lia). nia.
    + apply le_infinity; [auto with float_facts|now apply add_infinity_r].
  - apply le_infinity; [auto with float_facts|now apply add_infinity_l].
Qed.

Lemma le_add_l a b : 0 <= a -> 0 <= b -> b <= a + b.
Proof. intros Ha Hb. rewrite add_comm. now apply le_add_r. Qed.

(** The difference of two finite numbers in order is at or above zero. *)
Lemma sub_nonneg a b : finite a -> finite b -> b <= a -> 0 <= a - b.
Proof.
  intros Fa Fb Hba. destruct (sub_finite a b Fa Fb) as (N & V).
  apply nonneg_of_FV; [exact N|]. rewrite V.
  apply round_signed_nonneg. apply leb_spec_FV in Hba as (_ & _ & Hba).
  assert (0 <= 2 ^ 1074)%Z by (apply Z.pow_nonneg; lia). nia.
Qed.

(** A finite number minus itself is the positive zero. *)
Lemma sub_diag x : finite x -> x - x = 0.
Proof.
  intros Fx. apply Prim2SF_inj. rewrite sub_spec.
  apply is_finite_spec in Fx.
  destruct (Prim2SF x) as [s|s| |s m e]; cbn [is_fin] in Fx; try tauto.
  - destruct s; reflexivity.
  - unfold SF64sub, SFsub. rewrite Z.sub_diag. reflexivity.
Qed.

End OrderFacts.

Lemma lt_le_trans x y z : x < y -> y <= z -> x < z.
Proof.
  rewrite !ltb_spec_FV, leb_spec_FV. intros (? & ? & ?) (? & ? & ?).
  repeat split; auto; lia.
Qed.

(** ** Costs follow quantities *)

Section CostOrder.

Variable self : SelfStorageCostCalculator.
Hypothesis prices : positive_prices self.

(** With positive prices the door cost is at or above zero for a finite
    door count at or above zero, and monotone in the door count. *)
Lemma door_cost_mono n1 n2 p q :
  0 <= n1 -> n1 <= n2 -> finite n2 ->
  0 <= p -> p <= 1 -> 0 <= q -> q <= 1 ->
  0 <= _door_cost self n1 p q /\
  _door_cost self n1 p q <= _door_cost self n2 p q.
Proof.
  intros H0 H12 F2 Hp0 Hp1 Hq0 Hq1.
  destruct prices as (_ & _ & _ & (Fd1 & Pd1) & (Fd075 & Pd075)).
  assert (Fp : finite p) by (eapply nonneg_le_finite; eauto; reflexivity).
  assert (Fq : finite q) by (eapply nonneg_le_finite; eauto; reflexivity).
  unfold _door_cost. cbv zeta.
  destruct (mul_le_mono n1 n2 p p) as [Np Lp]; auto with float_facts.
  destruct (mul_le_mono n1 n2 q q) as [Nq Lq]; auto with float_facts.
  pose proof (mul_nonneg_pos _ _ Np Fd075 Pd075) as N1.
  pose proof (mul_nonneg_pos _ _ Nq Fd1 Pd1) as N2.
  split; [now apply add_nonneg|].
  apply add_le_mono; auto; now apply mul_le_mono_pos_r.
Qed.

(** The four unrounded costs and their sum are at or above zero and
    monotone in the quantities. *)
Lemma costs_mono g1 g2 w1 w2 k1 k2 d1 d2 :
  0 <= g1 -> g1 <= g2 -> 0 <= w1 -> w1 <= w2 ->
  0 <= k1 -> k1 <= k2 -> 0 <= d1 -> d1 <= d2 ->
  (0 <= g1 * price_gray self /\ g1 * price_gray self <= g2 * price_gray self) /\
  (0 <= w1 * price_white self /\ w1 * price_white self <= w2 * price_white self) /\
  (0 <= k1 * price_kicker self /\ k1 * price_kicker self <= k2 * price_kicker self) /\
  (0 <= g1 * price_gray self + w1 * price_white self + k1 * price_kicker self + d1 /\
   g1 * price_gray self + w1 * price_white self + k1 * price_kicker self + d1
   <= g2 * price_gray self + w2 * price_white self + k2 * price_kicker self + d2).
Proof.
  intros Hg0 Hg Hw0 Hw Hk0 Hk Hd0 Hd.
  destruct prices as ((Fw & Pw) & (Fg & Pg) & (Fk & Pk) & _).
  pose proof (mul_nonneg_pos _ _ Hg0 Fg Pg) as Ng.
  pose proof (mul_nonneg_pos _ _ Hw0 Fw Pw) as Nw.
  pose proof (mul_nonneg_pos _ _ Hk0 Fk Pk) as Nk.
  pose proof (mul_le_mono_pos_r _ _ _ Hg0 Hg Fg Pg) as Lg.
  pose proof (mul_le_mono_pos_r _ _ _ Hw0 Hw Fw Pw) as Lw.
  pose proof (mul_le_mono_pos_r _ _ _ Hk0 Hk Fk Pk) as Lk.
  repeat split; auto.
  - apply add_nonneg; [apply add_nonneg; [apply add_nonneg|]|]; assumption.
  - apply add_le_mono; auto.
    + apply add_nonneg; [apply add_nonneg|]; assumption.
    + apply add_le_mono; auto.
      * now apply add_nonneg.
      * now apply add_le_mono.
Qed.

(** The sum of the costs is at least each of them. *)
Lemma total_ge_parts a b c d :
  0 <= a -> 0 <= b -> 0 <= c -> 0 <= d ->
  a <= a + b + c + d /\ b <= a + b + c + d /\
  c <= a + b + c + d /\ d <= a + b + c + d.
Proof.
  intros Ha Hb Hc Hd.
  pose proof (add_nonneg a b Ha Hb) as Hab.
  pose proof (add_nonneg _ c Hab Hc) as Habc.
  pose proof (le_add_r _ d Habc Hd) as L3.
  pose proof (le_add_r _ c Hab Hc) as L2.
  repeat split.
  - eapply le_trans; [apply (le_add_r a b Ha Hb)|]. eapply le_trans; eauto.
  - eapply le_trans; [apply (le_add_l a b Ha Hb)|]. eapply le_trans; eauto.
  - eapply le_trans; [apply (le_add_l _ c Hab Hc)|]. exact L3.
  - now apply le_add_l.
Qed.

End CostOrder.

(** ** Quantities grow with the floor area *)

Section FloorAreaOrder.

Variables pum1 pum2 p q : float.
Hypothesis pum1_pos : 0 < pum1.
Hypothesis pum_le : pum1 <= pum2.
Hypothesis pum2_finite : finite pum2.
Hypothesis p_lo : 0 <= p.
Hypothesis p_hi : p <= 1.
Hypothesis q_lo : 0 <= q.
Hypothesis q_hi : q <= 1.

Lemma smaller_area_finite : finite pum1.
Proof. apply (nonneg_le_finite pum1 pum2); auto with float_facts. Qed.

Lemma larger_area_pos : 0 < pum2.
Proof. exact (lt_le_trans _ _ _ pum1_pos pum_le). Qed.

Lemma density_mono c : 0 < c -> c <= 1 -> pum1 * c <= pum2 * c.
Proof.
  intros Pc Hc.
  assert (Fc : finite c).
  { apply (finite_between 0 c 1); try reflexivity; auto with float_facts. }
  destruct (mul_le_mono pum1 pum2 c c) as [_ H]; auto with float_facts.
Qed.

Lemma gray_area_mono_area h :
  finite h -> 0 < h -> gray_area pum1 h <= gray_area pum2 h.
Proof.
  intros Fh Ph. unfold gray_area.
  destruct (density_facts pum1 smaller_area_finite pum1_pos COEFF_GRAY_LIN)
    as (_ & N1 & _ & _); try reflexivity.
  destruct (density_facts pum2 pum2_finite larger_area_pos COEFF_GRAY_LIN)
    as (F2 & _ & _ & _); try reflexivity.
  destruct (mul_le_mono (pum1 * COEFF_GRAY_LIN) (pum2 * COEFF_GRAY_LIN) h h)
    as [_ H]; auto with float_facts.
  apply density_mono; reflexivity.
Qed.

Lemma white_area_mono_area h :
  finite h -> 0 < h -> white_area pum1 h p q <= white_area pum2 h p q.
Proof.
  intros Fh Ph. unfold white_area.
  destruct (white_part_lower_nonneg pum1 smaller_area_finite pum1_pos h Fh Ph)
    as (L0 & _).
  pose proof (white_part_lintels_nonneg pum1 p q smaller_area_finite pum1_pos
                p_lo p_hi q_lo q_hi h Fh) as T0.
  apply add_le_mono; auto.
  - unfold white_part_lower.
    destruct (density_facts pum1 smaller_area_finite pum1_pos COEFF_KICKER_LIN)
      as (_ & N1 & _ & _); try reflexivity.
    destruct (density_facts pum2 pum2_finite larger_area_pos COEFF_KICKER_LIN)
      as (F2 & _ & _ & _); try reflexivity.
    destruct (mul_le_mono (pum1 * COEFF_KICKER_LIN) (pum2 * COEFF_KICKER_LIN) h h)
      as [_ H]; auto with float_facts.
    apply density_mono; reflexivity.
  - unfold white_part_lintels.
    destruct (density_facts pum1 smaller_area_finite pum1_pos COEFF_DOOR_DENSITY)
      as (_ & N1 & _ & _); try reflexivity.
    destruct (density_facts pum2 pum2_finite larger_area_pos COEFF_DOOR_DENSITY)
      as (F2 & _ & _ & _); try reflexivity.
    destruct (avg_door_width_facts p q p_lo p_hi q_lo q_hi) as (Fa & Na & _).
    destruct (lintel_length_facts pum2 p q pum2_finite larger_area_pos
                p_lo p_hi q_lo q_hi) as (FL & _).
    destruct (height_above_door_facts h Fh) as (Fd & Nd).
    destruct (mul_le_mono (pum1 * COEFF_DOOR_DENSITY) (pum2 * COEFF_DOOR_DENSITY)
                (_avg_door_width p q) (_avg_door_width p q)) as [NL HL];
      auto with float_facts.
    { apply density_mono; reflexivity. }
    destruct (mul_le_mono (pum1 * COEFF_DOOR_DENSITY * _avg_door_width p q)
                (pum2 * COEFF_DOOR_DENSITY * _avg_door_width p q)
                (height_above_door h) (height_above_door h)) as [_ H];
      auto with float_facts.
Qed.

End FloorAreaOrder.

(** ** Quantities grow with the height *)

Section HeightOrder.

Variables pum p q h1 h2 : float.
Hypothesis pum_finite : finite pum.
Hypothesis pum_pos : 0 < pum.
Hypothesis p_lo : 0 <= p.
Hypothesis p_hi : p <= 1.
Hypothesis q_lo : 0 <= q.
Hypothesis q_hi : q <= 1.
Hypothesis h1_pos : 0 < h1.
Hypothesis h_le : h1 <= h2.
Hypothesis h2_finite : finite h2.

Lemma lower_height_finite : finite h1.
Proof. apply (nonneg_le_finite h1 h2); auto with float_facts. Qed.

Lemma gray_area_mono_height : gray_area pum h1 <= gray_area pum h2.
Proof.
  unfold gray_area.
  destruct (density_facts pum pum_finite pum_pos COEFF_GRAY_LIN)
    as (F & N & _ & _); try reflexivity.
  destruct (mul_le_mono (pum * COEFF_GRAY_LIN) (pum * COEFF_GRAY_LIN) h1 h2)
    as [_ H]; auto with float_facts.
Qed.

Lemma white_area_mono_height : white_area pum h1 p q <= white_area pum h2 p q.
Proof.
  unfold white_area.
  destruct (white_part_lower_nonneg pum pum_finite pum_pos h1 lower_height_finite
              h1_pos) as (L0 & _).
  pose proof (white_part_lintels_nonneg pum p q pum_finite pum_pos
                p_lo p_hi q_lo q_hi h1 lower_height_finite) as T0.
  apply add_le_mono; auto.
  - unfold white_part_lower.
    destruct (density_facts pum pum_finite pum_pos COEFF_KICKER_LIN)
      as (F & N & _ & _); try reflexivity.
    destruct (mul_le_mono (pum * COEFF_KICKER_LIN) (pum * COEFF_KICKER_LIN) h1 h2)
      as [_ H]; auto with float_facts.
  - unfold white_part_lintels.
    destruct (lintel_length_facts pum p q pum_finite pum_pos p_lo p_hi q_lo q_hi)
      as (F & N).
    destruct (height_above_door_facts h1 lower_height_finite) as (Fa1 & Na1).
    destruct (height_above_door_facts h2 h2_finite) as (Fa2 & Na2).
    destruct (mul_le_mono (pum * COEFF_DOOR_DENSITY * _avg_door_width p q)
                (pum * COEFF_DOOR_DENSITY * _avg_door_width p q)
                (height_above_door h1) (height_above_door h2)) as [_ H];
      auto with float_facts.
    apply height_above_door_mono; auto. apply lower_height_finite.
Qed.

End HeightOrder.

(** ** Reports in order *)

(** Two calls of [calculate] whose unrounded quantities are in order give
    reports whose fields are in order, field by field. *)
Lemma fields_order self pumA hA pumB hB p q :
  positive_prices self ->
  0 <= gray_area pumA hA -> gray_area pumA hA <= gray_area pumB hB ->
  0 <= white_area pumA hA p q -> white_area pumA hA p q <= white_area pumB hB p q ->
  0 <= pumA * COEFF_KICKER_LIN ->
  pumA * COEFF_KICKER_LIN <= pumB * COEFF_KICKER_LIN ->
  0 <= _door_count pumA -> _door_count pumA <= _door_count pumB ->
  finite (_door_count pumB) ->
  0 <= p -> p <= 1 -> 0 <= q -> q <= 1 ->
  let rA := calculate self pumA hA p q in
  let rB := calculate self pumB hB p q in
  (0 <= gray_area_m2 rA /\ gray_area_m2 rA <= gray_area_m2 rB) /\
  (0 <= white_area_m2 rA /\ white_area_m2 rA <= white_area_m2 rB) /\
  (0 <= kicker_length_mb rA /\ kicker_length_mb rA <= kicker_length_mb rB) /\
  (0 <= door_count rA /\ door_count rA <= door_count rB) /\
  (0 <= cost_gray_pln rA /\ cost_gray_pln rA <= cost_gray_pln rB) /\
  (0 <= cost_white_pln rA /\ cost_white_pln rA <= cost_white_pln rB) /\
  (0 <= cost_kicker_pln rA /\ cost_kicker_pln rA <= cost_kicker_pln rB) /\
  (0 <= cost_doors_pln rA /\ cost_doors_pln rA <= cost_doors_pln rB) /\
  (0 <= cost_total_pln rA /\ cost_total_pln rA <= cost_total_pln rB).
Proof.
  intros prices Hg0 Hg Hw0 Hw Hk0 Hk Hn0 Hn Fn Hp0 Hp1 Hq0 Hq1. cbv zeta.
  destruct (door_cost_mono self prices (_door_count pumA) (_door_count pumB) p q)
    as [Hd0 Hd]; auto.
  destruct (costs_mono self prices _ _ _ _ _ _ _ _ Hg0 Hg Hw0 Hw Hk0 Hk Hd0 Hd)
    as ((Cg0 & Cg) & (Cw0 & Cw) & (Ck0 & Ck) & (Ct0 & Ct)).
  rewrite !calculate_fields.
  cbn [gray_area_m2 white_area_m2 kicker_length_mb door_count
       cost_gray_pln cost_white_pln cost_kicker_pln cost_doors_pln cost_total_pln].
  repeat split; first [now apply round_nonneg|now apply round_le_mono].
Qed.

(** Each rounded cost is at most the rounded total. *)
Lemma parts_below_total self pum h p q :
  0 <= gray_area pum h * price_gray self ->
  0 <= white_area pum h p q * price_white self ->
  0 <= pum * COEFF_KICKER_LIN * price_kicker self ->
  0 <= _door_cost self (_door_count pum) p q ->
  let r := calculate self pum h p q in
  cost_gray_pln r <= cost_total_pln r /\
  cost_white_pln r <= cost_total_pln r /\
  cost_kicker_pln r <= cost_total_pln r /\
  cost_doors_pln r <= cost_total_pln r.
Proof.
  intros Hg Hw Hk Hd. cbv zeta.
  destruct (total_ge_parts _ _ _ _ Hg Hw Hk Hd) as (Lg & Lw & Lk & Ld).
  rewrite calculate_fields.
  cbn [cost_gray_pln cost_white_pln cost_kicker_pln cost_doors_pln cost_total_pln].
  repeat split; now apply round_le_mono.
Qed.

(** The unrounded costs of a call within the contract are at or above
    zero. *)
Lemma costs_nonneg self pum h p q :
  positive_prices self ->
  finite pum -> 0 < pum -> finite h -> 0 < h ->
  0 <= p -> p <= 1 -> 0 <= q -> q <= 1 ->
  0 <= gray_area pum h * price_gray self /\
  0 <= white_area pum h p q * price_white self /\
  0 <= pum * COEFF_KICKER_LIN * price_kicker self /\
  0 <= _door_cost self (_door_count pum) p q.
Proof.
  intros prices Fp Pp Fh Ph Hp0 Hp1 Hq0 Hq1.
  pose proof (gray_area_nonneg pum Fp Pp h Fh Ph) as Ng.
  pose proof (white_area_nonneg pum p q Fp Pp Hp0 Hp1 Hq0 Hq1 h Fh Ph) as Nw.
  destruct (density_facts pum Fp Pp COEFF_KICKER_LIN) as (_ & Nk & _ & _);
    try reflexivity.
  destruct (density_facts pum Fp Pp COEFF_DOOR_DENSITY) as (Fc & Nc & _ & _);
    try reflexivity.
  destruct (door_cost_mono self prices (_door_count pum) (_door_count pum) p q)
    as [Nd _]; auto with float_facts.
  destruct (costs_mono self prices _ _ _ _ _ _ _ _ Ng (le_refl _ (nonneg_not_nan _ Ng))
              Nw (le_refl _ (nonneg_not_nan _ Nw))
              Nk (le_refl _ (nonneg_not_nan _ Nk))
              Nd (le_refl _ (nonneg_not_nan _ Nd)))
    as ((Cg0 & _) & (Cw0 & _) & (Ck0 & _) & _).
  auto.
Qed.

(** The reports at two heights in order, for a floor area and a mix
    within the contract. *)
Lemma reports_height_order self pum h1 h2 p q :
  positive_prices self ->
  finite pum -> 0 < pum -> 0 <= p -> p <= 1 -> 0 <= q -> q <= 1 ->
  0 < h1 -> h1 <= h2 -> finite h2 ->
  let r1 := calculate self pum h1 p q in
  let r2 := calculate self pum h2 p q in
  (0 <= cost_gray_pln r1 /\ cost_gray_pln r1 <= cost_gray_pln r2) /\
  (0 <= cost_white_pln r1 /\ cost_white_pln r1 <= cost_white_pln r2) /\
  (0 <= cost_total_pln r1 /\ cost_total_pln r1 <= cost_total_pln r2).
Proof.
  intros prices Fp Pp Hp0 Hp1 Hq0 Hq1 Ph1 Hle Fh2.
  pose proof (lower_height_finite h1 h2 Ph1 Hle Fh2) as Fh1.
  destruct (density_facts pum Fp Pp COEFF_KICKER_LIN) as (_ & Nk & _ & _);
    try reflexivity.
  destruct (density_facts pum Fp Pp COEFF_DOOR_DENSITY) as (Fc & Nc & _ & _);
    try reflexivity.
  destruct (fields_order self pum h1 pum h2 p q prices) as (_ & _ & _ & _ & G & W & _ & _ & T);
    auto with float_facts.
  - now apply gray_area_nonneg.
  - now apply gray_area_mono_height.
  - now apply white_area_nonneg.
  - now apply white_area_mono_height.
Qed.

Section MoreOrderFacts.

(** A product with a factor at or above zero is monotone in a positive
    finite second factor. *)
Lemma mul_le_mono_pos_l x c d :
  0 <= x -> 0 < c -> c <= d -> finite d -> x * c <= x * d.
Proof.
  intros Hx Pc Hcd Fd.
  assert (Fc : finite c) by (apply (nonneg_le_finite c d); auto with float_facts).
  assert (Pd : 0 < d) by exact (lt_le_trans _ _ _ Pc Hcd).
  destruct (nonneg_finite_or_inf x Hx) as [Fx|Ix].
  - destruct (mul_le_mono x x c d) as [_ H]; auto with float_facts.
  - apply le_infinity.
    + apply nonneg_not_nan. now apply mul_nonneg_pos.
    + destruct (pos_cases d Pd) as [(m & e & Ed)|Ed].
      * rewrite mul_spec, Ix, Ed. reflexivity.
      * apply is_finite_spec in Fd. rewrite Ed in Fd. destruct Fd.
Qed.

(** The sum of four terms at or above zero is at or above zero and
    monotone in each term. *)
Lemma sum4_mono a1 a2 b1 b2 c1 c2 d1 d2 :
  0 <= a1 -> a1 <= a2 -> 0 <= b1 -> b1 <= b2 ->
  0 <= c1 -> c1 <= c2 -> 0 <= d1 -> d1 <= d2 ->
  0 <= a1 + b1 + c1 + d1 /\ a1 + b1 + c1 + d1 <= a2 + b2 + c2 + d2.
Proof.
  intros Ha0 Ha Hb0 Hb Hc0 Hc Hd0 Hd.
  pose proof (add_nonneg a1 b1 Ha0 Hb0) as Hab.
  pose proof (add_nonneg _ c1 Hab Hc0) as Habc.
  split; [now apply add_nonneg|].
  apply add_le_mono; auto. apply add_le_mono; auto. now apply add_le_mono.
Qed.

End MoreOrderFacts.

(** ** The door mix *)

Section MixOrder.

Variables p1 p2 q1 q2 : float.
Hypothesis p1_lo : 0 <= p1.
Hypothesis p_le : p1 <= p2.
Hypothesis p2_hi : p2 <= 1.
Hypothesis q1_lo : 0 <= q1.
Hypothesis q_le : q1 <= q2.
Hypothesis q2_hi : q2 <= 1.

Lemma larger_shares : (0 <= p2 /\ finite p2) /\ (0 <= q2 /\ finite q2).
Proof.
  assert (Hp : 0 <= p2) by exact (le_trans _ _ _ p1_lo p_le).
  assert (Hq : 0 <= q2) by exact (le_trans _ _ _ q1_lo q_le).
  repeat split; auto; eapply nonneg_le_finite; eauto; reflexivity.
Qed.

Lemma smaller_shares : (p1 <= 1 /\ finite p1) /\ (q1 <= 1 /\ finite q1).
Proof.
  destruct larger_shares as ((Hp & Fp) & (Hq & Fq)).
  repeat split.
  - exact (le_trans _ _ _ p_le p2_hi).
  - eapply nonneg_le_finite; eauto.
  - exact (le_trans _ _ _ q_le q2_hi).
  - eapply nonneg_le_finite; eauto.
Qed.

Lemma avg_door_width_mono : _avg_door_width p1 q1 <= _avg_door_width p2 q2.
Proof.
  destruct larger_shares as ((Hp & Fp) & (Hq & Fq)).
  unfold _avg_door_width.
  destruct (mul_le_mono p1 p2 0.75 0.75) as [N1 L1]; auto; try reflexivity.
  destruct (mul_le_mono q1 q2 1.0 1.0) as [N2 L2]; auto; try reflexivity.
  now apply add_le_mono.
Qed.

Lemma white_area_mono_mix pum h :
  finite pum -> 0 < pum -> finite h -> 0 < h ->
  white_area pum h p1 q1 <= white_area pum h p2 q2.
Proof.
  intros Fp Pp Fh Ph.
  destruct larger_shares as ((Hp & Fp2) & (Hq & Fq2)).
  destruct smaller_shares as ((Hp1 & Fp1) & (Hq1 & Fq1)).
  unfold white_area.
  destruct (white_part_lower_nonneg pum Fp Pp h Fh Ph) as (L0 & _).
  pose proof (white_part_lintels_nonneg pum p1 q1 Fp Pp p1_lo Hp1 q1_lo Hq1 h Fh)
    as T0.
  apply add_le_mono; auto.
  - apply le_refl. now apply nonneg_not_nan.
  - unfold white_part_lintels.
    destruct (density_facts pum Fp Pp COEFF_DOOR_DENSITY) as (Fc & Nc & _ & _);
      try reflexivity.
    destruct (avg_door_width_facts p1 q1 p1_lo Hp1 q1_lo Hq1) as (Fa1 & Na1 & _).
    destruct (avg_door_width_facts p2 q2 Hp p2_hi Hq q2_hi) as (Fa2 & Na2 & _).
    destruct (lintel_length_facts pum p2 q2 Fp Pp Hp p2_hi Hq q2_hi) as (FL & _).
    destruct (height_above_door_facts h Fh) as (Fd & Nd).
    destruct (mul_le_mono (pum * COEFF_DOOR_DENSITY) (pum * COEFF_DOOR_DENSITY)
                (_avg_door_width p1 q1) (_avg_door_width p2 q2)) as [NL HL];
      auto with float_facts.
    { apply avg_door_width_mono. }
    destruct (mul_le_mono (pum * COEFF_DOOR_DENSITY * _avg_door_width p1 q1)
                (pum * COEFF_DOOR_DENSITY * _avg_door_width p2 q2)
                (height_above_door h) (height_above_door h)) as [_ H];
      auto with float_facts.
Qed.

Lemma door_cost_mono_mix self n :
  positive_prices self -> finite n -> 0 <= n ->
  0 <= _door_cost self n p1 q1 /\
  _door_cost self n p1 q1 <= _door_cost self n p2 q2.
Proof.
  intros prices Fn Hn.
  destruct prices as (_ & _ & _ & (Fd1 & Pd1) & (Fd075 & Pd075)).
  destruct larger_shares as ((Hp & Fp2) & (Hq & Fq2)).
  unfold _door_cost. cbv zeta.
  destruct (mul_le_mono n n p1 p2) as [Np Lp]; auto with float_facts.
  destruct (mul_le_mono n n q1 q2) as [Nq Lq]; auto with float_facts.
  pose proof (mul_nonneg_pos _ _ Np Fd075 Pd075) as N1.
  pose proof (mul_nonneg_pos _ _ Nq Fd1 Pd1) as N2.
  split; [now apply add_nonneg|].
  apply add_le_mono; auto; now apply mul_le_mono_pos_r.
Qed.

End MixOrder.

(** ** Not-a-number *)

Section NotANumber.

Lemma nan_mul_l y : nan * y = nan.
Proof.
  apply Prim2SF_inj. rewrite mul_spec.
  change (Prim2SF nan) with S754_nan. reflexivity.
Qed.

Lemma nan_add_l y : nan + y = nan.
Proof.
  apply Prim2SF_inj. rewrite add_spec.
  change (Prim2SF nan) with S754_nan. reflexivity.
Qed.

Lemma nan_add_r x : x + nan = nan.
Proof. rewrite add_comm. apply nan_add_l. Qed.

Lemma round_nan nd : Py.round nan nd = nan.
Proof. unfold Py.round. destruct (_ <? _)%nat; reflexivity. Qed.

End NotANumber.

(** ** The grid of binary64 numbers *)

Section Grid.

Local Open Scope Z_scope.

(** A finite number at or above [2^k] units is a multiple of the last
    place of that binade. *)
Lemma FV_grid x k :
  finite x -> 52 <= k -> 2 ^ k <= FV x -> exists j, FV x = j * 2 ^ (k - 52).
Proof.
  intros Fx Hk Hx. unfold FV in *. pose proof (Prim2SF_valid x) as Hv.
  assert (0 < 2 ^ k) by (apply Z.pow_pos_nonneg; lia).
  apply is_finite_spec in Fx.
  destruct (Prim2SF x) as [s|s| |s m e]; cbn [is_fin] in Fx; try tauto;
    cbn [SV] in *; try lia.
  cbv zeta in *.
  pose proof (SV_finite_bounds s m e Hv) as B.
  apply valid_finite in Hv as (He & Hm & _ & _).
  destruct s; [lia|].
  assert (Hle : k - 52 <= e + 1074).
  { destruct (Z_lt_le_dec (e + 1074) (k - 52)) as [Hlt|]; [|lia].
    assert (2 ^ (e + 1074) <= 2 ^ (k - 53)) by (apply Z.pow_le_mono_r; lia).
    assert (0 < 2 ^ (e + 1074)) by (apply Z.pow_pos_nonneg; lia).
    assert (Zpos m * 2 ^ (e + 1074) < 2 ^ 53 * 2 ^ (k - 53)) by nia.
    rewrite <- Z.pow_add_r in * by lia.
    replace (53 + (k - 53)) with k in * by lia. lia. }
  exists (Zpos m * 2 ^ (e + 1074 - (k - 52))).
  rewrite <- Z.mul_assoc, <- Z.pow_add_r by lia. do 2 f_equal. lia.
Qed.

(** A value on the grid of its binade is its own rounding. *)
Lemma round_units_grid u j g :
  0 <= u -> ulp_exp u <= g -> u = j * 2 ^ g -> round_units u = u.
Proof.
  intros Hu Hg E. unfold round_units.
  assert (HE : 1074 <= ulp_exp u) by (unfold ulp_exp; lia).
  assert (HP : 0 < 2 ^ ulp_exp u) by (apply Z.pow_pos_nonneg; lia).
  assert (E' : u = j * 2 ^ (g - ulp_exp u) * 2 ^ ulp_exp u).
  { rewrite <- Z.mul_assoc, <- Z.pow_add_r by lia.
    rewrite E. do 2 f_equal. lia. }
  rewrite E' at 1. rewrite div_half_even_exact by lia. lia.
Qed.

Lemma ulp_exp_below u k : 0 <= u < 2 ^ k -> 1127 <= k -> ulp_exp u <= k - 53.
Proof.
  intros [H0 Hu] Hk. unfold ulp_exp.
  destruct (Z.eq_dec u 0) as [->|N]; [change (Z.log2 0) with 0; lia|].
  assert (Z.log2 u < k) by (apply Z.log2_lt_pow2; lia). lia.
Qed.

End Grid.

Section AverageWidth.

Variables p q : float.
Hypothesis p_lo : 0 <= p.
Hypothesis q_lo : 0 <= q.
Hypothesis sum_hi : p + q <= 1.

Lemma shares_hi : p <= 1 /\ q <= 1.
Proof.
  split.
  - exact (le_trans _ _ _ (le_add_r p q p_lo q_lo) sum_hi).
  - exact (le_trans _ _ _ (le_add_l p q p_lo q_lo) sum_hi).
Qed.

Lemma shares_finite : finite p /\ finite q.
Proof.
  destruct shares_hi as (Hp & Hq).
  split; eapply nonneg_le_finite; eauto; reflexivity.
Qed.

(** With shares that sum to at most one the average width is at most
    the width of the wide door. *)
Lemma avg_door_width_le_1 : _avg_door_width p q <= 1.
Proof.
  destruct shares_hi as (Hp & Hq). destruct shares_finite as (Fp & Fq).
  unfold _avg_door_width.
  destruct (mul_le_mono p p 0.75 1) as [N1 L1]; auto with float_facts;
    try reflexivity.
  change 1.0 with 1%float. rewrite !mul_1_r in * by assumption.
  eapply le_trans; [|exact sum_hi].
  apply add_le_mono; auto with float_facts.
Qed.

(** Three quarters of a share [p <= 1] are at least [p - 1/4]. *)
Lemma three_quarters_value :
  (FV p - 2 ^ 1072 <= FV (p * 0.75))%Z.
Proof.
  destruct shares_hi as (Hp & Hq). destruct shares_finite as (Fp & Fq).
  destruct (mul_bounded p 1 0.75 0.75) as (Fa & Na & _); try reflexivity; auto.
  pose proof (mul_exact_rounding p 0.75 Fp ltac:(reflexivity) p_lo
                ltac:(reflexivity) Fa) as V.
  change (FV 0.75) with (3 * 2 ^ 1072)%Z in V.
  pose proof (nonneg_FV _ Na) as Na'. pose proof (nonneg_FV _ p_lo) as Np.
  apply leb_spec_FV in Hp as (_ & _ & Hp). change (FV 1) with (2 ^ 1074)%Z in Hp.
  destruct (Z_lt_le_dec (FV p) (2 ^ 1072)) as [Hlt|Hge]; [lia|].
  set (P := FV p) in *.
  assert (P2 : (0 < 2 ^ 1074)%Z) by (apply Z.pow_pos_nonneg; lia).
  assert (E72 : (2 ^ 1074 = 4 * 2 ^ 1072)%Z)
    by (change 1074%Z with (2 + 1072)%Z; rewrite Z.pow_add_r by lia; reflexivity).
  assert (HR : (round_units ((P - 2 ^ 1072) * 2 ^ 1074) = (P - 2 ^ 1072) * 2 ^ 1074)%Z).
  { destruct (Z_lt_le_dec P (2 ^ 1073)) as [Hlo|Hhi].
    - destruct (FV_grid p 1072 Fp ltac:(lia) Hge) as [j Ej]. fold P in Ej.
      change (1072 - 52)%Z with 1020%Z in Ej.
      apply (round_units_grid _ (j - 2 ^ 52) 2094).
      + nia.
      + change 2094%Z with (2147 - 53)%Z. apply ulp_exp_below; [|lia].
        split; [nia|].
        assert (E73 : (2 ^ 1073 = 2 * 2 ^ 1072)%Z)
          by (change 1073%Z with (1 + 1072)%Z; rewrite Z.pow_add_r by lia;
              reflexivity).
        change 2147%Z with (1073 + 1074)%Z. rewrite Z.pow_add_r by lia. nia.
      + change 2094%Z with (1020 + 1074)%Z. rewrite Z.pow_add_r by lia.
        rewrite Ej. change 1072%Z with (52 + 1020)%Z at 1.
        rewrite Z.pow_add_r by lia. ring.
    - destruct (FV_grid p 1073 Fp ltac:(lia) Hhi) as [j Ej]. fold P in Ej.
      change (1073 - 52)%Z with 1021%Z in Ej.
      apply (round_units_grid _ (j - 2 ^ 51) 2095).
      + nia.
      + change 2095%Z with (2148 - 53)%Z. apply ulp_exp_below; [|lia].
        split; [nia|].
        change 2148%Z with (1074 + 1074)%Z. rewrite Z.pow_add_r by lia. nia.
      + change 2095%Z with (1021 + 1074)%Z. rewrite Z.pow_add_r by lia.
        rewrite Ej. change 1072%Z with (51 + 1021)%Z at 1.
        rewrite Z.pow_add_r by lia. ring. }
  assert (M : (round_units ((P - 2 ^ 1072) * 2 ^ 1074)
               <= round_units (P * (3 * 2 ^ 1072)))%Z).
  { apply round_units_mono. split; [nia|]. nia. }
  rewrite HR, <- V in M. nia.
Qed.

End AverageWidth.

Section AverageWidthBelow.

Local Open Scope Z_scope.

(** The largest exact sum that [p + q] rounds below one, and the
    smallest one that rounds to three quarters. *)
Lemma below_one_rounding :
  round_units ((2 ^ 1074 - 2 ^ 1020 - 1) * 2 ^ 1074) < 2 ^ 2148.
Proof. vm_compute. reflexivity. Qed.

Lemma three_quarters_rounding :
  round_units ((3 * 2 ^ 1072 - 2 ^ 1020) * 2 ^ 1074) = 3 * 2 ^ 1072 * 2 ^ 1074.
Proof. vm_compute. reflexivity. Qed.

End AverageWidthBelow.

Section AverageWidthRange.

Variables p q : float.
Hypothesis p_lo : 0 <= p.
Hypothesis q_lo : 0 <= q.
Hypothesis sum_hi : p + q <= 1.
Hypothesis sum_lo : 1 <= p + q.

(** The exact sum of shares whose binary64 sum is one. *)
Lemma shares_exact_sum : (2 ^ 1074 - 2 ^ 1020 <= FV p + FV q)%Z.
Proof.
  destruct (shares_finite p q p_lo q_lo sum_hi) as (Fp & Fq).
  assert (Fs : finite (p + q)).
  { apply (nonneg_le_finite _ 1); auto with float_facts. }
  pose proof (add_exact_rounding p q Fp Fq p_lo q_lo Fs) as V.
  apply leb_spec_FV in sum_lo as (_ & _ & L). change (FV 1) with (2 ^ 1074)%Z in L.
  pose proof (nonneg_FV _ p_lo) as Np. pose proof (nonneg_FV _ q_lo) as Nq.
  destruct (Z_lt_le_dec (FV p + FV q) (2 ^ 1074 - 2 ^ 1020)) as [Hlt|]; [|assumption].
  exfalso.
  assert (P2 : (0 < 2 ^ 1074)%Z) by (apply Z.pow_pos_nonneg; lia).
  assert (M : (round_units (FV p * 2 ^ 1074 + FV q * 2 ^ 1074)
               <= round_units ((2 ^ 1074 - 2 ^ 1020 - 1) * 2 ^ 1074))%Z).
  { apply round_units_mono. split; nia. }
  pose proof below_one_rounding as B.
  rewrite <- V in M.
  assert (E : (2 ^ 2148 = 2 ^ 1074 * 2 ^ 1074)%Z)
    by (rewrite <- Z.pow_add_r by lia; reflexivity).
  nia.
Qed.

(** With shares that sum to one the average width is at least the
    width of the narrow door. *)
Lemma avg_door_width_ge_075 : 0.75 <= _avg_door_width p q.
Proof.
  destruct (shares_hi p q p_lo q_lo sum_hi) as (Hp & Hq).
  destruct (shares_finite p q p_lo q_lo sum_hi) as (Fp & Fq).
  destruct (avg_door_width_facts p q p_lo Hp q_lo Hq) as (Fa & Na & _).
  pose proof (three_quarters_value p q p_lo q_lo sum_hi) as T.
  pose proof shares_exact_sum as S.
  unfold _avg_door_width in *. change 1.0 with 1%float in *.
  rewrite (mul_1_r q Fq) in *.
  destruct (mul_bounded p 1 0.75 0.75) as (F1 & N1 & _); try reflexivity; auto.
  pose proof (add_exact_rounding _ _ F1 Fq N1 q_lo Fa) as V.
  apply leb_spec_FV. repeat split; [discriminate|auto with float_facts|].
  change (FV 0.75) with (3 * 2 ^ 1072)%Z.
  assert (P2 : (0 < 2 ^ 1074)%Z) by (apply Z.pow_pos_nonneg; lia).
  assert (P1 : (0 < 2 ^ 1020)%Z) by (apply Z.pow_pos_nonneg; lia).
  assert (E72 : (2 ^ 1074 = 4 * 2 ^ 1072)%Z)
    by (change 1074%Z with (2 + 1072)%Z; rewrite Z.pow_add_r by lia; reflexivity).
  assert (E20 : (2 ^ 1072 = 2 ^ 52 * 2 ^ 1020)%Z)
    by (rewrite <- Z.pow_add_r by lia; reflexivity).
  assert (M : (round_units ((3 * 2 ^ 1072 - 2 ^ 1020) * 2 ^ 1074)
               <= round_units (FV (p * 0.75) * 2 ^ 1074 + FV q * 2 ^ 1074))%Z).
  { apply round_units_mono. split; [|nia].
    apply Z.mul_nonneg_nonneg; lia. }
  rewrite three_quarters_rounding, <- V in M. nia.
Qed.

End AverageWidthRange.

(** ** Negation *)

Section Mirror.

Lemma SFmul_opp_l x y : SF64mul (SFopp x) y = SFopp (SF64mul x y).
Proof.
  destruct x as [sx|sx| |sx mx ex]; destruct y as [sy|sy| |sy my ey];
    unfold SF64mul, SFmul; cbn [SFopp]; try reflexivity;
    try (destruct sx, sy; reflexivity).
  replace (xorb (negb sx) sy) with (negb (xorb sx sy)) by (destruct sx, sy; reflexivity).
  apply binary_round_aux_opp.
Qed.

Lemma mul_opp_l x y : (- x) * y = - (x * y).
Proof. apply Prim2SF_inj. rewrite opp_spec, !mul_spec, opp_spec. apply SFmul_opp_l. Qed.








End Mirror.

(** ** Rounding twice *)

Section RoundTwice.

Local Open Scope Z_scope.

(** The integer at less than half a unit is the rounding. *)
Lemma div_half_even_near a b k :
  0 < b -> 2 * Z.abs (a - k * b) < b -> div_half_even a b = k.
Proof.
  intros Hb H. unfold div_half_even.
  destruct (Z_le_gt_dec (k * b) a) as [Hge|Hlt].
  - assert (Eq : a / b = k)
      by (symmetry; apply (Z.div_unique a b k (a - k * b)); lia).
    assert (Er : a mod b = a - k * b) by (rewrite Z.mod_eq by lia; rewrite Eq; lia).
    rewrite Eq, Er. destruct (Z.compare_spec (2 * (a - k * b)) b); lia.
  - assert (Eq : a / b = k - 1)
      by (symmetry; apply (Z.div_unique a b (k - 1) (a - (k - 1) * b)); lia).
    assert (Er : a mod b = a - (k - 1) * b)
      by (rewrite Z.mod_eq by lia; rewrite Eq; lia).
    rewrite Eq, Er. destruct (Z.compare_spec (2 * (a - (k - 1) * b)) b); lia.
Qed.

(** Values more than one unit apart round to different integers. *)
Lemma div_half_even_gap a b w :
  0 < w -> w < b - a -> div_half_even a w < div_half_even b w.
Proof.
  intros Hw H.
  pose proof (div_half_even_error a w Hw) as Ea.
  pose proof (div_half_even_error b w Hw) as Eb.
  apply (Z.mul_lt_mono_pos_r w); lia.
Qed.

(** The sticky quotient of [n / d], scaled to units of [2^-2148], is
    less than one unit of [2^-1081] away from the quotient. *)
Lemma sticky_quotient_error n d :
  0 < d -> 0 <= n ->
  Z.abs (d * (Py.sticky_quotient n d * 2 ^ 1067) - n * 2 ^ 2148) < d * 2 ^ 1067.
Proof.
  intros Hd Hn. unfold Py.sticky_quotient. cbv zeta.
  replace (2 ^ 2148) with (2 ^ 1080 * 2 * 2 ^ 1067)
    by reflexivity.
  set (t := n * 2 ^ 1080).
  assert (P : 0 < 2 ^ 1067) by (apply Z.pow_pos_nonneg; lia).
  pose proof (Z.div_mod t d ltac:(lia)) as E.
  pose proof (Z.mod_pos_bound t d Hd) as B.
  set (qt := t / d) in *. set (r := t mod d) in *.
  replace (n * (2 ^ 1080 * 2 * 2 ^ 1067)) with (2 * t * 2 ^ 1067) by (unfold t; ring).
  destruct (Z.eqb_spec r 0) as [R0|RN].
  - replace (d * ((2 * qt + 0) * 2 ^ 1067) - 2 * t * 2 ^ 1067) with 0 by nia.
    cbn [Z.abs]. nia.
  - replace (d * ((2 * qt + 1) * 2 ^ 1067) - 2 * t * 2 ^ 1067)
      with ((d - 2 * r) * 2 ^ 1067) by nia.
    rewrite Z.abs_mul, (Z.abs_eq (2 ^ 1067)) by lia.
    apply Z.mul_lt_mono_pos_r; lia.
Qed.

Lemma sticky_quotient_exact k d :
  0 < d -> 0 <= k -> Py.sticky_quotient (d * k) d = 2 * (k * 2 ^ 1080).
Proof.
  intros Hd Hk. unfold Py.sticky_quotient. cbv zeta.
  replace (d * k * 2 ^ 1080) with (k * 2 ^ 1080 * d) by ring.
  rewrite Z.mod_mul, Z.div_mul by lia. cbn [Z.eqb]. lia.
Qed.

(** Within a binade, a value at less than half a last place from a
    point of the grid rounds to that point. *)
Lemma round_units_near u q E :
  1074 <= E -> 2 ^ 52 < q < 2 ^ 53 -> 2 * Z.abs (u - q * 2 ^ E) < 2 ^ E ->
  round_units u = q * 2 ^ E.
Proof.
  intros HE Hq H.
  assert (HG : 0 < 2 ^ E) by (apply Z.pow_pos_nonneg; lia).
  assert (L1 : 2 ^ (E + 52) <= u).
  { rewrite Z.pow_add_r by lia. nia. }
  assert (L2 : u < 2 ^ Z.succ (E + 52)).
  { replace (Z.succ (E + 52)) with (E + 53) by lia.
    rewrite Z.pow_add_r by lia. nia. }
  assert (HL : Z.log2 u = E + 52).
  { apply Z.log2_unique; [lia|]. split; assumption. }
  unfold round_units, ulp_exp. rewrite HL.
  replace (Z.max (E + 52 - 52) 1074) with E by lia.
  f_equal. now apply div_half_even_near.
Qed.

Lemma round_units_pow2 k : 1126 <= k -> round_units (2 ^ k) = 2 ^ k.
Proof.
  intros Hk. apply (round_units_grid _ (2 ^ 52) (k - 52)).
  - apply Z.pow_nonneg. lia.
  - unfold ulp_exp. rewrite Z.log2_pow2 by lia. lia.
  - rewrite <- Z.pow_add_r by lia. f_equal. lia.
Qed.

(** The rounding of a value of the normal range: a mantissa of 53 bits
    times the last place. *)
Lemma round_units_normal u :
  2 ^ 1126 <= u ->
  exists q, 2 ^ 52 <= q <= 2 ^ 53 /\ round_units u = q * 2 ^ ulp_exp u /\
            ulp_exp u = Z.log2 u - 52.
Proof.
  intros Hu.
  assert (0 < 2 ^ 1126) by (apply Z.pow_pos_nonneg; lia).
  assert (Hl : 1126 <= Z.log2 u) by (apply Z.log2_le_pow2; lia).
  assert (HE : ulp_exp u = Z.log2 u - 52) by (unfold ulp_exp; lia).
  destruct (Z.log2_spec u ltac:(lia)) as [S1 S2].
  assert (HG : 0 < 2 ^ ulp_exp u) by (apply Z.pow_pos_nonneg; lia).
  exists (div_half_even u (2 ^ ulp_exp u)). repeat split; auto.
  - apply div_half_even_ge; [assumption|].
    rewrite HE, <- Z.pow_add_r by lia.
    replace (52 + (Z.log2 u - 52)) with (Z.log2 u) by lia. exact S1.
  - apply div_half_even_le; [assumption|].
    rewrite HE, <- Z.pow_add_r by lia.
    replace (53 + (Z.log2 u - 52)) with (Z.succ (Z.log2 u)) by lia. lia.
Qed.


(** *** Two errors of half a unit

    The arithmetic of [round_twice] below, on plain integers: [t] is one
    in the units of the exact values, [c] the error of the sticky
    quotient, [g] the last place of the binary64 number. *)

Lemma half_unit_scaled a w : 0 < w -> 2 * Z.abs (a * w) < w * w -> 2 * Z.abs a < w.
Proof.
  intros Hw H. rewrite Z.abs_mul, (Z.abs_eq w) in H by lia.
  apply (Z.mul_lt_mono_pos_r w); lia.
Qed.

Lemma half_unit_unscaled a w : 0 < w -> 2 * Z.abs a <= w -> 2 * Z.abs (a * w) <= w * w.
Proof.
  intros Hw H. rewrite Z.abs_mul, (Z.abs_eq w) by lia.
  replace (2 * (Z.abs a * w)) with (2 * Z.abs a * w) by ring.
  apply Z.mul_le_mono_nonneg_r; lia.
Qed.

Lemma coarse_bound d a g t c k :
  0 < d < a -> 0 < c -> 0 < g -> g * a <= t -> a <= k ->
  k * (k * c) + k * c <= t -> d * g + d * c <= t.
Proof.
  intros Hd Hc Hg Hga Hak Hk.
  destruct (Z_le_gt_dec (a * c) g) as [Hbig|Hsmall].
  - assert (d * c <= g) by nia.
    assert ((d + 1) * g <= a * g) by (apply Z.mul_le_mono_nonneg_r; lia).
    lia.
  - assert (d * g <= k * (k * c)).
    { apply Z.mul_le_mono_nonneg; try lia.
      apply Z.le_trans with (a * c); [lia|].
      apply Z.mul_le_mono_nonneg_r; lia. }
    assert (d * c <= k * c) by (apply Z.mul_le_mono_nonneg_r; lia).
    lia.
Qed.

Lemma fine_bound d a g t c :
  a < d -> 0 < g -> t <= g * a -> d * c <= g -> t + d * c <= d * g.
Proof.
  intros Hd Hg Ht Hc.
  assert ((a + 1) * g <= d * g) by (apply Z.mul_le_mono_nonneg_r; lia).
  lia.
Qed.

Lemma two_errors_coarse d y u n t c g :
  0 < d -> Z.abs (d * u - n * t) < d * c -> 2 * Z.abs (y - u) <= g ->
  d * g + d * (2 * c) <= t -> 2 * Z.abs (y * d - n * t) < t.
Proof.
  intros Hd E1 E0 B.
  replace (y * d - n * t) with (d * (y - u) + (d * u - n * t)) by ring.
  pose proof (Z.abs_triangle (d * (y - u)) (d * u - n * t)) as Tr.
  rewrite Z.abs_mul, (Z.abs_eq d) in Tr by lia.
  assert (d * (2 * Z.abs (y - u)) <= d * g) by (apply Z.mul_le_mono_nonneg_l; lia).
  lia.
Qed.

Lemma two_errors_fine d u2 n2 y t c g :
  0 < d -> Z.abs (d * u2 - n2 * t) < d * c -> 2 * Z.abs (n2 * t - y * d) <= t ->
  t + d * (2 * c) <= d * g -> 2 * Z.abs (u2 - y) < g.
Proof.
  intros Hd E2 En B.
  apply (Z.mul_lt_mono_pos_l d); [exact Hd|].
  assert (Tr : Z.abs (d * (u2 - y)) <= Z.abs (d * u2 - n2 * t) + Z.abs (n2 * t - y * d)).
  { replace (d * (u2 - y)) with ((d * u2 - n2 * t) + (n2 * t - y * d)) by ring.
    apply Z.abs_triangle. }
  rewrite Z.abs_mul, (Z.abs_eq d) in Tr by lia.
  lia.
Qed.

(** *** Rounding a rounded decimal again

    [d] is the power of ten of the decimals kept, between [2^(l-1)] and
    [2^l].  A decimal [n / d] read back as a binary64 number and rounded
    to the same decimals again reads back as the same number: below
    [2^(53-l)] the first reading is less than half a decimal unit from
    [n / d] and gives [n] back; from there on the decimals are finer
    than the last place, and the second decimal lies less than half a
    last place from the number. *)

Variables d l : Z.
Hypothesis d_lo : 2 ^ (l - 1) < d.
Hypothesis d_hi : d < 2 ^ l.
Hypothesis l_range : 1 <= l <= 53.

Lemma round_twice_pow2 k :
  2148 <= k ->
  round_units
    (Py.sticky_quotient (div_half_even (2 ^ k / 2 ^ 1074 * d) (2 ^ 1074)) d
     * 2 ^ 1067) = 2 ^ k.
Proof.
  intros Hk.
  assert (Hl1 : 0 < 2 ^ (l - 1)) by (apply Z.pow_pos_nonneg; lia).
  assert (Hd : 0 < d) by lia.
  assert (HW : 0 < 2 ^ 1074) by (apply Z.pow_pos_nonneg; lia).
  assert (HK : 0 < 2 ^ (k - 2148)) by (apply Z.pow_pos_nonneg; lia).
  replace (2 ^ k) with (2 ^ (k - 2148) * 2 ^ 1074 * 2 ^ 1074) at 1
    by (rewrite <- !Z.pow_add_r by lia; f_equal; lia).
  rewrite Z.div_mul by lia.
  replace (2 ^ (k - 2148) * 2 ^ 1074 * d) with (d * 2 ^ (k - 2148) * 2 ^ 1074)
    by ring.
  rewrite div_half_even_exact by lia.
  rewrite sticky_quotient_exact by lia.
  replace (2 * (2 ^ (k - 2148) * 2 ^ 1080) * 2 ^ 1067) with (2 ^ k).
  - apply round_units_pow2. lia.
  - change 2 with (2 ^ 1) at 2.
    rewrite <- !Z.pow_add_r by lia. f_equal. lia.
Qed.

(** Where the decimals are coarser than the last place, the decimal is
    read back from the binary64 number. *)
Lemma round_coarse n :
  0 <= n ->
  ulp_exp (Py.sticky_quotient n d * 2 ^ 1067) + l <= 2148 ->
  div_half_even
    (round_units (Py.sticky_quotient n d * 2 ^ 1067) / 2 ^ 1074 * d) (2 ^ 1074) = n.
Proof.
  intros Hn HA.
  assert (Hl1 : 0 < 2 ^ (l - 1)) by (apply Z.pow_pos_nonneg; lia).
  assert (Hd : 0 < d) by lia.
  assert (Hl53 : 2 ^ l <= 2 ^ 53) by (apply Z.pow_le_mono_r; lia).
  set (u := Py.sticky_quotient n d * 2 ^ 1067) in *.
  assert (P67 : 0 < 2 ^ 1067) by (apply Z.pow_pos_nonneg; lia).
  assert (Hu : 0 <= u).
  { unfold u. pose proof (sticky_quotient_nonneg n d Hd Hn).
    apply Z.mul_nonneg_nonneg; lia. }
  pose proof (sticky_quotient_error n d Hd Hn) as Err1. fold u in Err1.
  pose proof (round_units_multiple u Hu) as HY.
  set (y := round_units u) in *.
  assert (HW : 0 < 2 ^ 1074) by (apply Z.pow_pos_nonneg; lia).
  assert (HT : 2 ^ 2148 = 2 ^ 1074 * 2 ^ 1074)
    by (rewrite <- Z.pow_add_r by lia; reflexivity).
  set (Y := y / 2 ^ 1074) in *.
  set (E := ulp_exp u) in *.
  assert (HE : 1074 <= E) by (unfold E, ulp_exp; lia).
  assert (HG : 0 < 2 ^ E) by (apply Z.pow_pos_nonneg; lia).
  assert (Err0 : 2 * Z.abs (y - u) <= 2 ^ E).
  { unfold y, round_units. fold E. apply div_half_even_error. exact HG. }
  apply div_half_even_near; [exact HW|].
  apply half_unit_scaled; [exact HW|].
  replace ((Y * d - n * 2 ^ 1074) * 2 ^ 1074)
    with (y * d - n * (2 ^ 1074 * 2 ^ 1074)) by (rewrite <- HY; ring).
  rewrite <- HT.
  apply (two_errors_coarse d y u n (2 ^ 2148) (2 ^ 1067) (2 ^ E)); auto.
  apply (coarse_bound d (2 ^ l) (2 ^ E) (2 ^ 2148) (2 * 2 ^ 1067) (2 ^ 53));
    auto; try lia;
    first [ rewrite <- Z.pow_add_r by lia; apply Z.pow_le_mono_r; lia
          | vm_compute; discriminate ].
Qed.

Lemma round_twice n :
  0 <= n ->
  let y := round_units (Py.sticky_quotient n d * 2 ^ 1067) in
  let n2 := div_half_even (y / 2 ^ 1074 * d) (2 ^ 1074) in
  round_units (Py.sticky_quotient n2 d * 2 ^ 1067) = y.
Proof.
  intros Hn. cbv zeta.
  assert (Hl1 : 0 < 2 ^ (l - 1)) by (apply Z.pow_pos_nonneg; lia).
  assert (Hd : 0 < d) by lia.
  assert (Hl53 : 2 ^ l <= 2 ^ 53) by (apply Z.pow_le_mono_r; lia).
  set (u := Py.sticky_quotient n d * 2 ^ 1067).
  assert (P67 : 0 < 2 ^ 1067) by (apply Z.pow_pos_nonneg; lia).
  assert (Hu : 0 <= u).
  { unfold u. pose proof (sticky_quotient_nonneg n d Hd Hn).
    apply Z.mul_nonneg_nonneg; lia. }
  pose proof (sticky_quotient_error n d Hd Hn) as Err1. fold u in Err1.
  pose proof (round_units_multiple u Hu) as HY.
  pose proof (round_units_nonneg u Hu) as HY0.
  set (y := round_units u) in *.
  assert (HW : 0 < 2 ^ 1074) by (apply Z.pow_pos_nonneg; lia).
  assert (HT : 2 ^ 2148 = 2 ^ 1074 * 2 ^ 1074)
    by (rewrite <- Z.pow_add_r by lia; reflexivity).
  assert (HY1 : 0 <= y / 2 ^ 1074) by (apply Z.div_pos; lia).
  set (Y := y / 2 ^ 1074) in *.
  set (E := ulp_exp u).
  assert (HE : 1074 <= E) by (unfold E, ulp_exp; lia).
  assert (HG : 0 < 2 ^ E) by (apply Z.pow_pos_nonneg; lia).
  assert (Err0 : 2 * Z.abs (y - u) <= 2 ^ E).
  { unfold y, round_units. fold E. apply div_half_even_error. exact HG. }
  set (n2 := div_half_even (Y * d) (2 ^ 1074)).
  destruct (Z_le_gt_dec (E + l) 2148) as [HA|HB].
  - (* the decimals are coarser than the last place *)
    assert (E2 : n2 = n) by (apply (round_coarse n Hn); exact HA).
    rewrite E2. reflexivity.
  - (* the decimals are finer than the last place *)
    assert (HE' : 2096 <= E) by lia.
    assert (Hu' : 2 ^ 1126 <= u).
    { destruct (Z_lt_le_dec u (2 ^ 1127)) as [Hlt|Hge].
      - pose proof (ulp_exp_below u 1127 (conj Hu Hlt) ltac:(lia)). fold E in H. lia.
      - assert (2 ^ 1126 <= 2 ^ 1127) by (apply Z.pow_le_mono_r; lia). lia. }
    destruct (round_units_normal u Hu') as (q & Hq & Hyq & Elog).
    fold y in Hyq. fold E in Hyq, Elog.
    assert (Hn2 : 0 <= n2).
    { apply div_half_even_nonneg; [exact HW|]. apply Z.mul_nonneg_nonneg; lia. }
    pose proof (sticky_quotient_error n2 d Hd Hn2) as Err2.
    pose proof (div_half_even_error (Y * d) (2 ^ 1074) HW) as Errn. fold n2 in Errn.
    destruct (Z.eq_dec q (2 ^ 52)) as [Q52|N52];
      [|destruct (Z.eq_dec q (2 ^ 53)) as [Q53|N53]].
    + subst q. rewrite <- Z.pow_add_r in Hyq by lia.
      unfold n2, Y. rewrite Hyq. apply round_twice_pow2. lia.
    + subst q. rewrite <- Z.pow_add_r in Hyq by lia.
      unfold n2, Y. rewrite Hyq. apply round_twice_pow2. lia.
    + rewrite Hyq. apply (round_units_near _ q E HE ltac:(lia)).
      rewrite <- Hyq.
      apply (two_errors_fine d _ n2 y (2 ^ 2148) (2 ^ 1067) (2 ^ E)); auto.
      * rewrite HT.
        replace (n2 * (2 ^ 1074 * 2 ^ 1074) - y * d)
          with ((n2 * 2 ^ 1074 - Y * d) * 2 ^ 1074) by (rewrite <- HY; ring).
        now apply half_unit_unscaled.
      * apply (fine_bound d (2 ^ (l - 1)) (2 ^ E) (2 ^ 2148) (2 * 2 ^ 1067));
          auto; try lia.
        -- rewrite <- Z.pow_add_r by lia. apply Z.pow_le_mono_r; lia.
        -- apply Z.le_trans with (2 ^ 53 * (2 * 2 ^ 1067)).
           ++ apply Z.mul_le_mono_nonneg_r; lia.
           ++ apply Z.le_trans with (2 ^ 2096); [vm_compute; discriminate|].
              apply Z.pow_le_mono_r; lia.
Qed.

(** Where the decimals are finer than the last place, a binary64 value
    [v] (in units of [2^-1074]) is read back from its decimal. *)
Lemma round_fine v :
  0 <= v ->
  (forall k, 52 <= k -> 2 ^ k <= v -> exists j, v = j * 2 ^ (k - 52)) ->
  let n := div_half_even (v * d) (2 ^ 1074) in
  2149 <= ulp_exp (Py.sticky_quotient n d * 2 ^ 1067) + l ->
  round_units (Py.sticky_quotient n d * 2 ^ 1067) = v * 2 ^ 1074.
Proof.
  intros Hv Hgrid n HB.
  assert (Hl1 : 0 < 2 ^ (l - 1)) by (apply Z.pow_pos_nonneg; lia).
  assert (Hd : 0 < d) by lia.
  assert (Hl53 : 2 ^ l <= 2 ^ 53) by (apply Z.pow_le_mono_r; lia).
  assert (HW : 0 < 2 ^ 1074) by (apply Z.pow_pos_nonneg; lia).
  assert (HT : 2 ^ 2148 = 2 ^ 1074 * 2 ^ 1074)
    by (rewrite <- Z.pow_add_r by lia; reflexivity).
  assert (P67 : 0 < 2 ^ 1067) by (apply Z.pow_pos_nonneg; lia).
  assert (Hn : 0 <= n).
  { apply div_half_even_nonneg; [exact HW|]. apply Z.mul_nonneg_nonneg; lia. }
  pose proof (sticky_quotient_error n d Hd Hn) as Err2.
  pose proof (div_half_even_error (v * d) (2 ^ 1074) HW) as Errn. fold n in Errn.
  set (u := Py.sticky_quotient n d * 2 ^ 1067) in *.
  assert (Hu : 0 <= u).
  { unfold u. pose proof (sticky_quotient_nonneg n d Hd Hn).
    apply Z.mul_nonneg_nonneg; lia. }
  set (E := ulp_exp u) in *.
  assert (HE' : 2096 <= E) by lia.
  assert (HG : 0 < 2 ^ E) by (apply Z.pow_pos_nonneg; lia).
  assert (Hu' : 2 ^ 1126 <= u).
  { destruct (Z_lt_le_dec u (2 ^ 1127)) as [Hlt|Hge].
    - pose proof (ulp_exp_below u 1127 (conj Hu Hlt) ltac:(lia)). fold E in H. lia.
    - assert (2 ^ 1126 <= 2 ^ 1127) by (apply Z.pow_le_mono_r; lia). lia. }
  assert (Hupos : 0 < u).
  { assert (0 < 2 ^ 1126) by (apply Z.pow_pos_nonneg; lia). lia. }
  assert (Elog : E = Z.log2 u - 52) by (unfold E, ulp_exp in *; lia).
  destruct (Z.log2_spec u Hupos) as [S1 S2].
  replace (Z.log2 u) with (E + 52) in S1 by lia.
  (* the number is less than half a last place away *)
  assert (Near : 2 * Z.abs (u - v * 2 ^ 1074) < 2 ^ E).
  { apply (two_errors_fine d u n (v * 2 ^ 1074) (2 ^ 2148) (2 ^ 1067) (2 ^ E)); auto.
    - rewrite HT.
      replace (n * (2 ^ 1074 * 2 ^ 1074) - v * 2 ^ 1074 * d)
        with ((n * 2 ^ 1074 - v * d) * 2 ^ 1074) by ring.
      now apply half_unit_unscaled.
    - apply (fine_bound d (2 ^ (l - 1)) (2 ^ E) (2 ^ 2148) (2 * 2 ^ 1067));
        auto; try lia.
      + rewrite <- Z.pow_add_r by lia. apply Z.pow_le_mono_r; lia.
      + apply Z.le_trans with (2 ^ 53 * (2 * 2 ^ 1067)).
        * apply Z.mul_le_mono_nonneg_r; lia.
        * apply Z.le_trans with (2 ^ 2096); [vm_compute; discriminate|].
          apply Z.pow_le_mono_r; lia. }
  (* so it lies in the binade of [u], on its grid *)
  assert (HGh : 2 ^ E = 2 * 2 ^ (E - 1)).
  { replace E with (Z.succ (E - 1)) at 1 by lia. apply Z.pow_succ_r. lia. }
  assert (HGh0 : 0 < 2 ^ (E - 1)) by (apply Z.pow_pos_nonneg; lia).
  assert (S1' : 2 ^ (E + 52) = 2 ^ 53 * 2 ^ (E - 1)).
  { rewrite <- Z.pow_add_r by lia. f_equal. lia. }
  assert (Hlow : 2 ^ (E - 1023) <= v).
  { apply (Z.mul_le_mono_pos_r _ _ (2 ^ 1074)); [exact HW|].
    rewrite <- Z.pow_add_r by lia.
    replace (E - 1023 + 1074) with (E + 51) by lia.
    assert (2 ^ (E + 51) = 2 ^ 52 * 2 ^ (E - 1))
      by (rewrite <- Z.pow_add_r by lia; f_equal; lia).
    lia. }
  destruct (Hgrid (E - 1023) ltac:(lia) Hlow) as [j Hj].
  replace (E - 1023 - 52) with (E - 1075) in Hj by lia.
  assert (HvW : v * 2 ^ 1074 = j * 2 ^ (E - 1)).
  { rewrite Hj, <- Z.mul_assoc, <- Z.pow_add_r by lia. do 2 f_equal. lia. }
  assert (Hj53 : 2 ^ 53 <= j).
  { destruct (Z_lt_le_dec j (2 ^ 53)) as [Hlt|]; [|assumption]. exfalso.
    assert (j * 2 ^ (E - 1) <= (2 ^ 53 - 1) * 2 ^ (E - 1))
      by (apply Z.mul_le_mono_nonneg_r; lia).
    lia. }
  assert (Hhigh : 2 ^ (E - 1022) <= v).
  { apply (Z.mul_le_mono_pos_r _ _ (2 ^ 1074)); [exact HW|].
    rewrite <- Z.pow_add_r by lia.
    replace (E - 1022 + 1074) with (E + 52) by lia.
    rewrite HvW, S1'. apply Z.mul_le_mono_nonneg_r; lia. }
  destruct (Hgrid (E - 1022) ltac:(lia) Hhigh) as [q Hq].
  replace (E - 1022 - 52) with (E - 1074) in Hq by lia.
  assert (HvG : v * 2 ^ 1074 = q * 2 ^ E).
  { rewrite Hq, <- Z.mul_assoc, <- Z.pow_add_r by lia. do 2 f_equal. lia. }
  unfold round_units. fold E. rewrite HvG. f_equal.
  apply div_half_even_near; [exact HG|]. rewrite <- HvG. exact Near.
Qed.

(** The sticky quotient of the decimal of [v] is not far below [v]. *)
Lemma read_back_lower vd u n w t c :
  0 < w -> t = w * w -> 2 * Z.abs (n * w - vd) <= w ->
  Z.abs (u - n * t) < c -> vd * w - t - c < u.
Proof.
  intros Hw Ht En Eu.
  assert (2 * Z.abs ((n * w - vd) * w) <= w * w) by now apply half_unit_unscaled.
  replace ((n * w - vd) * w) with (n * t - vd * w) in H by (rewrite Ht; ring).
  assert (0 < w * w) by (apply Z.mul_pos_pos; lia).
  lia.
Qed.

(** A binary64 value from [2^56] on is its own rounding to decimals. *)
Lemma read_back_large v :
  2 ^ 1130 <= v ->
  (forall k, 52 <= k -> 2 ^ k <= v -> exists j, v = j * 2 ^ (k - 52)) ->
  round_units
    (Py.sticky_quotient (div_half_even (v * d) (2 ^ 1074)) d * 2 ^ 1067)
  = v * 2 ^ 1074.
Proof.
  intros Hv Hgrid.
  assert (P0 : 0 < 2 ^ 1130) by (apply Z.pow_pos_nonneg; lia).
  assert (Hl1 : 0 < 2 ^ (l - 1)) by (apply Z.pow_pos_nonneg; lia).
  assert (Hd : 0 < d) by lia.
  assert (HW : 0 < 2 ^ 1074) by (apply Z.pow_pos_nonneg; lia).
  assert (HT : 2 ^ 2148 = 2 ^ 1074 * 2 ^ 1074)
    by (rewrite <- Z.pow_add_r by lia; reflexivity).
  assert (P67 : 0 < 2 ^ 1067) by (apply Z.pow_pos_nonneg; lia).
  apply round_fine; [lia|exact Hgrid|].
  set (n := div_half_even (v * d) (2 ^ 1074)).
  assert (Hn : 0 <= n).
  { apply div_half_even_nonneg; [exact HW|]. apply Z.mul_nonneg_nonneg; lia. }
  pose proof (sticky_quotient_error n d Hd Hn) as Err2.
  pose proof (div_half_even_error (v * d) (2 ^ 1074) HW) as Errn. fold n in Errn.
  set (u := Py.sticky_quotient n d * 2 ^ 1067) in *.
  pose proof (read_back_lower (v * d) (d * u) n (2 ^ 1074) (2 ^ 2148) (d * 2 ^ 1067)
                HW HT Errn Err2) as Low.
  assert (Hbig : 2 ^ 2204 <= v * 2 ^ 1074).
  { replace (2 ^ 2204) with (2 ^ 1130 * 2 ^ 1074)
      by (rewrite <- Z.pow_add_r by lia; reflexivity).
    apply Z.mul_le_mono_nonneg_r; lia. }
  assert (C : 2 ^ 2203 + 2 ^ 2148 + 2 ^ 1067 <= 2 ^ 2204) by (vm_compute; discriminate).
  assert (P48 : 0 < 2 ^ 2148) by (apply Z.pow_pos_nonneg; lia).
  assert (P03 : 0 < 2 ^ 2203) by (apply Z.pow_pos_nonneg; lia).
  assert (Hu : 2 ^ 2203 <= u).
  { apply (Z.mul_le_mono_pos_l _ _ d); [exact Hd|].
    assert (d * 2 ^ 2204 <= v * d * 2 ^ 1074).
    { replace (v * d * 2 ^ 1074) with (d * (v * 2 ^ 1074)) by ring.
      apply Z.mul_le_mono_nonneg_l; lia. }
    assert (2 ^ 2148 <= d * 2 ^ 2148).
    { replace (2 ^ 2148) with (1 * 2 ^ 2148) at 1 by ring.
      apply Z.mul_le_mono_nonneg_r; lia. }
    assert (d * (2 ^ 2203 + 2 ^ 2148 + 2 ^ 1067) <= d * 2 ^ 2204)
      by (apply Z.mul_le_mono_nonneg_l; lia).
    lia. }
  assert (Z.log2 (2 ^ 2203) <= Z.log2 u) by (apply Z.log2_le_mono; exact Hu).
  rewrite Z.log2_pow2 in H by lia.
  unfold ulp_exp. lia.
Qed.

(** Rounding a finite binary64 value to decimals does not overflow. *)
Lemma read_back_finite v :
  0 <= v < inf_units ->
  (forall k, 52 <= k -> 2 ^ k <= v -> exists j, v = j * 2 ^ (k - 52)) ->
  round_units
    (Py.sticky_quotient (div_half_even (v * d) (2 ^ 1074)) d * 2 ^ 1067)
  / 2 ^ 1074 < inf_units.
Proof.
  intros [Hv Hinf] Hgrid.
  assert (Hl1 : 0 < 2 ^ (l - 1)) by (apply Z.pow_pos_nonneg; lia).
  assert (Hd : 0 < d) by lia.
  assert (HW : 0 < 2 ^ 1074) by (apply Z.pow_pos_nonneg; lia).
  assert (P67 : 0 < 2 ^ 1067) by (apply Z.pow_pos_nonneg; lia).
  destruct (Z_le_gt_dec (2 ^ 1130) v) as [Hbig|Hsmall].
  - rewrite read_back_large by assumption. rewrite Z.div_mul by lia. exact Hinf.
  - apply Z.le_lt_trans with (2 ^ 1130); [|unfold inf_units; apply Z.pow_lt_mono_r; lia].
    rewrite <- (Z.div_mul (2 ^ 1130) (2 ^ 1074)) by lia.
    apply Z.div_le_mono; [exact HW|].
    rewrite <- (read_back_large (2 ^ 1130)).
    + apply round_units_mono. split.
      * apply Z.mul_nonneg_nonneg; [|lia].
        apply sticky_quotient_nonneg; [exact Hd|].
        apply div_half_even_nonneg; [exact HW|]. apply Z.mul_nonneg_nonneg; lia.
      * apply Z.mul_le_mono_nonneg_r; [lia|].
        apply sticky_quotient_mono; [exact Hd|].
        apply div_half_even_mono; [exact HW|].
        apply Z.mul_le_mono_nonneg_r; lia.
    + lia.
    + intros k Hk Hle. exists (2 ^ (1130 - (k - 52))).
      assert (k <= 1130).
      { destruct (Z_le_gt_dec k 1130); [assumption|].
        assert (2 ^ 1130 < 2 ^ k) by (apply Z.pow_lt_mono_r; lia). lia. }
      rewrite <- Z.pow_add_r by lia. f_equal. lia.
Qed.

(** Binary64 values more than one decimal unit apart round to different
    numbers. *)
Lemma read_back_lt v1 v2 :
  0 <= v1 ->
  (forall k, 52 <= k -> 2 ^ k <= v1 -> exists j, v1 = j * 2 ^ (k - 52)) ->
  (forall k, 52 <= k -> 2 ^ k <= v2 -> exists j, v2 = j * 2 ^ (k - 52)) ->
  2 ^ 1074 < d * (v2 - v1) ->
  round_units
    (Py.sticky_quotient (div_half_even (v1 * d) (2 ^ 1074)) d * 2 ^ 1067)
  < round_units
    (Py.sticky_quotient (div_half_even (v2 * d) (2 ^ 1074)) d * 2 ^ 1067).
Proof.
  intros Hv1 G1 G2 Hgap.
  assert (Hl1 : 0 < 2 ^ (l - 1)) by (apply Z.pow_pos_nonneg; lia).
  assert (Hd : 0 < d) by lia.
  assert (HW : 0 < 2 ^ 1074) by (apply Z.pow_pos_nonneg; lia).
  assert (P67 : 0 < 2 ^ 1067) by (apply Z.pow_pos_nonneg; lia).
  assert (Hv12 : v1 < v2).
  { destruct (Z_lt_le_dec v1 v2) as [|Hge]; [assumption|]. exfalso.
    assert (d * (v2 - v1) <= d * 0) by (apply Z.mul_le_mono_nonneg_l; lia).
    lia. }
  set (n1 := div_half_even (v1 * d) (2 ^ 1074)).
  set (n2 := div_half_even (v2 * d) (2 ^ 1074)).
  assert (Hn : n1 < n2).
  { apply div_half_even_gap; [exact HW|]. lia. }
  assert (Hn1 : 0 <= n1).
  { apply div_half_even_nonneg; [exact HW|]. apply Z.mul_nonneg_nonneg; lia. }
  set (u1 := Py.sticky_quotient n1 d * 2 ^ 1067).
  set (u2 := Py.sticky_quotient n2 d * 2 ^ 1067).
  assert (Hu1 : 0 <= u1).
  { unfold u1. pose proof (sticky_quotient_nonneg n1 d Hd Hn1).
    apply Z.mul_nonneg_nonneg; lia. }
  assert (Hu12 : u1 <= u2).
  { apply Z.mul_le_mono_nonneg_r; [lia|].
    apply sticky_quotient_mono; [exact Hd|lia]. }
  pose proof (round_units_mono u1 u2 (conj Hu1 Hu12)) as Hle.
  pose proof (ulp_exp_mono u1 u2 (conj Hu1 Hu12)) as HE.
  destruct (Z.eq_dec (round_units u1) (round_units u2)) as [Heq|]; [exfalso|lia].
  destruct (Z_le_gt_dec (ulp_exp u2 + l) 2148) as [C2|F2].
  - pose proof (round_coarse n1 Hn1 ltac:(fold u1; lia)) as R1.
    pose proof (round_coarse n2 ltac:(lia) ltac:(fold u2; lia)) as R2.
    fold u1 in R1. fold u2 in R2. rewrite Heq in R1. lia.
  - pose proof (round_fine v2 ltac:(lia) G2 ltac:(fold n2 u2; lia)) as R2.
    fold n2 u2 in R2.
    destruct (Z_le_gt_dec (ulp_exp u1 + l) 2148) as [C1|F1].
    + pose proof (round_coarse n1 Hn1 ltac:(fold u1; lia)) as R1.
      fold u1 in R1. rewrite Heq, R2, Z.div_mul in R1 by lia.
      fold n2 in R1. lia.
    + pose proof (round_fine v1 Hv1 G1 ltac:(fold n1 u1; lia)) as R1.
      fold n1 u1 in R1. rewrite R1, R2 in Heq.
      apply Z.mul_cancel_r in Heq; lia.
Qed.

End RoundTwice.

Section RoundIdempotent.

(** The decimals of the report: one, two or three. *)
Lemma pow10_bounds nd :
  (1 <= nd <= 3)%nat ->
  exists l, (2 ^ (l - 1) < Py.pow10 nd /\ Py.pow10 nd < 2 ^ l /\ 1 <= l <= 53)%Z.
Proof.
  intros H.
  assert (C : nd = 1%nat \/ nd = 2%nat \/ nd = 3%nat) by lia.
  destruct C as [->|[->| ->]]; [exists 4%Z|exists 7%Z|exists 10%Z];
    vm_compute; repeat split; discriminate.
Qed.

Lemma round_value_twice nd v :
  (1 <= nd <= 3)%nat -> (0 <= v)%Z -> (round_value nd v < inf_units)%Z ->
  round_value nd (round_value nd v) = round_value nd v.
Proof.
  intros Hnd Hv Hfin.
  destruct (pow10_bounds nd Hnd) as (l & Hlo & Hhi & Hl).
  pose proof (pow10_pos nd) as HD.
  assert (HW : (0 < 2 ^ 1074)%Z) by (apply Z.pow_pos_nonneg; lia).
  assert (P67 : (0 < 2 ^ 1067)%Z) by (apply Z.pow_pos_nonneg; lia).
  unfold round_value in *.
  set (n := div_half_even (v * Py.pow10 nd) (2 ^ 1074)) in *.
  assert (Hn : (0 <= n)%Z).
  { apply div_half_even_nonneg; [exact HW|]. nia. }
  pose proof (sticky_quotient_nonneg n _ HD Hn) as Hs.
  set (u := (Py.sticky_quotient n (Py.pow10 nd) * 2 ^ 1067)%Z) in *.
  assert (Hu : (0 <= u)%Z) by (unfold u; nia).
  rewrite (round_signed_pos_eq u Hu) in *.
  rewrite Z.min_l in * by lia.
  pose proof (round_twice (Py.pow10 nd) l Hlo Hhi Hl n Hn) as T.
  cbv zeta in T. fold u in T.
  set (n2 := div_half_even (round_units u / 2 ^ 1074 * Py.pow10 nd) (2 ^ 1074)) in *.
  assert (Hn2 : (0 <= n2)%Z).
  { apply div_half_even_nonneg; [exact HW|].
    assert (0 <= round_units u / 2 ^ 1074)%Z
      by (apply Z.div_pos; [now apply round_units_nonneg|lia]).
    nia. }
  pose proof (sticky_quotient_nonneg n2 _ HD Hn2) as Hs2.
  rewrite round_signed_pos_eq by nia.
  rewrite T. lia.
Qed.

Lemma nonneg_of_finite_false x m e :
  Prim2SF x = S754_finite false m e -> finite x /\ 0 <= x.
Proof.
  intros H. split.
  - apply is_finite_spec. rewrite H. exact I.
  - apply nonneg_of_FV; [rewrite H; discriminate|].
    unfold FV. rewrite H. cbn [SV]. cbv zeta.
    pose proof (Prim2SF_valid x) as Hv. rewrite H in Hv.
    pose proof (SV_finite_bounds _ _ _ Hv). lia.
Qed.

Lemma round_twice_nonneg x nd :
  (1 <= nd <= 3)%nat -> finite x -> 0 <= x ->
  Py.round (Py.round x nd) nd = Py.round x nd.
Proof.
  intros Hnd Fx Hx.
  assert (Hmax : (nd <= Py.NDIGITS_MAX)%nat) by (unfold Py.NDIGITS_MAX; lia).
  pose proof (round_nonneg x nd Hx) as Hy.
  destruct (round_nonneg_FV x nd Hmax Fx Hx) as (_ & Vy).
  set (y := Py.round x nd) in *.
  destruct (nonneg_cases y Hy) as [[s Hz]|[(m & e & Hf)|Hi]].
  - now apply (round_zero y nd s).
  - destruct (nonneg_of_finite_false y m e Hf) as (Fy & _).
    destruct (round_nonneg_FV y nd Hmax Fy Hy) as (N2 & V2).
    pose proof (finite_FV y Fy) as By.
    pose proof (nonneg_FV x Hx) as Hx'.
    rewrite Vy in V2, By. rewrite round_value_twice in V2 by (auto; lia).
    rewrite <- Vy in V2.
    pose proof (round_nonneg y nd Hy) as Hz.
    pose proof (Prim2SF_valid y) as Vly. rewrite Hf in Vly.
    pose proof (SV_finite_bounds _ _ _ Vly) as Bpos.
    assert (Ey : FV y = (Zpos m * 2 ^ (e + 1074))%Z) by (unfold FV; rewrite Hf; reflexivity).
    apply Prim2SF_inj. apply spec_float_eq; auto using Prim2SF_valid.
    + rewrite Hf. discriminate.
    + unfold FV in V2, Ey. pose proof inf_units_pos.
      destruct (nonneg_cases _ Hz) as [[s Hz']|[(m' & e' & Hf')|Hi']].
      * rewrite Hz' in V2. cbn [SV] in V2. lia.
      * rewrite Hf', Hf. reflexivity.
      * rewrite Hi' in V2. cbn [SV] in V2. lia.
  - now apply (round_infinity y nd false).
Qed.

(** Rounding to one, two or three decimals a number that [round] gave
    with as many decimals returns it. *)
Lemma round_idempotent x nd :
  (1 <= nd <= 3)%nat -> Py.round (Py.round x nd) nd = Py.round x nd.
Proof.
  intros Hnd.
  destruct (Prim2SF x) as [s|s| |s m e] eqn:Ex.
  - rewrite (round_zero x nd s Ex). now apply (round_zero x nd s).
  - rewrite (round_infinity x nd s Ex). now apply (round_infinity x nd s).
  - assert (E : Py.round x nd = x).
    { unfold Py.round. rewrite Ex. destruct (_ <? _)%nat; reflexivity. }
    rewrite !E. reflexivity.
  - destruct s.
    + assert (Ex' : Prim2SF (- x) = S754_finite false m e)
        by (rewrite opp_spec, Ex; reflexivity).
      destruct (nonneg_of_finite_false _ m e Ex') as (F & N).
      rewrite <- (opp_involutive x).
      rewrite (round_opp (- x)), (round_opp (Py.round (- x) nd)).
      f_equal. now apply round_twice_nonneg.
    + destruct (nonneg_of_finite_false _ m e Ex) as (F & N).
      now apply round_twice_nonneg.
Qed.

End RoundIdempotent.

(** ** Roundings that differ *)

Section RoundStrictFloat.

(** Numbers at or above zero more than one unit of the last decimal
    apart have different roundings. *)
Lemma round_lt_gap x y nd :
  (1 <= nd <= 3)%nat -> 0 <= x -> x <= y ->
  (2 ^ 1074 < Py.pow10 nd * (FV y - FV x))%Z ->
  Py.round x nd < Py.round y nd.
Proof.
  intros Hnd Hx Hxy Hgap.
  assert (Hmax : (nd <= Py.NDIGITS_MAX)%nat) by (unfold Py.NDIGITS_MAX; lia).
  destruct (pow10_bounds nd Hnd) as (l & Hlo & Hhi & Hl).
  pose proof (pow10_pos nd) as HD.
  pose proof (nonneg_FV x Hx) as Vx.
  assert (HW : (0 < 2 ^ 1074)%Z) by (apply Z.pow_pos_nonneg; lia).
  assert (P67 : (0 < 2 ^ 1067)%Z) by (apply Z.pow_pos_nonneg; lia).
  assert (Vxy : (FV x < FV y)%Z).
  { destruct (Z_lt_le_dec (FV x) (FV y)) as [|Hge]; [assumption|]. exfalso.
    assert (Py.pow10 nd * (FV y - FV x) <= Py.pow10 nd * 0)%Z
      by (apply Z.mul_le_mono_nonneg_l; lia).
    lia. }
  assert (Hy : 0 <= y) by exact (le_trans _ _ _ Hx Hxy).
  pose proof (FV_bounds y) as By.
  assert (Fx : finite x).
  { apply finite_of_FV; [now apply nonneg_not_nan|].
    pose proof inf_units_pos. lia. }
  destruct (round_nonneg_FV x nd Hmax Fx Hx) as (Nx & Rx).
  pose proof (fun k => FV_grid x k Fx) as Gx.
  pose proof (finite_FV x Fx) as Bx.
  pose proof (read_back_finite _ l Hlo Hhi Hl (FV x) ltac:(lia) Gx) as Cx.
  set (ux := (Py.sticky_quotient (div_half_even (FV x * Py.pow10 nd) (2 ^ 1074))
                (Py.pow10 nd) * 2 ^ 1067)%Z) in *.
  assert (Hux : (0 <= ux)%Z).
  { apply Z.mul_nonneg_nonneg; [|lia].
    apply sticky_quotient_nonneg; [exact HD|].
    apply div_half_even_nonneg; [exact HW|]. apply Z.mul_nonneg_nonneg; lia. }
  assert (Rx' : FV (Py.round x nd) = (round_units ux / 2 ^ 1074)%Z).
  { rewrite Rx. unfold round_value. fold ux.
    rewrite round_signed_pos_eq by assumption. apply Z.min_l. lia. }
  destruct (nonneg_finite_or_inf y Hy) as [Fy|Iy].
  - destruct (round_nonneg_FV y nd Hmax Fy Hy) as (Ny & Ry).
    apply ltb_spec_FV. repeat split; auto.
    rewrite Rx', Ry. unfold round_value.
    pose proof (fun k => FV_grid y k Fy) as Gy.
    pose proof (finite_FV y Fy) as By'.
    pose proof (read_back_finite _ l Hlo Hhi Hl (FV y) ltac:(lia) Gy) as Cy.
    pose proof (read_back_lt _ l Hlo Hhi Hl (FV x) (FV y) Vx Gx Gy Hgap) as Lt.
    fold ux in Lt.
    set (uy := (Py.sticky_quotient (div_half_even (FV y * Py.pow10 nd) (2 ^ 1074))
                  (Py.pow10 nd) * 2 ^ 1067)%Z) in *.
    assert (Huy : (0 <= uy)%Z).
    { apply Z.mul_nonneg_nonneg; [|lia].
      apply sticky_quotient_nonneg; [exact HD|].
      apply div_half_even_nonneg; [exact HW|]. apply Z.mul_nonneg_nonneg; lia. }
    rewrite round_signed_pos_eq by assumption.
    rewrite Z.min_l by lia.
    pose proof (round_units_multiple ux Hux) as Mx.
    pose proof (round_units_multiple uy Huy) as My.
    apply (Z.mul_lt_mono_pos_r (2 ^ 1074)); [exact HW|]. lia.
  - rewrite (round_infinity y nd false Iy).
    apply ltb_spec_FV. repeat split; auto.
    + rewrite Iy. discriminate.
    + rewrite Rx', (FV_infinity y Iy). exact Cx.
Qed.

End RoundStrictFloat.

(** ** The gap between unrounded areas *)

Section UnroundedGaps.

(** The gap between two roundings, from the errors of each. *)
Lemma error_gap r1 r2 u1 u2 e :
  (2 ^ 53 * Z.abs (r1 - u1) <= u1 + e ->
   2 ^ 53 * Z.abs (r2 - u2) <= u2 + e ->
   2 ^ 53 * (u2 - u1) - (u1 + u2) - 2 * e <= 2 ^ 53 * (r2 - r1))%Z.
Proof. lia. Qed.

(** The gap between two finite products with a common factor. *)
Lemma mul_gap a h1 h2 :
  finite a -> 0 <= a -> finite h2 -> 0 <= h1 -> h1 <= h2 -> finite (a * h2) ->
  (2 ^ 53 * (FV a * FV h2 - FV a * FV h1) - (FV a * FV h1 + FV a * FV h2)
   - 2 * 2 ^ 1126
   <= 2 ^ 53 * (FV (a * h2) * 2 ^ 1074 - FV (a * h1) * 2 ^ 1074))%Z.
Proof.
  intros Fa Ha Fh2 Hh1 Hle F2.
  assert (Hh2 : 0 <= h2) by exact (le_trans _ _ _ Hh1 Hle).
  assert (Fh1 : finite h1) by (eapply nonneg_le_finite; eauto).
  destruct (mul_le_mono a a h1 h2) as [N1 L1]; auto with float_facts.
  assert (F1 : finite (a * h1)) by (eapply nonneg_le_finite; eauto).
  rewrite (mul_exact_rounding a h1), (mul_exact_rounding a h2) by assumption.
  apply nonneg_FV in Ha, Hh1, Hh2.
  apply error_gap; apply round_units_error; apply Z.mul_nonneg_nonneg; lia.
Qed.

(** The gap between two finite sums. *)
Lemma add_gap x1 y1 x2 y2 :
  0 <= x1 -> x1 <= x2 -> 0 <= y1 -> y1 <= y2 -> finite (x2 + y2) ->
  (2 ^ 53 * ((FV x2 * 2 ^ 1074 + FV y2 * 2 ^ 1074)
             - (FV x1 * 2 ^ 1074 + FV y1 * 2 ^ 1074))
   - ((FV x1 * 2 ^ 1074 + FV y1 * 2 ^ 1074) + (FV x2 * 2 ^ 1074 + FV y2 * 2 ^ 1074))
   - 2 * 2 ^ 1126
   <= 2 ^ 53 * (FV (x2 + y2) * 2 ^ 1074 - FV (x1 + y1) * 2 ^ 1074))%Z.
Proof.
  intros Hx1 Hx Hy1 Hy F2.
  assert (Hx2 : 0 <= x2) by exact (le_trans _ _ _ Hx1 Hx).
  assert (Hy2 : 0 <= y2) by exact (le_trans _ _ _ Hy1 Hy).
  destruct (add_finite_inv x2 y2 Hx2 Hy2 F2) as (Fx2 & Fy2).
  assert (Fx1 : finite x1) by (eapply nonneg_le_finite; eauto).
  assert (Fy1 : finite y1) by (eapply nonneg_le_finite; eauto).
  pose proof (add_le_mono _ _ _ _ Hx1 Hx Hy1 Hy) as L.
  assert (F1 : finite (x1 + y1)).
  { apply (nonneg_le_finite _ (x2 + y2)); auto with float_facts. }
  rewrite (add_exact_rounding x1 y1), (add_exact_rounding x2 y2) by assumption.
  assert (HW : (0 < 2 ^ 1074)%Z) by (apply Z.pow_pos_nonneg; lia).
  apply nonneg_FV in Hx1, Hy1, Hx2, Hy2.
  apply error_gap; apply round_units_error;
    apply Z.add_nonneg_nonneg; apply Z.mul_nonneg_nonneg; lia.
Qed.

(** A height at least [s] above another one, by binary64 addition. *)
Lemma height_step h1 h2 s :
  finite h2 -> 0 <= h1 -> 0 <= s -> h1 + s <= h2 ->
  (2 ^ 53 * (FV h1 * 2 ^ 1074 + FV s * 2 ^ 1074)
   - (FV h1 * 2 ^ 1074 + FV s * 2 ^ 1074) - 2 ^ 1126
   <= 2 ^ 53 * (FV h2 * 2 ^ 1074))%Z.
Proof.
  intros Fh2 Hh1 Hs Hle.
  pose proof (add_nonneg h1 s Hh1 Hs) as N.
  assert (F : finite (h1 + s)) by (eapply nonneg_le_finite; eauto).
  destruct (add_finite_inv h1 s Hh1 Hs F) as (Fh1 & Fs).
  pose proof (add_exact_rounding h1 s Fh1 Fs Hh1 Hs F) as V.
  apply leb_spec_FV in Hle as (_ & _ & Hle).
  assert (HW : (0 < 2 ^ 1074)%Z) by (apply Z.pow_pos_nonneg; lia).
  apply nonneg_FV in Hh1, Hs.
  pose proof (round_units_error (FV h1 * 2 ^ 1074 + FV s * 2 ^ 1074)%Z
                ltac:(apply Z.add_nonneg_nonneg; apply Z.mul_nonneg_nonneg; lia)) as E.
  rewrite <- V in E.
  assert (FV (h1 + s) * 2 ^ 1074 <= FV h2 * 2 ^ 1074)%Z
    by (apply Z.mul_le_mono_nonneg_r; lia).
  lia.
Qed.

End UnroundedGaps.

(** ** Heights five centimetres apart

    Floor areas from 1 to 1 000 000 m2 and heights up to 100 m, the
    second at least 0.05 m above the first: the unrounded areas are more
    than 0.01 m2 apart. *)

Section PracticalRange.

Variables pum h1 h2 : float.
Hypothesis pum_lo : 1 <= pum.
Hypothesis pum_hi : pum <= 1e6.
Hypothesis h1_pos : 0 < h1.
Hypothesis step : h1 + 0.05 <= h2.
Hypothesis h2_hi : h2 <= 100.

Lemma range_area : finite pum /\ 0 < pum.
Proof.
  split.
  - apply (finite_between 1 pum 1e6); auto; reflexivity.
  - apply (lt_le_trans 0 1 pum); [reflexivity|exact pum_lo].
Qed.

Lemma range_heights : finite h1 /\ finite h2 /\ h1 <= h2 /\ 0 <= h2.
Proof.
  assert (H1 : 0 <= h1) by auto with float_facts.
  assert (L : h1 <= h2).
  { eapply le_trans; [|exact step]. apply le_add_r; [exact H1|reflexivity]. }
  assert (H2 : 0 <= h2) by exact (le_trans _ _ _ H1 L).
  assert (F2 : finite h2) by (apply (nonneg_le_finite h2 100); auto; reflexivity).
  repeat split; auto. eapply nonneg_le_finite; eauto.
Qed.

(** The heights are 0.05 apart, up to the rounding of [h1 + 0.05]. *)
Lemma range_height_gap :
  (2 ^ 53 * (FV 0.05 * 2 ^ 1074) - (FV 100 + FV 0.05) * 2 ^ 1074 - 2 ^ 1126
   <= 2 ^ 53 * ((FV h2 - FV h1) * 2 ^ 1074))%Z.
Proof.
  destruct range_heights as (F1 & F2 & L & N2).
  pose proof (height_step h1 h2 0.05 F2 ltac:(auto with float_facts)
                ltac:(reflexivity) step) as S.
  apply leb_spec_FV in L as (_ & _ & L).
  apply leb_spec_FV in h2_hi as (_ & _ & U).
  assert (HW : (0 < 2 ^ 1074)%Z) by (apply Z.pow_pos_nonneg; lia).
  assert ((FV h1 + FV 0.05) * 2 ^ 1074 <= (FV 100 + FV 0.05) * 2 ^ 1074)%Z
    by (apply Z.mul_le_mono_nonneg_r; lia).
  lia.
Qed.

(** The gap of a wall area [pum * c * h], scaled by [2^53 * 2^1074]. *)
Lemma range_product_gap c :
  0 < c -> c <= 1 ->
  finite (pum * c * h2) /\ 0 <= pum * c * h1 /\ pum * c * h1 <= pum * c * h2 /\
  pum * c * h2 <= 1e6 * c * 100 /\
  (FV (1 * c)
   * (2 ^ 53 * (FV 0.05 * 2 ^ 1074) - (FV 100 + FV 0.05) * 2 ^ 1074 - 2 ^ 1126)
   - FV (1e6 * c) * (2 * FV 100) * 2 ^ 1074 - 2 * 2 ^ 1126 * 2 ^ 1074
   <= 2 ^ 53 * 2 ^ 1074
      * ((FV (pum * c * h2) - FV (pum * c * h1)) * 2 ^ 1074))%Z.
Proof.
  intros Pc Hc.
  destruct range_area as (Fp & Pp).
  destruct range_heights as (F1 & F2 & L & N2).
  assert (N1 : 0 <= h1) by auto with float_facts.
  assert (Fc : finite c).
  { apply (finite_between 0 c 1); try reflexivity; auto with float_facts. }
  assert (Nc : 0 <= c) by auto with float_facts.
  destruct (mul_le_mono 1 pum c c) as [Nlo Llo]; auto; try reflexivity;
    auto with float_facts.
  destruct (mul_bounded pum 1e6 c 1) as (Fa & Na & _); try reflexivity;
    auto with float_facts.
  destruct (mul_le_mono pum 1e6 c c) as [_ Lhi]; auto; try reflexivity;
    auto with float_facts.
  assert (Fmax : finite (1e6 * c)).
  { destruct (mul_bounded 1e6 1e6 c 1) as (F & _); try reflexivity;
      auto with float_facts. }
  destruct (mul_bounded (pum * c) (1e6 * 1) h2 100) as (Fg2 & Ng2 & _);
    try reflexivity; auto.
  { eapply le_trans; [exact Lhi|].
    destruct (mul_le_mono 1e6 1e6 c 1) as [_ H]; try reflexivity;
      auto with float_facts. }
  destruct (mul_le_mono (pum * c) (pum * c) h1 h2) as [Ng1 Lg]; auto with float_facts.
  destruct (mul_le_mono (pum * c) (1e6 * c) h2 100) as [_ Lmax]; auto;
    try reflexivity.
  repeat split; auto.
  pose proof (mul_gap (pum * c) h1 h2 Fa Na F2 N1 L Fg2) as G.
  pose proof range_height_gap as HG.
  apply leb_spec_FV in Llo as (_ & _ & Llo).
  apply leb_spec_FV in Lhi as (_ & _ & Lhi).
  apply leb_spec_FV in L as (_ & _ & L).
  apply leb_spec_FV in h2_hi as (_ & _ & U).
  apply nonneg_FV in Nlo, Na, N1, N2.
  assert (HW : (0 < 2 ^ 1074)%Z) by (apply Z.pow_pos_nonneg; lia).
  set (A := FV (pum * c)) in *. set (H1 := FV h1) in *. set (H2 := FV h2) in *.
  set (P1 := FV (pum * c * h1)) in *. set (P2 := FV (pum * c * h2)) in *.
  set (K := (2 ^ 53 * (FV 0.05 * 2 ^ 1074) - (FV 100 + FV 0.05) * 2 ^ 1074
             - 2 ^ 1126)%Z) in *.
  assert (HK : (0 <= K)%Z) by (vm_compute; discriminate).
  set (X := (2 ^ 53 * ((H2 - H1) * 2 ^ 1074))%Z) in *.
  (* the product of the gap *)
  assert (S1 : (FV (1 * c) * K <= A * X)%Z).
  { apply Z.mul_le_mono_nonneg; lia. }
  (* the error terms *)
  assert (S2 : ((A * H1 + A * H2) * 2 ^ 1074
                <= FV (1e6 * c) * (2 * FV 100) * 2 ^ 1074)%Z).
  { apply Z.mul_le_mono_nonneg_r; [lia|].
    replace (A * H1 + A * H2)%Z with (A * (H1 + H2))%Z by ring.
    apply Z.mul_le_mono_nonneg; lia. }
  assert (S3 : ((2 ^ 53 * (A * H2 - A * H1) - (A * H1 + A * H2) - 2 * 2 ^ 1126)
                * 2 ^ 1074
                <= 2 ^ 53 * (P2 * 2 ^ 1074 - P1 * 2 ^ 1074) * 2 ^ 1074)%Z).
  { apply Z.mul_le_mono_nonneg_r; lia. }
  replace ((2 ^ 53 * (A * H2 - A * H1) - (A * H1 + A * H2) - 2 * 2 ^ 1126)
           * 2 ^ 1074)%Z
    with (A * X - (A * H1 + A * H2) * 2 ^ 1074 - 2 * 2 ^ 1126 * 2 ^ 1074)%Z
    in S3 by (unfold X; ring).
  replace (2 ^ 53 * (P2 * 2 ^ 1074 - P1 * 2 ^ 1074) * 2 ^ 1074)%Z
    with (2 ^ 53 * 2 ^ 1074 * ((P2 - P1) * 2 ^ 1074))%Z in S3 by ring.
  lia.
Qed.

(** The unrounded gray areas are more than 0.01 apart. *)
Lemma range_gray_gap :
  0 <= gray_area pum h1 /\ gray_area pum h1 <= gray_area pum h2 /\
  (2 ^ 1074 < 100 * (FV (gray_area pum h2) - FV (gray_area pum h1)))%Z.
Proof.
  unfold gray_area.
  destruct (range_product_gap COEFF_GRAY_LIN) as (F2 & N1 & L & _ & G);
    try reflexivity.
  repeat split; auto.
  set (D := (FV (pum * COEFF_GRAY_LIN * h2) - FV (pum * COEFF_GRAY_LIN * h1))%Z) in *.
  assert (C : (2 ^ 53 * 2 ^ 1074 * (2 ^ 1074 * 2 ^ 1074)
               < 100 * (FV (1 * COEFF_GRAY_LIN)
                        * (2 ^ 53 * (FV 0.05 * 2 ^ 1074)
                           - (FV 100 + FV 0.05) * 2 ^ 1074 - 2 ^ 1126)
                        - FV (1e6 * COEFF_GRAY_LIN) * (2 * FV 100) * 2 ^ 1074
                        - 2 * 2 ^ 1126 * 2 ^ 1074))%Z)
    by (vm_compute; reflexivity).
  assert (HW : (0 < 2 ^ 1074)%Z) by (apply Z.pow_pos_nonneg; lia).
  assert (HP : (0 < 2 ^ 53 * 2 ^ 1074)%Z) by (apply Z.mul_pos_pos; lia).
  destruct (Z_lt_le_dec (2 ^ 1074) (100 * D)) as [|Hle]; [assumption|exfalso].
  assert (2 ^ 53 * 2 ^ 1074 * (100 * D * 2 ^ 1074)
          <= 2 ^ 53 * 2 ^ 1074 * (2 ^ 1074 * 2 ^ 1074))%Z.
  { apply Z.mul_le_mono_nonneg_l; [lia|].
    apply Z.mul_le_mono_nonneg_r; lia. }
  lia.
Qed.

(** The lintels grow with the height and stay below those of the largest
    hall of the range. *)
Lemma range_lintels p q :
  0 <= p -> p <= 1 -> 0 <= q -> q <= 1 ->
  0 <= white_part_lintels pum h1 p q /\
  white_part_lintels pum h1 p q <= white_part_lintels pum h2 p q /\
  white_part_lintels pum h2 p q
  <= 1e6 * COEFF_DOOR_DENSITY * 1.75 * height_above_door 100.
Proof.
  intros Hp0 Hp1 Hq0 Hq1.
  destruct range_area as (Fp & Pp).
  destruct range_heights as (F1 & F2 & L & N2).
  unfold white_part_lintels.
  destruct (lintel_length_facts pum p q Fp Pp Hp0 Hp1 Hq0 Hq1) as (FL & NL).
  destruct (avg_door_width_facts p q Hp0 Hp1 Hq0 Hq1) as (Fa & Na & La).
  destruct (density_facts pum Fp Pp COEFF_DOOR_DENSITY) as (Fc & Nc & _ & _);
    try reflexivity.
  destruct (height_above_door_facts h1 F1) as (Fd1 & Nd1).
  destruct (height_above_door_facts h2 F2) as (Fd2 & Nd2).
  pose proof (height_above_door_mono h1 h2 F1 F2 L) as Ld.
  assert (Ld' : height_above_door h2 <= height_above_door 100).
  { apply height_above_door_mono; auto. reflexivity. }
  destruct (mul_le_mono pum 1e6 COEFF_DOOR_DENSITY COEFF_DOOR_DENSITY)
    as [_ Lc]; try reflexivity; auto with float_facts.
  destruct (mul_le_mono (pum * COEFF_DOOR_DENSITY) (1e6 * COEFF_DOOR_DENSITY)
              (_avg_door_width p q) 1.75) as [_ LL]; try reflexivity; auto.
  destruct (mul_le_mono (pum * COEFF_DOOR_DENSITY * _avg_door_width p q)
              (pum * COEFF_DOOR_DENSITY * _avg_door_width p q)
              (height_above_door h1) (height_above_door h2)) as [N Lm];
    auto with float_facts.
  destruct (mul_le_mono (pum * COEFF_DOOR_DENSITY * _avg_door_width p q)
              (1e6 * COEFF_DOOR_DENSITY * 1.75)
              (height_above_door h2) (height_above_door 100)) as [_ Lmax];
    try reflexivity; auto.
Qed.

(** The unrounded white areas are more than 0.01 apart. *)
Lemma range_white_gap p q :
  0 <= p -> p <= 1 -> 0 <= q -> q <= 1 ->
  0 <= white_area pum h1 p q /\ white_area pum h1 p q <= white_area pum h2 p q /\
  (2 ^ 1074 < 100 * (FV (white_area pum h2 p q) - FV (white_area pum h1 p q)))%Z.
Proof.
  intros Hp0 Hp1 Hq0 Hq1.
  destruct (range_lintels p q Hp0 Hp1 Hq0 Hq1) as (NT & LT & UT).
  unfold white_area, white_part_lower in *.
  destruct (range_product_gap COEFF_KICKER_LIN) as (F2 & N1 & L & U & G);
    try reflexivity.
  set (x1 := pum * COEFF_KICKER_LIN * h1) in *.
  set (x2 := pum * COEFF_KICKER_LIN * h2) in *.
  set (y1 := white_part_lintels pum h1 p q) in *.
  set (y2 := white_part_lintels pum h2 p q) in *.
  assert (N2 : 0 <= x2) by exact (le_trans _ _ _ N1 L).
  assert (NT2 : 0 <= y2) by exact (le_trans _ _ _ NT LT).
  pose proof (add_le_mono _ _ _ _ N2 U NT2 UT) as Usum.
  assert (Fsum : finite (x2 + y2)).
  { eapply nonneg_le_finite; [|exact Usum|reflexivity]. now apply add_nonneg. }
  pose proof (add_gap x1 y1 x2 y2 N1 L NT LT Fsum) as A.
  repeat split; [now apply add_nonneg|now apply add_le_mono|].
  apply leb_spec_FV in U as (_ & _ & U). apply leb_spec_FV in UT as (_ & _ & UT').
  apply leb_spec_FV in L as (_ & _ & L'). apply leb_spec_FV in LT as (_ & _ & LT').
  apply nonneg_FV in N1, NT.
  assert (HW : (0 < 2 ^ 1074)%Z) by (apply Z.pow_pos_nonneg; lia).
  assert (HP : (0 < 2 ^ 53 * 2 ^ 1074)%Z) by (apply Z.mul_pos_pos; lia).
  set (X1 := FV x1) in *. set (X2 := FV x2) in *.
  set (Y1 := FV y1) in *. set (Y2 := FV y2) in *.
  set (D := (FV (x2 + y2) - FV (x1 + y1))%Z) in *.
  set (Xm := FV (1e6 * COEFF_KICKER_LIN * 100)) in *.
  set (Ym := FV (1e6 * COEFF_DOOR_DENSITY * 1.75 * height_above_door 100)) in *.
  set (M := (FV (1 * COEFF_KICKER_LIN)
             * (2 ^ 53 * (FV 0.05 * 2 ^ 1074) - (FV 100 + FV 0.05) * 2 ^ 1074
                - 2 ^ 1126)
             - FV (1e6 * COEFF_KICKER_LIN) * (2 * FV 100) * 2 ^ 1074
             - 2 * 2 ^ 1126 * 2 ^ 1074)%Z) in *.
  assert (C : (2 ^ 53 * 2 ^ 1074 * (2 ^ 1074 * 2 ^ 1074)
               < 100 * (M - 2 * (Xm + Ym) * 2 ^ 1074 * 2 ^ 1074
                        - 2 * 2 ^ 1126 * 2 ^ 1074))%Z)
    by (vm_compute; reflexivity).
  (* the sum of the errors of the two sums *)
  assert (S1 : (((X1 * 2 ^ 1074 + Y1 * 2 ^ 1074) + (X2 * 2 ^ 1074 + Y2 * 2 ^ 1074))
                * 2 ^ 1074
                <= 2 * (Xm + Ym) * 2 ^ 1074 * 2 ^ 1074)%Z).
  { apply Z.mul_le_mono_nonneg_r; [lia|].
    replace ((X1 * 2 ^ 1074 + Y1 * 2 ^ 1074) + (X2 * 2 ^ 1074 + Y2 * 2 ^ 1074))%Z
      with ((X1 + Y1 + X2 + Y2) * 2 ^ 1074)%Z by ring.
    apply Z.mul_le_mono_nonneg_r; lia. }
  assert (S2 : (0 <= 2 ^ 53 * ((Y2 - Y1) * 2 ^ 1074) * 2 ^ 1074)%Z).
  { apply Z.mul_nonneg_nonneg; [|lia].
    apply Z.mul_nonneg_nonneg; [lia|]. apply Z.mul_nonneg_nonneg; lia. }
  assert (S3 : ((2 ^ 53 * ((X2 * 2 ^ 1074 + Y2 * 2 ^ 1074)
                           - (X1 * 2 ^ 1074 + Y1 * 2 ^ 1074))
                 - ((X1 * 2 ^ 1074 + Y1 * 2 ^ 1074) + (X2 * 2 ^ 1074 + Y2 * 2 ^ 1074))
                 - 2 * 2 ^ 1126) * 2 ^ 1074
                <= 2 ^ 53 * (FV (x2 + y2) * 2 ^ 1074 - FV (x1 + y1) * 2 ^ 1074)
                   * 2 ^ 1074)%Z).
  { apply Z.mul_le_mono_nonneg_r; lia. }
  replace (2 ^ 53 * (FV (x2 + y2) * 2 ^ 1074 - FV (x1 + y1) * 2 ^ 1074) * 2 ^ 1074)%Z
    with (2 ^ 53 * 2 ^ 1074 * (D * 2 ^ 1074))%Z in S3 by (unfold D; ring).
  replace ((2 ^ 53 * ((X2 * 2 ^ 1074 + Y2 * 2 ^ 1074)
                      - (X1 * 2 ^ 1074 + Y1 * 2 ^ 1074))
            - ((X1 * 2 ^ 1074 + Y1 * 2 ^ 1074) + (X2 * 2 ^ 1074 + Y2 * 2 ^ 1074))
            - 2 * 2 ^ 1126) * 2 ^ 1074)%Z
    with (2 ^ 53 * 2 ^ 1074 * ((X2 - X1) * 2 ^ 1074)
          + 2 ^ 53 * ((Y2 - Y1) * 2 ^ 1074) * 2 ^ 1074
          - ((X1 * 2 ^ 1074 + Y1 * 2 ^ 1074) + (X2 * 2 ^ 1074 + Y2 * 2 ^ 1074))
            * 2 ^ 1074
          - 2 * 2 ^ 1126 * 2 ^ 1074)%Z in S3 by ring.
  destruct (Z_lt_le_dec (2 ^ 1074) (100 * D)) as [|Hle]; [assumption|exfalso].
  assert (2 ^ 53 * 2 ^ 1074 * (100 * D * 2 ^ 1074)
          <= 2 ^ 53 * 2 ^ 1074 * (2 ^ 1074 * 2 ^ 1074))%Z.
  { apply Z.mul_le_mono_nonneg_l; [lia|].
    apply Z.mul_le_mono_nonneg_r; lia. }
  lia.
Qed.

End PracticalRange.

(** * Properties of the calculator *)

Section Claims.

(** The statements below are about the inputs of the contract: floor
    areas and heights are measurements, so they are finite numbers.  An
    infinite floor area is outside of it: below the clear height of the
    doors the lintel portion is then infinity times zero. *)
Example infinite_floor_area :
  is_nan (white_area_m2 (calculate default_calculator infinity 2.0 0.6 0.4))
  = true.
Proof. by_evaluation. Qed.

(** C1.  For every finite floor area [pum > 0], door-mix shares [p], [q]
    in [[0, 1]] and height [h > 0], the white wall area of the report is
    the lower solid portion plus the lintel portion,
    [round(pum * 0.23 * h + pum * 0.30 * (p * 0.75 + q * 1.0) * max(0, h - 2.1), 2)];
    the lintel portion is never negative, and whenever [h <= 2.1] it is
    zero and the white area is [round(pum * 0.23 * h, 2)]. *)
Theorem C1_white_area self pum h p q :
  finite pum -> 0 < pum -> 0 < h ->
  0 <= p -> p <= 1 -> 0 <= q -> q <= 1 ->
  white_area_m2 (calculate self pum h p q) =
    Py.round (pum * 0.23 * h
              + pum * 0.30 * (p * 0.75 + q * 1.0) * Py.max 0 (h - 2.1)) 2 /\
  white_area_m2 (calculate self pum h p q) =
    Py.round (white_part_lower pum h + white_part_lintels pum h p q) 2 /\
  (finite h -> 0 <= white_part_lintels pum h p q) /\
  (h <= 2.1 ->
   (white_part_lintels pum h p q =? 0) = true /\
   white_area_m2 (calculate self pum h p q) = Py.round (pum * 0.23 * h) 2).
Proof.
  intros Fp Pp Ph Hp0 Hp1 Hq0 Hq1.
  split; [reflexivity|]. split; [reflexivity|]. split.
  { intros Fh. now apply white_part_lintels_nonneg. }
  intros Hlow.
  assert (Fh : finite h).
  { apply (finite_between 0 h 2.1); try reflexivity; auto with float_facts. }
  assert (Z : zero_float (white_part_lintels pum h p q)).
  { unfold white_part_lintels.
    rewrite (height_above_door_low h Ph Hlow).
    apply mul_zero_r; [|apply zero_float_0].
    now apply lintel_length_facts. }
  split; [now apply zero_float_spec|].
  rewrite calculate_fields. cbn [white_area_m2]. unfold white_area.
  rewrite add_zero_r; [reflexivity| |exact Z].
  now apply white_part_lower_nonneg.
Qed.

(** C1 at floor area 130, height 2.0 and mix (0.6, 0.4). *)
Lemma C1_white_area_witness :
  white_area_m2 (calculate default_calculator 130 2.0 0.6 0.4) =
  Py.round (130 * 0.23 * 2.0) 2.
Proof.
  apply (C1_white_area default_calculator 130 2.0 0.6 0.4); reflexivity.
Defined.

(** C2.  For every floor area and height the report has gray wall area
    [round(pum * 0.79 * h, 2)], kicker length [round(pum * 0.23, 2)] and
    door count [round(pum * 0.30, 1)]; for floor area 130 and height 2.7,
    whatever the door mix, these are 277.29, 29.9 and 39.0. *)
Theorem C2_gray_kicker_doors :
  (forall self pum h p q,
     let r := calculate self pum h p q in
     gray_area_m2 r = Py.round (pum * 0.79 * h) 2 /\
     kicker_length_mb r = Py.round (pum * 0.23) 2 /\
     door_count r = Py.round (pum * 0.30) 1) /\
  (forall self p q,
     let r := calculate self 130 2.7 p q in
     gray_area_m2 r = 277.29 /\ kicker_length_mb r = 29.9 /\ door_count r = 39.0).
Proof.
  split.
  - intros. repeat split.
  - intros self p q. rewrite calculate_fields. cbn [gray_area_m2 kicker_length_mb door_count].
    repeat split; vm_compute; reflexivity.
Qed.

(** C3 as stated fails: at floor area 1 and mix (0.5, 0.5) the heights
    3 and 3.001 (both above 2.1) give the same rounded gray area, 2.37,
    and the same rounded white area, 0.93; neither grows strictly. *)
Lemma C3_strict_counterexample :
  let r1 := calculate default_calculator 1 3 0.5 0.5 in
  let r2 := calculate default_calculator 1 3.001 0.5 0.5 in
  (0 <? 1) = true /\ (2.1 <? 3) = true /\ (3 <? 3.001) = true /\
  (gray_area_m2 r1 <? gray_area_m2 r2) = false /\
  (white_area_m2 r1 <? white_area_m2 r2) = false.
Proof. by_evaluation. Qed.

(** C3, amended.  For a fixed finite floor area [pum > 0] and a fixed door
    mix in [[0, 1]], and finite heights [0 < h1 < h2]: the gray area and
    the white area of the report at [h2] are greater than or equal to
    those at [h1], and the kicker length and the door count are the same
    at both.  The areas grow strictly as soon as the unrounded area at
    [h2] exceeds the one at [h1] by more than 0.01, one step of the
    rounding to 2 decimals; this is so for every floor area from 1 to
    1 000 000 and heights up to 100 that are at least 0.05 apart
    ([h1 + 0.05 <= h2]).  Only heights whose areas fall within one
    rounding step can give equal areas. *)
Theorem C3_monotone_in_height self pum h1 h2 p q :
  finite pum -> 0 < pum -> 0 <= p -> p <= 1 -> 0 <= q -> q <= 1 ->
  0 < h1 -> h1 < h2 -> finite h2 ->
  let r1 := calculate self pum h1 p q in
  let r2 := calculate self pum h2 p q in
  gray_area_m2 r1 <= gray_area_m2 r2 /\
  white_area_m2 r1 <= white_area_m2 r2 /\
  kicker_length_mb r1 = kicker_length_mb r2 /\
  door_count r1 = door_count r2 /\
  (more_than_a_cent_above (gray_area pum h1) (gray_area pum h2) ->
   gray_area_m2 r1 < gray_area_m2 r2) /\
  (more_than_a_cent_above (white_area pum h1 p q) (white_area pum h2 p q) ->
   white_area_m2 r1 < white_area_m2 r2) /\
  (1 <= pum -> pum <= 1e6 -> h1 + 0.05 <= h2 -> h2 <= 100 ->
   gray_area_m2 r1 < gray_area_m2 r2 /\ white_area_m2 r1 < white_area_m2 r2).
Proof.
  intros Fp Pp Hp0 Hp1 Hq0 Hq1 Ph1 Hlt Fh2. cbv zeta.
  pose proof (lt_le _ _ Hlt) as Hle. pose proof (lt_le _ _ Ph1) as H01.
  assert (Fh1 : finite h1) by (eapply nonneg_le_finite; eauto).
  assert (Ph2 : 0 <= h2) by exact (le_trans _ _ _ H01 Hle).
  pose proof (gray_area_nonneg pum Fp Pp h1 Fh1 Ph1) as Ng.
  pose proof (white_area_nonneg pum p q Fp Pp Hp0 Hp1 Hq0 Hq1 h1 Fh1 Ph1) as Nw.
  pose proof (gray_area_mono_height pum h1 h2 Fp Pp Ph1 Hle Fh2) as Lg.
  pose proof (white_area_mono_height pum p q h1 h2 Fp Pp Hp0 Hp1 Hq0 Hq1
                Ph1 Hle Fh2) as Lw.
  rewrite !calculate_fields. cbn [gray_area_m2 white_area_m2 kicker_length_mb door_count].
  split; [now apply round_le_mono|].
  split; [now apply round_le_mono|].
  split; [reflexivity|]. split; [reflexivity|].
  split; [|split].
  - intros Gap. apply (round_lt_gap _ _ 2); [lia|exact Ng|exact Lg|exact Gap].
  - intros Gap. apply (round_lt_gap _ _ 2); [lia|exact Nw|exact Lw|exact Gap].
  - intros Lo Hi Step Top.
    destruct (range_gray_gap pum h1 h2 Lo Hi Ph1 Step Top) as (_ & _ & Gg).
    destruct (range_white_gap pum h1 h2 Lo Hi Ph1 Step Top p q Hp0 Hp1 Hq0 Hq1)
      as (_ & _ & Gw).
    split.
    + apply (round_lt_gap _ _ 2); [lia|exact Ng|exact Lg|exact Gg].
    + apply (round_lt_gap _ _ 2); [lia|exact Nw|exact Lw|exact Gw].
Qed.

(** C3, amended, at floor area 130, heights 2.5 and 3.0, mix (0.6, 0.4):
    the areas grow strictly, the unrounded ones being more than 0.01
    apart and the inputs within the range. *)
Lemma C3_monotone_witness :
  let r1 := calculate default_calculator 130 2.5 0.6 0.4 in
  let r2 := calculate default_calculator 130 3.0 0.6 0.4 in
  gray_area_m2 r1 <= gray_area_m2 r2 /\
  white_area_m2 r1 <= white_area_m2 r2 /\
  kicker_length_mb r1 = kicker_length_mb r2 /\
  door_count r1 = door_count r2 /\
  gray_area_m2 r1 < gray_area_m2 r2 /\
  white_area_m2 r1 < white_area_m2 r2 /\
  (gray_area_m2 r1 < gray_area_m2 r2 /\ white_area_m2 r1 < white_area_m2 r2).
Proof.
  destruct (C3_monotone_in_height default_calculator 130 2.5 3.0 0.6 0.4)
    as (G & W & K & D & SG & SW & SR); try reflexivity.
  split; [exact G|]. split; [exact W|]. split; [exact K|]. split; [exact D|].
  split; [apply SG; vm_compute; reflexivity|].
  split; [apply SW; vm_compute; reflexivity|].
  apply SR; reflexivity.
Defined.

(** C4.  For every floor area, heights and door mix, the analysis returns
    the two reports of [calculate] at the two heights, and its
    [savings_total_pln] is the difference of their (already rounded)
    [cost_total_pln] fields, rounded again to 2 decimals; likewise
    [savings_white_pln] and [savings_gray_pln]. *)
Theorem C4_savings self pum ha hb p q :
  let '(r_high, r_low, analysis) :=
    height_sensitivity_analysis self pum ha hb p q in
  r_high = calculate self pum ha p q /\
  r_low = calculate self pum hb p q /\
  dict_get analysis "savings_total_pln" =
    Some (Py.round (cost_total_pln r_high - cost_total_pln r_low) 2) /\
  dict_get analysis "savings_white_pln" =
    Some (Py.round (cost_white_pln r_high - cost_white_pln r_low) 2) /\
  dict_get analysis "savings_gray_pln" =
    Some (Py.round (cost_gray_pln r_high - cost_gray_pln r_low) 2).
Proof. repeat split. Qed.

(** The sensitivity scenario of the driver: floor area 130, heights 3.0
    and 2.5, mix (0.6, 0.4). *)
Example sensitivity_scenario :
  let '(r_high, r_low, analysis) :=
    height_sensitivity_analysis default_calculator 130 3.0 2.5 0.6 0.4 in
  cost_total_pln r_high = 71871.15 /\ cost_total_pln r_low = 64090 /\
  dict_get analysis "savings_total_pln" = Some 7781.15 /\
  dict_get analysis "savings_white_pln" = Some 3467.75 /\
  dict_get analysis "savings_gray_pln" = Some 4313.4.
Proof. by_evaluation. Qed.

(** C5 as stated fails: at floor area 0 (height 2.7, mix (0.5, 0.5)) the
    field [avg_door_width_m] is 0.875, not 0. *)
Lemma C5_avg_width_counterexample :
  avg_door_width_m (calculate default_calculator 0 2.7 0.5 0.5) = 0.875 /\
  (0.875 =? 0) = false.
Proof. by_evaluation. Qed.

(** C5, amended.  If the floor area is zero then, for every finite height,
    every door mix in [[0, 1]] and finite prices, every field of the
    report is zero except [avg_door_width_m], which is
    [round(p * 0.75 + q * 1.0, 3)] whatever the floor area. *)
Theorem C5_zero_floor_area self pum h p q :
  (pum =? 0) = true -> finite h ->
  0 <= p -> p <= 1 -> 0 <= q -> q <= 1 ->
  finite (price_white self) -> finite (price_gray self) ->
  finite (price_kicker self) -> finite (price_door_1m self) ->
  finite (price_door_075m self) ->
  let r := calculate self pum h p q in
  (gray_area_m2 r =? 0) = true /\
  (white_area_m2 r =? 0) = true /\
  (kicker_length_mb r =? 0) = true /\
  (door_count r =? 0) = true /\
  (cost_gray_pln r =? 0) = true /\
  (cost_white_pln r =? 0) = true /\
  (cost_kicker_pln r =? 0) = true /\
  (cost_doors_pln r =? 0) = true /\
  (cost_total_pln r =? 0) = true /\
  avg_door_width_m r = Py.round (p * 0.75 + q * 1.0) 3.
Proof.
  intros Hz Fh Hp0 Hp1 Hq0 Hq1 Fw Fg Fk Fd1 Fd075. cbv zeta.
  apply zero_float_spec in Hz.
  assert (Fp : finite p) by (eapply nonneg_le_finite; eauto; reflexivity).
  assert (Fq : finite q) by (eapply nonneg_le_finite; eauto; reflexivity).
  destruct (avg_door_width_facts p q Hp0 Hp1 Hq0 Hq1) as (Fa & _ & _).
  destruct (height_above_door_facts h Fh) as (Fhab & _).
  assert (Zg : zero_float (gray_area pum h)).
  { unfold gray_area. repeat apply zero_mul_l; auto; reflexivity. }
  assert (Zk : zero_float (pum * COEFF_KICKER_LIN)).
  { apply zero_mul_l; auto; reflexivity. }
  assert (Zc : zero_float (_door_count pum)).
  { unfold _door_count. apply zero_mul_l; auto; reflexivity. }
  assert (Zw : zero_float (white_area pum h p q)).
  { unfold white_area, white_part_lower, white_part_lintels.
    apply zero_add; repeat apply zero_mul_l; auto; reflexivity. }
  assert (Zd : zero_float (_door_cost self (_door_count pum) p q)).
  { unfold _door_cost. cbv zeta.
    apply zero_add; apply zero_mul_l; auto; apply zero_mul_l; auto. }
  assert (Zcg : zero_float (gray_area pum h * price_gray self))
    by (apply zero_mul_l; auto).
  assert (Zcw : zero_float (white_area pum h p q * price_white self))
    by (apply zero_mul_l; auto).
  assert (Zck : zero_float (pum * COEFF_KICKER_LIN * price_kicker self))
    by (apply zero_mul_l; auto).
  assert (Zt : zero_float (gray_area pum h * price_gray self
                           + white_area pum h p q * price_white self
                           + pum * COEFF_KICKER_LIN * price_kicker self
                           + _door_cost self (_door_count pum) p q)).
  { apply zero_add; [apply zero_add; [apply zero_add|]|]; assumption. }
  rewrite calculate_fields.
  cbn [gray_area_m2 white_area_m2 kicker_length_mb door_count avg_door_width_m
       cost_gray_pln cost_white_pln cost_kicker_pln cost_doors_pln cost_total_pln].
  repeat split; apply zero_float_spec; rewrite round_zero_float; assumption.
Qed.

(** C5, amended, at height 2.7, mix (0.5, 0.5) and the default prices. *)
Lemma C5_zero_floor_area_witness :
  let r := calculate default_calculator 0 2.7 0.5 0.5 in
  (gray_area_m2 r =? 0) = true /\
  (white_area_m2 r =? 0) = true /\
  (kicker_length_mb r =? 0) = true /\
  (door_count r =? 0) = true /\
  (cost_gray_pln r =? 0) = true /\
  (cost_white_pln r =? 0) = true /\
  (cost_kicker_pln r =? 0) = true /\
  (cost_doors_pln r =? 0) = true /\
  (cost_total_pln r =? 0) = true /\
  avg_door_width_m r = Py.round (0.5 * 0.75 + 0.5 * 1.0) 3.
Proof.
  apply (C5_zero_floor_area default_calculator 0 2.7 0.5 0.5); reflexivity.
Defined.

(** C6.  Under the default prices, for every finite floor area [pum > 0],
    finite height [h > 0] and door-mix shares in [[0, 1]], the ten numeric
    fields of the report are greater than or equal to 0. *)
Theorem C6_fields_nonneg pum h p q :
  finite pum -> 0 < pum -> finite h -> 0 < h ->
  0 <= p -> p <= 1 -> 0 <= q -> q <= 1 ->
  let r := calculate default_calculator pum h p q in
  0 <= gray_area_m2 r /\ 0 <= white_area_m2 r /\
  0 <= kicker_length_mb r /\ 0 <= door_count r /\
  0 <= avg_door_width_m r /\
  0 <= cost_gray_pln r /\ 0 <= cost_white_pln r /\
  0 <= cost_kicker_pln r /\ 0 <= cost_doors_pln r /\
  0 <= cost_total_pln r.
Proof.
  intros Fp Pp Fh Ph Hp0 Hp1 Hq0 Hq1. cbv zeta.
  pose proof (gray_area_nonneg pum Fp Pp h Fh Ph) as Ng.
  pose proof (white_area_nonneg pum p q Fp Pp Hp0 Hp1 Hq0 Hq1 h Fh Ph) as Nw.
  destruct (density_facts pum Fp Pp COEFF_KICKER_LIN) as (_ & Nk & _ & _);
    try reflexivity.
  destruct (density_facts pum Fp Pp COEFF_DOOR_DENSITY) as (_ & Nc & _ & _);
    try reflexivity.
  destruct (avg_door_width_facts p q Hp0 Hp1 Hq0 Hq1) as (_ & Na & _).
  pose proof (door_cost_nonneg pum p q Fp Pp Hp0 Hp1 Hq0 Hq1) as Nd.
  assert (Ncg : 0 <= gray_area pum h * PRICE_GRAY)
    by (apply mul_nonneg_pos; auto; reflexivity).
  assert (Ncw : 0 <= white_area pum h p q * PRICE_WHITE)
    by (apply mul_nonneg_pos; auto; reflexivity).
  assert (Nck : 0 <= pum * COEFF_KICKER_LIN * PRICE_KICKER)
    by (apply mul_nonneg_pos; auto; reflexivity).
  rewrite calculate_fields.
  cbn [gray_area_m2 white_area_m2 kicker_length_mb door_count avg_door_width_m
       cost_gray_pln cost_white_pln cost_kicker_pln cost_doors_pln cost_total_pln
       price_gray price_white price_kicker default_calculator].
  repeat split; apply round_nonneg; auto.
  apply add_nonneg; [apply add_nonneg; [apply add_nonneg|]|]; assumption.
Qed.

(** C6 at floor area 130, height 2.7 and mix (0.6, 0.4). *)
Lemma C6_fields_nonneg_witness :
  let r := calculate default_calculator 130 2.7 0.6 0.4 in
  0 <= gray_area_m2 r /\ 0 <= white_area_m2 r /\
  0 <= kicker_length_mb r /\ 0 <= door_count r /\
  0 <= avg_door_width_m r /\
  0 <= cost_gray_pln r /\ 0 <= cost_white_pln r /\
  0 <= cost_kicker_pln r /\ 0 <= cost_doors_pln r /\
  0 <= cost_total_pln r.
Proof.
  apply (C6_fields_nonneg 130 2.7 0.6 0.4); reflexivity.
Defined.

(** C7 as stated fails: for floor area 126.5, height 2.5 and mix
    (0.65, 0.35) each of the three fields is more than 5 units away from
    its historical Project B value (217.5, 73.48, 23.75). *)
Lemma C7_project_b_counterexample :
  let r := calculate default_calculator 126.5 2.5 0.65 0.35 in
  (5 <? abs (gray_area_m2 r - 217.5)) = true /\
  (5 <? abs (white_area_m2 r - 73.48)) = true /\
  (5 <? abs (kicker_length_mb r - 23.75)) = true.
Proof. by_evaluation. Qed.

(** C7, amended.  For floor area 126.5, height 2.5 and mix (0.65, 0.35)
    the report has gray area 249.84, white area 85.45 and kicker length
    29.1; they exceed the historical Project B values by 32.34, 11.97
    and 5.35 (to 2 decimals), the discrepancy the driver prints. *)
Theorem C7_project_b_values :
  let r := calculate default_calculator 126.5 2.5 0.65 0.35 in
  gray_area_m2 r = 249.84 /\ white_area_m2 r = 85.45 /\
  kicker_length_mb r = 29.1 /\
  Py.round (gray_area_m2 r - 217.5) 2 = 32.34 /\
  Py.round (white_area_m2 r - 73.48) 2 = 11.97 /\
  Py.round (kicker_length_mb r - 23.75) 2 = 5.35.
Proof. by_evaluation. Qed.

(** C8.  Swapping the two heights of the analysis swaps the two reports
    and negates [savings_white_pln], [savings_gray_pln] and
    [savings_total_pln]. *)
Theorem C8_swap_heights self pum h1 h2 p q :
  let '(ra, rb, d) := height_sensitivity_analysis self pum h1 h2 p q in
  let '(ra', rb', d') := height_sensitivity_analysis self pum h2 h1 p q in
  ra' = rb /\ rb' = ra /\
  forall k,
    In k ["savings_white_pln"; "savings_gray_pln"; "savings_total_pln"]%string ->
    exists v v',
      dict_get d k = Some v /\ dict_get d' k = Some v' /\ negation_of v' v.
Proof.
  unfold height_sensitivity_analysis. cbv zeta.
  split; [reflexivity|]. split; [reflexivity|].
  intros k Hk. cbn [In] in Hk.
  destruct Hk as [<-|[<-|[<-|[]]]];
    (eexists; eexists; split; [reflexivity|]; split; [reflexivity|]);
    apply round_sub_swap.
Qed.

(** C9 as stated fails in binary64: for door count 0.3 and the mix
    (0.25, 0.75), whose sum is exactly 1, [_door_cost] gives
    233.99999999999997 while [0.3 * 780] and [0.3 * 780 * (0.25 + 0.75)]
    are 234; the mix (0.5, 0.5) gives another cost than (0.25, 0.75). *)
Lemma C9_door_cost_counterexample :
  (0.25 + 0.75 =? 1) = true /\
  _door_cost default_calculator 0.3 0.25 0.75 = 233.99999999999997 /\
  0.3 * 780 = 234 /\
  0.3 * 780 * (0.25 + 0.75) = 234 /\
  (_door_cost default_calculator 0.3 0.25 0.75 =? 0.3 * 780) = false /\
  (_door_cost default_calculator 0.3 0.25 0.75
   =? _door_cost default_calculator 0.3 0.5 0.5) = false.
Proof. by_evaluation. Qed.

(** C9, amended.  At the default prices, for a finite door count [n >= 0]
    and shares [p], [q] in [[0, 1]] with a finite cost, [_door_cost] is
    symmetric in the two shares, and it equals [n * 780 * (p + q)] up to
    rounding: the distance between the computed cost and the exact value
    is at most [4 * 2^-53] times the exact value, plus [1564 * 2^-1075].
    Here [exact] is the exact value in units of [2^-2148]. *)
Theorem C9_door_cost_default_prices n p q :
  finite n -> 0 <= n -> 0 <= p -> p <= 1 -> 0 <= q -> q <= 1 ->
  finite (_door_cost default_calculator n p q) ->
  _door_cost default_calculator n p q = _door_cost default_calculator n q p /\
  (let exact := 780 * FV n * (FV p + FV q) in
   2 ^ 53 * Z.abs (FV (_door_cost default_calculator n p q) * 2 ^ 1074 - exact)
   <= 4 * exact + 1564 * 2 ^ 1126)%Z.
Proof.
  intros Fn Nn Hp0 Hp1 Hq0 Hq1 Fc.
  split; [apply door_cost_symmetric|].
  unfold _door_cost in *. cbv zeta in *.
  cbn [price_door_075m price_door_1m default_calculator] in *.
  unfold PRICE_DOOR_075M, PRICE_DOOR_1M in *.
  assert (F780 : finite 780) by reflexivity.
  assert (P780 : 0 < 780) by reflexivity.
  assert (Fn1 : finite (n * 1)) by (rewrite mul_1_r; assumption).
  pose proof (le_refl n (finite_not_nan n Fn)) as Hnn.
  assert (Fp : finite p) by (eapply nonneg_le_finite; eauto; reflexivity).
  assert (Fq : finite q) by (eapply nonneg_le_finite; eauto; reflexivity).
  destruct (mul_bounded n n p 1 Fn ltac:(reflexivity) Fn1 Nn Hnn Hp0 Hp1) as (F1 & N1 & _).
  destruct (mul_bounded n n q 1 Fn ltac:(reflexivity) Fn1 Nn Hnn Hq0 Hq1) as (F3 & N3 & _).
  pose proof (mul_nonneg_pos (n * p) 780 N1 F780 P780) as N2.
  pose proof (mul_nonneg_pos (n * q) 780 N3 F780 P780) as N4.
  destruct (add_finite_inv _ _ N2 N4 Fc) as (F2 & F4).
  pose proof (mul_exact_rounding n p Fn Fp Nn Hp0 F1) as E1.
  pose proof (mul_exact_rounding n q Fn Fq Nn Hq0 F3) as E3.
  pose proof (mul_exact_rounding (n * p) 780 F1 F780 N1 (lt_le 0 780 P780) F2) as E2.
  pose proof (mul_exact_rounding (n * q) 780 F3 F780 N3 (lt_le 0 780 P780) F4) as E4.
  pose proof (add_exact_rounding _ _ F2 F4 N2 N4 Fc) as E5.
  change (FV 780) with (780 * 2 ^ 1074)%Z in E2, E4.
  replace (FV (n * p) * (780 * 2 ^ 1074))%Z with (780 * (FV (n * p) * 2 ^ 1074))%Z in E2 by ring.
  replace (FV (n * q) * (780 * 2 ^ 1074))%Z with (780 * (FV (n * q) * 2 ^ 1074))%Z in E4 by ring.
  apply nonneg_FV in Nn, Hp0, Hq0, N1, N2, N3, N4.
  assert (HA : (0 < 2 ^ 1074)%Z) by (apply pow2_pos; lia).
  assert (HNP : (0 <= FV n * FV p)%Z) by nia.
  assert (HNQ : (0 <= FV n * FV q)%Z) by nia.
  pose proof (round_units_error (FV n * FV p) HNP) as R1.
  pose proof (round_units_error (FV n * FV q) HNQ) as R3.
  rewrite <- E1 in R1. rewrite <- E3 in R3.
  pose proof (round_units_error (780 * (FV (n * p) * 2 ^ 1074)) ltac:(nia)) as R2.
  pose proof (round_units_error (780 * (FV (n * q) * 2 ^ 1074)) ltac:(nia)) as R4.
  rewrite <- E2 in R2. rewrite <- E4 in R4.
  pose proof (round_units_error (FV (n * p * 780) * 2 ^ 1074 + FV (n * q * 780) * 2 ^ 1074)
                ltac:(nia)) as R5.
  rewrite <- E5 in R5.
  cbv zeta.
  replace (780 * FV n * (FV p + FV q))%Z
    with (780 * (FV n * FV p) + 780 * (FV n * FV q))%Z by ring.
  set (a := (FV n * FV p)%Z) in *. set (b := (FV n * FV q)%Z) in *.
  set (T1 := (FV (n * p) * 2 ^ 1074)%Z) in *.
  set (T3 := (FV (n * q) * 2 ^ 1074)%Z) in *.
  set (T2 := (FV (n * p * 780) * 2 ^ 1074)%Z) in *.
  set (T4 := (FV (n * q * 780) * 2 ^ 1074)%Z) in *.
  set (S := (FV (n * p * 780 + n * q * 780) * 2 ^ 1074)%Z) in *.
  assert (HB : (0 < 2 ^ 1126)%Z) by (apply pow2_pos; lia).
  set (A := (2 ^ 1126)%Z) in *.
  clearbody a b T1 T2 T3 T4 S A.
  clear - HNP HNQ R1 R2 R3 R4 R5 HB.
  change (2 ^ 53)%Z with 9007199254740992%Z in *.
  lia.
Qed.

(** C9, amended, at door count 0.3 and the mix (0.25, 0.75). *)
Lemma C9_door_cost_default_prices_witness :
  _door_cost default_calculator 0.3 0.25 0.75
  = _door_cost default_calculator 0.3 0.75 0.25 /\
  (let exact := 780 * FV 0.3 * (FV 0.25 + FV 0.75) in
   2 ^ 53 * Z.abs (FV (_door_cost default_calculator 0.3 0.25 0.75) * 2 ^ 1074 - exact)
   <= 4 * exact + 1564 * 2 ^ 1126)%Z.
Proof.
  apply (C9_door_cost_default_prices 0.3 0.25 0.75); reflexivity.
Defined.

(** C10.  The [door_count] field holds [round(pum * 0.30, 1)], a float;
    for floor area 11 it is 3.3, which is not an integer. *)
Theorem C10_door_count_not_integer :
  (forall self pum h p q,
     door_count (calculate self pum h p q) = Py.round (pum * 0.30) 1) /\
  (forall self h p q, door_count (calculate self 11 h p q) = 3.3) /\
  Py.is_integer 3.3 = false.
Proof.
  split; [reflexivity|]. split.
  - intros. rewrite calculate_fields. cbn [door_count]. vm_compute. reflexivity.
  - vm_compute. reflexivity.
Qed.

End Claims.

(** * Further properties of the calculator *)

Section FurtherProperties.

(** X1.  With positive finite prices, a finite height above zero and a
    door mix in [[0, 1]], the report is monotone in the floor area: for
    [0 < pum1 <= pum2] finite, no quantity and no cost of the report at
    [pum2] is below the one at [pum1]; the average door width is the
    same. *)
Theorem X1_monotone_in_floor_area self pum1 pum2 h p q :
  positive_prices self ->
  0 < pum1 -> pum1 <= pum2 -> finite pum2 -> finite h -> 0 < h ->
  0 <= p -> p <= 1 -> 0 <= q -> q <= 1 ->
  let r1 := calculate self pum1 h p q in
  let r2 := calculate self pum2 h p q in
  gray_area_m2 r1 <= gray_area_m2 r2 /\
  white_area_m2 r1 <= white_area_m2 r2 /\
  kicker_length_mb r1 <= kicker_length_mb r2 /\
  door_count r1 <= door_count r2 /\
  avg_door_width_m r1 = avg_door_width_m r2 /\
  cost_gray_pln r1 <= cost_gray_pln r2 /\
  cost_white_pln r1 <= cost_white_pln r2 /\
  cost_kicker_pln r1 <= cost_kicker_pln r2 /\
  cost_doors_pln r1 <= cost_doors_pln r2 /\
  cost_total_pln r1 <= cost_total_pln r2.
Proof.
  intros prices P1 Hle F2 Fh Ph Hp0 Hp1 Hq0 Hq1.
  pose proof (smaller_area_finite pum1 pum2 P1 Hle F2) as F1.
  pose proof (larger_area_pos pum1 pum2 P1 Hle) as P2.
  destruct (density_facts pum1 F1 P1 COEFF_KICKER_LIN) as (_ & Nk & _ & _);
    try reflexivity.
  destruct (density_facts pum1 F1 P1 COEFF_DOOR_DENSITY) as (_ & Nc & _ & _);
    try reflexivity.
  destruct (density_facts pum2 F2 P2 COEFF_DOOR_DENSITY) as (Fc & _ & _ & _);
    try reflexivity.
  destruct (fields_order self pum1 h pum2 h p q prices)
    as ((_ & G) & (_ & W) & (_ & K) & (_ & D) & (_ & CG) & (_ & CW) & (_ & CK)
        & (_ & CD) & (_ & CT)); auto.
  - now apply gray_area_nonneg.
  - now apply gray_area_mono_area.
  - now apply white_area_nonneg.
  - now apply white_area_mono_area.
  - apply (density_mono pum1 pum2); auto; reflexivity.
  - apply (density_mono pum1 pum2); auto; reflexivity.
  - cbv zeta. repeat split; auto.
Qed.

(** X1 at floor areas 100 and 130, height 2.7, mix (0.6, 0.4). *)
Lemma X1_monotone_in_floor_area_witness :
  let r1 := calculate default_calculator 100 2.7 0.6 0.4 in
  let r2 := calculate default_calculator 130 2.7 0.6 0.4 in
  gray_area_m2 r1 <= gray_area_m2 r2 /\
  white_area_m2 r1 <= white_area_m2 r2 /\
  kicker_length_mb r1 <= kicker_length_mb r2 /\
  door_count r1 <= door_count r2 /\
  avg_door_width_m r1 = avg_door_width_m r2 /\
  cost_gray_pln r1 <= cost_gray_pln r2 /\
  cost_white_pln r1 <= cost_white_pln r2 /\
  cost_kicker_pln r1 <= cost_kicker_pln r2 /\
  cost_doors_pln r1 <= cost_doors_pln r2 /\
  cost_total_pln r1 <= cost_total_pln r2.
Proof.
  apply (X1_monotone_in_floor_area default_calculator 100 130 2.7 0.6 0.4);
    try reflexivity.
  repeat split; reflexivity.
Defined.

(** X2.  With positive finite prices, the costs follow the height: for
    finite heights [0 < h1 <= h2] the cost of the gray wall, of the white
    wall and the total at [h2] are at least those at [h1]; the costs of
    the kicker plate and of the doors do not depend on the height. *)
Theorem X2_costs_monotone_in_height self pum h1 h2 p q :
  positive_prices self ->
  finite pum -> 0 < pum -> 0 <= p -> p <= 1 -> 0 <= q -> q <= 1 ->
  0 < h1 -> h1 <= h2 -> finite h2 ->
  let r1 := calculate self pum h1 p q in
  let r2 := calculate self pum h2 p q in
  cost_gray_pln r1 <= cost_gray_pln r2 /\
  cost_white_pln r1 <= cost_white_pln r2 /\
  cost_kicker_pln r1 = cost_kicker_pln r2 /\
  cost_doors_pln r1 = cost_doors_pln r2 /\
  cost_total_pln r1 <= cost_total_pln r2.
Proof.
  intros prices Fp Pp Hp0 Hp1 Hq0 Hq1 Ph1 Hle Fh2.
  destruct (reports_height_order self pum h1 h2 p q
              prices Fp Pp Hp0 Hp1 Hq0 Hq1 Ph1 Hle Fh2)
    as ((_ & G) & (_ & W) & (_ & T)).
  cbv zeta. repeat split; auto.
Qed.

(** X2 at floor area 130, heights 2.5 and 3.0, mix (0.6, 0.4). *)
Lemma X2_costs_monotone_in_height_witness :
  let r1 := calculate default_calculator 130 2.5 0.6 0.4 in
  let r2 := calculate default_calculator 130 3.0 0.6 0.4 in
  cost_gray_pln r1 <= cost_gray_pln r2 /\
  cost_white_pln r1 <= cost_white_pln r2 /\
  cost_kicker_pln r1 = cost_kicker_pln r2 /\
  cost_doors_pln r1 = cost_doors_pln r2 /\
  cost_total_pln r1 <= cost_total_pln r2.
Proof.
  apply (X2_costs_monotone_in_height default_calculator 130 2.5 3.0 0.6 0.4);
    try reflexivity.
  repeat split; reflexivity.
Defined.

(** X3.  Lowering the hall never costs more: with positive finite prices
    and [0 < height_low <= height_high], when the total at [height_high]
    is finite, the three savings of [height_sensitivity_analysis] are at
    or above zero. *)
Theorem X3_savings_nonneg self pum height_high height_low p q :
  positive_prices self ->
  finite pum -> 0 < pum -> 0 <= p -> p <= 1 -> 0 <= q -> q <= 1 ->
  0 < height_low -> height_low <= height_high -> finite height_high ->
  finite (cost_total_pln (calculate self pum height_high p q)) ->
  let '(_, _, analysis) :=
    height_sensitivity_analysis self pum height_high height_low p q in
  exists w g t,
    dict_get analysis "savings_white_pln" = Some w /\
    dict_get analysis "savings_gray_pln" = Some g /\
    dict_get analysis "savings_total_pln" = Some t /\
    0 <= w /\ 0 <= g /\ 0 <= t.
Proof.
  intros prices Fp Pp Hp0 Hp1 Hq0 Hq1 Pl Hle Fh Ft.
  pose proof (lower_height_finite height_low height_high Pl Hle Fh) as Fl.
  assert (Ph : 0 < height_high) by exact (lt_le_trans _ _ _ Pl Hle).
  destruct (reports_height_order self pum height_low height_high p q
              prices Fp Pp Hp0 Hp1 Hq0 Hq1 Pl Hle Fh)
    as ((G0 & G) & (W0 & W) & (T0 & T)).
  destruct (costs_nonneg self pum height_high p q) as (Ng & Nw & Nk & Nd); auto.
  destruct (parts_below_total self pum height_high p q Ng Nw Nk Nd)
    as (Lg & Lw & _ & _).
  cbv zeta in *.
  set (rh := calculate self pum height_high p q) in *.
  set (rl := calculate self pum height_low p q) in *.
  assert (Fg : finite (cost_gray_pln rh)).
  { apply (nonneg_le_finite _ (cost_total_pln rh)); auto.
    exact (le_trans _ _ _ G0 G). }
  assert (Fw : finite (cost_white_pln rh)).
  { apply (nonneg_le_finite _ (cost_total_pln rh)); auto.
    exact (le_trans _ _ _ W0 W). }
  assert (Fgl : finite (cost_gray_pln rl)) by (eapply nonneg_le_finite; eauto).
  assert (Fwl : finite (cost_white_pln rl)) by (eapply nonneg_le_finite; eauto).
  assert (Ftl : finite (cost_total_pln rl)) by (eapply nonneg_le_finite; eauto).
  unfold height_sensitivity_analysis. cbv zeta. fold rh rl.
  do 3 eexists.
  split; [reflexivity|]. split; [reflexivity|]. split; [reflexivity|].
  split; [|split]; apply round_nonneg; now apply sub_nonneg.
Qed.

(** X3 at floor area 130, heights 3.0 and 2.5, mix (0.6, 0.4). *)
Lemma X3_savings_nonneg_witness :
  let '(_, _, analysis) :=
    height_sensitivity_analysis default_calculator 130 3.0 2.5 0.6 0.4 in
  exists w g t,
    dict_get analysis "savings_white_pln" = Some w /\
    dict_get analysis "savings_gray_pln" = Some g /\
    dict_get analysis "savings_total_pln" = Some t /\
    0 <= w /\ 0 <= g /\ 0 <= t.
Proof.
  apply (X3_savings_nonneg default_calculator 130 3.0 2.5 0.6 0.4);
    try reflexivity.
  repeat split; reflexivity.
Defined.

(** X4.  Comparing a height with itself: the two reports of
    [height_sensitivity_analysis] are the same and, when their white,
    gray and total costs are finite, the three savings are [0.0]. *)
Theorem X4_equal_heights_no_savings self pum h p q :
  finite (cost_white_pln (calculate self pum h p q)) ->
  finite (cost_gray_pln (calculate self pum h p q)) ->
  finite (cost_total_pln (calculate self pum h p q)) ->
  let '(r_high, r_low, analysis) :=
    height_sensitivity_analysis self pum h h p q in
  r_high = r_low /\
  dict_get analysis "savings_white_pln" = Some 0 /\
  dict_get analysis "savings_gray_pln" = Some 0 /\
  dict_get analysis "savings_total_pln" = Some 0.
Proof.
  intros Fw Fg Ft.
  unfold height_sensitivity_analysis. cbv zeta.
  split; [reflexivity|].
  cbn [dict_get String.eqb Ascii.eqb Bool.eqb].
  rewrite (sub_diag _ Fw), (sub_diag _ Fg), (sub_diag _ Ft),
    (round_zero_float 0 2 zero_float_0).
  auto.
Qed.

(** X4 at floor area 130, height 2.7, mix (0.6, 0.4). *)
Lemma X4_equal_heights_no_savings_witness :
  let '(r_high, r_low, analysis) :=
    height_sensitivity_analysis default_calculator 130 2.7 2.7 0.6 0.4 in
  r_high = r_low /\
  dict_get analysis "savings_white_pln" = Some 0 /\
  dict_get analysis "savings_gray_pln" = Some 0 /\
  dict_get analysis "savings_total_pln" = Some 0.
Proof.
  apply (X4_equal_heights_no_savings default_calculator 130 2.7 0.6 0.4);
    reflexivity.
Defined.

(** X5.  For every table of positive finite prices given to the
    constructor, a finite floor area and height above zero and a door mix
    in [[0, 1]]: every field of the report is at or above zero, and each
    of the four costs is at most the total. *)
Theorem X5_costs_within_total self pum h p q :
  positive_prices self ->
  finite pum -> 0 < pum -> finite h -> 0 < h ->
  0 <= p -> p <= 1 -> 0 <= q -> q <= 1 ->
  let r := calculate self pum h p q in
  0 <= gray_area_m2 r /\ 0 <= white_area_m2 r /\
  0 <= kicker_length_mb r /\ 0 <= door_count r /\
  0 <= avg_door_width_m r /\
  0 <= cost_gray_pln r /\ 0 <= cost_white_pln r /\
  0 <= cost_kicker_pln r /\ 0 <= cost_doors_pln r /\
  0 <= cost_total_pln r /\
  cost_gray_pln r <= cost_total_pln r /\
  cost_white_pln r <= cost_total_pln r /\
  cost_kicker_pln r <= cost_total_pln r /\
  cost_doors_pln r <= cost_total_pln r.
Proof.
  intros prices Fp Pp Fh Ph Hp0 Hp1 Hq0 Hq1.
  destruct (costs_nonneg self pum h p q) as (Ng & Nw & Nk & Nd); auto.
  destruct (parts_below_total self pum h p q Ng Nw Nk Nd) as (Lg & Lw & Lk & Ld).
  destruct (density_facts pum Fp Pp COEFF_KICKER_LIN) as (_ & Nk' & _ & _);
    try reflexivity.
  destruct (density_facts pum Fp Pp COEFF_DOOR_DENSITY) as (Fc & Nc & _ & _);
    try reflexivity.
  destruct (avg_door_width_facts p q Hp0 Hp1 Hq0 Hq1) as (_ & Na & _).
  destruct (fields_order self pum h pum h p q prices)
    as ((G & _) & (W & _) & (K & _) & (D & _) & (CG & _) & (CW & _) & (CK & _)
        & (CD & _) & (CT & _)); auto with float_facts.
  - now apply gray_area_nonneg.
  - apply le_refl, nonneg_not_nan. now apply gray_area_nonneg.
  - now apply white_area_nonneg.
  - apply le_refl, nonneg_not_nan. now apply white_area_nonneg.
  - cbv zeta in *. repeat split; auto.
    rewrite calculate_fields. cbn [avg_door_width_m]. now apply round_nonneg.
Qed.

(** X5 at prices (95.5, 70, 64.25, 820, 640), floor area 130, height
    2.7, mix (0.6, 0.4). *)
Lemma X5_costs_within_total_witness :
  let r := calculate (mkCalculator 95.5 70 64.25 820 640) 130 2.7 0.6 0.4 in
  0 <= gray_area_m2 r /\ 0 <= white_area_m2 r /\
  0 <= kicker_length_mb r /\ 0 <= door_count r /\
  0 <= avg_door_width_m r /\
  0 <= cost_gray_pln r /\ 0 <= cost_white_pln r /\
  0 <= cost_kicker_pln r /\ 0 <= cost_doors_pln r /\
  0 <= cost_total_pln r /\
  cost_gray_pln r <= cost_total_pln r /\
  cost_white_pln r <= cost_total_pln r /\
  cost_kicker_pln r <= cost_total_pln r /\
  cost_doors_pln r <= cost_total_pln r.
Proof.
  apply (X5_costs_within_total (mkCalculator 95.5 70 64.25 820 640)
           130 2.7 0.6 0.4); try reflexivity.
  repeat split; reflexivity.
Defined.

(** X6.  Doors of one width.  With positive finite prices and a finite
    floor area above zero, the mix [(1, 0)] costs the door count times
    the price of the 0.75 m door, and the mix [(0, 1)] the door count
    times the price of the 1 m door, with no trace of the other price;
    the average widths are 0.75 and 1.0. *)
Theorem X6_single_width_mix self pum h :
  positive_prices self -> finite pum -> 0 < pum ->
  let r075 := calculate self pum h 1 0 in
  let r1m := calculate self pum h 0 1 in
  cost_doors_pln r075 = Py.round (_door_count pum * price_door_075m self) 2 /\
  cost_doors_pln r1m = Py.round (_door_count pum * price_door_1m self) 2 /\
  avg_door_width_m r075 = 0.75 /\ avg_door_width_m r1m = 1.0.
Proof.
  intros prices Fp Pp.
  destruct prices as (_ & _ & _ & (Fd1 & Pd1) & (Fd075 & Pd075)).
  destruct (density_facts pum Fp Pp COEFF_DOOR_DENSITY) as (Fn & Nn & Sn & _);
    try reflexivity.
  fold (_door_count pum) in Fn, Nn, Sn.
  cbv zeta. rewrite !calculate_fields.
  cbn [cost_doors_pln avg_door_width_m].
  assert (Z0 : zero_float (_door_count pum * 0)).
  { apply mul_zero_r; [exact Fn|apply zero_float_0]. }
  assert (E1 : _door_count pum * 1 = _door_count pum) by now apply mul_1_r.
  repeat split.
  - f_equal. unfold _door_cost. cbv zeta. rewrite E1.
    apply add_zero_r.
    + apply mul_pos_sign; auto with float_facts.
    + now apply zero_mul_l.
  - f_equal. unfold _door_cost. cbv zeta. rewrite E1.
    rewrite add_comm. apply add_zero_r.
    + apply mul_pos_sign; auto with float_facts.
    + now apply zero_mul_l.
Qed.

(** X6 at door prices 900 (1 m) and 650 (0.75 m), floor area 130. *)
Lemma X6_single_width_mix_witness :
  let self := mkCalculator 110 84 81 900 650 in
  let r075 := calculate self 130 2.7 1 0 in
  let r1m := calculate self 130 2.7 0 1 in
  cost_doors_pln r075 = Py.round (_door_count 130 * 650) 2 /\
  cost_doors_pln r1m = Py.round (_door_count 130 * 900) 2 /\
  avg_door_width_m r075 = 0.75 /\ avg_door_width_m r1m = 1.0.
Proof.
  apply (X6_single_width_mix (mkCalculator 110 84 81 900 650) 130 2.7);
    try reflexivity.
  repeat split; reflexivity.
Defined.

(** X7.  The report is monotone in the door mix: raising either share
    (within [[0, 1]]) lowers neither the average door width, the white
    area, the cost of the white wall, the cost of the doors nor the
    total, and leaves the gray wall, the kicker plate and the door count
    as they are. *)
Theorem X7_monotone_in_door_mix self pum h p1 q1 p2 q2 :
  positive_prices self ->
  finite pum -> 0 < pum -> finite h -> 0 < h ->
  0 <= p1 -> p1 <= p2 -> p2 <= 1 -> 0 <= q1 -> q1 <= q2 -> q2 <= 1 ->
  let r1 := calculate self pum h p1 q1 in
  let r2 := calculate self pum h p2 q2 in
  gray_area_m2 r1 = gray_area_m2 r2 /\
  kicker_length_mb r1 = kicker_length_mb r2 /\
  door_count r1 = door_count r2 /\
  cost_gray_pln r1 = cost_gray_pln r2 /\
  cost_kicker_pln r1 = cost_kicker_pln r2 /\
  avg_door_width_m r1 <= avg_door_width_m r2 /\
  white_area_m2 r1 <= white_area_m2 r2 /\
  cost_white_pln r1 <= cost_white_pln r2 /\
  cost_doors_pln r1 <= cost_doors_pln r2 /\
  cost_total_pln r1 <= cost_total_pln r2.
Proof.
  intros prices Fp Pp Fh Ph Hp0 Hp Hp1 Hq0 Hq Hq1.
  destruct (smaller_shares p1 p2 q1 q2 Hp0 Hp Hp1 Hq0 Hq Hq1)
    as ((Hp1' & Fp1) & (Hq1' & Fq1)).
  destruct (avg_door_width_facts p1 q1 Hp0 Hp1' Hq0 Hq1') as (_ & Na & _).
  pose proof (avg_door_width_mono p1 p2 q1 q2 Hp0 Hp Hp1 Hq0 Hq Hq1) as La.
  pose proof (white_area_nonneg pum p1 q1 Fp Pp Hp0 Hp1' Hq0 Hq1' h Fh Ph) as Nw.
  pose proof (white_area_mono_mix p1 p2 q1 q2 Hp0 Hp Hp1 Hq0 Hq Hq1 pum h
                Fp Pp Fh Ph) as Lw.
  destruct (density_facts pum Fp Pp COEFF_DOOR_DENSITY) as (Fc & Nc & _ & _);
    try reflexivity.
  destruct (door_cost_mono_mix p1 p2 q1 q2 Hp0 Hp Hp1 Hq0 Hq Hq1 self
              (_door_count pum) prices Fc Nc) as (Nd & Ld).
  destruct (costs_nonneg self pum h p1 q1) as (Cg & Cw & Ck & _); auto.
  pose proof prices as ((Fw & Pw) & _).
  pose proof (mul_le_mono_pos_r _ _ _ Nw Lw Fw Pw) as Lcw.
  destruct (sum4_mono _ _ _ _ _ _ _ _
              Cg (le_refl _ (nonneg_not_nan _ Cg)) Cw Lcw
              Ck (le_refl _ (nonneg_not_nan _ Ck)) Nd Ld) as (Nt & Lt).
  cbv zeta. rewrite !calculate_fields.
  cbn [gray_area_m2 white_area_m2 kicker_length_mb door_count avg_door_width_m
       cost_gray_pln cost_white_pln cost_kicker_pln cost_doors_pln cost_total_pln].
  repeat split; first [reflexivity|now apply round_le_mono].
Qed.

(** X7 at floor area 130, height 2.7, mixes (0.5, 0.25) and (0.5, 0.5). *)
Lemma X7_monotone_in_door_mix_witness :
  let r1 := calculate default_calculator 130 2.7 0.5 0.25 in
  let r2 := calculate default_calculator 130 2.7 0.5 0.5 in
  gray_area_m2 r1 = gray_area_m2 r2 /\
  kicker_length_mb r1 = kicker_length_mb r2 /\
  door_count r1 = door_count r2 /\
  cost_gray_pln r1 = cost_gray_pln r2 /\
  cost_kicker_pln r1 = cost_kicker_pln r2 /\
  avg_door_width_m r1 <= avg_door_width_m r2 /\
  white_area_m2 r1 <= white_area_m2 r2 /\
  cost_white_pln r1 <= cost_white_pln r2 /\
  cost_doors_pln r1 <= cost_doors_pln r2 /\
  cost_total_pln r1 <= cost_total_pln r2.
Proof.
  apply (X7_monotone_in_door_mix default_calculator 130 2.7 0.5 0.25 0.5 0.5);
    try reflexivity.
  repeat split; reflexivity.
Defined.

(** X8.  The report is monotone in the prices: between two tables of
    positive finite prices, the second at least the first price by price,
    the quantities of the report are the same and no cost goes down. *)
Theorem X8_monotone_in_prices self other pum h p q :
  positive_prices self -> positive_prices other -> prices_le self other ->
  finite pum -> 0 < pum -> finite h -> 0 < h ->
  0 <= p -> p <= 1 -> 0 <= q -> q <= 1 ->
  let r1 := calculate self pum h p q in
  let r2 := calculate other pum h p q in
  gray_area_m2 r1 = gray_area_m2 r2 /\
  white_area_m2 r1 = white_area_m2 r2 /\
  kicker_length_mb r1 = kicker_length_mb r2 /\
  door_count r1 = door_count r2 /\
  avg_door_width_m r1 = avg_door_width_m r2 /\
  cost_gray_pln r1 <= cost_gray_pln r2 /\
  cost_white_pln r1 <= cost_white_pln r2 /\
  cost_kicker_pln r1 <= cost_kicker_pln r2 /\
  cost_doors_pln r1 <= cost_doors_pln r2 /\
  cost_total_pln r1 <= cost_total_pln r2.
Proof.
  intros prices prices' (Lw & Lg & Lk & Ld1 & Ld075) Fp Pp Fh Ph Hp0 Hp1 Hq0 Hq1.
  destruct (costs_nonneg self pum h p q) as (Cg & Cw & Ck & Cd); auto.
  pose proof (gray_area_nonneg pum Fp Pp h Fh Ph) as Ng.
  pose proof (white_area_nonneg pum p q Fp Pp Hp0 Hp1 Hq0 Hq1 h Fh Ph) as Nw.
  destruct (density_facts pum Fp Pp COEFF_KICKER_LIN) as (_ & Nk & _ & _);
    try reflexivity.
  destruct (density_facts pum Fp Pp COEFF_DOOR_DENSITY) as (Fc & Nc & _ & _);
    try reflexivity.
  fold (_door_count pum) in Fc, Nc.
  assert (Fp' : finite p) by (eapply nonneg_le_finite; eauto; reflexivity).
  assert (Fq' : finite q) by (eapply nonneg_le_finite; eauto; reflexivity).
  destruct prices as ((_ & Pw) & (_ & Pg) & (_ & Pk) & (_ & Pd1) & (_ & Pd075)).
  destruct prices' as ((Fw & _) & (Fg & _) & (Fk & _) & (Fd1 & _) & (Fd075 & _)).
  pose proof (mul_le_mono_pos_l _ _ _ Ng Pg Lg Fg) as Mg.
  pose proof (mul_le_mono_pos_l _ _ _ Nw Pw Lw Fw) as Mw.
  pose proof (mul_le_mono_pos_l _ _ _ Nk Pk Lk Fk) as Mk.
  assert (Md : _door_cost self (_door_count pum) p q
               <= _door_cost other (_door_count pum) p q).
  { unfold _door_cost. cbv zeta.
    pose proof (mul_nonneg _ _ Fc Fp' Nc Hp0) as N075.
    pose proof (mul_nonneg _ _ Fc Fq' Nc Hq0) as N1m.
    apply add_le_mono.
    - apply mul_nonneg_pos; auto.
      apply (nonneg_le_finite _ (price_door_075m other)); auto with float_facts.
    - now apply mul_le_mono_pos_l.
    - apply mul_nonneg_pos; auto.
      apply (nonneg_le_finite _ (price_door_1m other)); auto with float_facts.
    - now apply mul_le_mono_pos_l. }
  destruct (sum4_mono _ _ _ _ _ _ _ _ Cg Mg Cw Mw Ck Mk Cd Md) as (Nt & Lt).
  cbv zeta. rewrite !calculate_fields.
  cbn [gray_area_m2 white_area_m2 kicker_length_mb door_count avg_door_width_m
       cost_gray_pln cost_white_pln cost_kicker_pln cost_doors_pln cost_total_pln].
  repeat split; first [reflexivity|now apply round_le_mono].
Qed.

(** X8 at the default prices and (120, 84, 90, 800, 780). *)
Lemma X8_monotone_in_prices_witness :
  let r1 := calculate default_calculator 130 2.7 0.6 0.4 in
  let r2 := calculate (mkCalculator 120 84 90 800 780) 130 2.7 0.6 0.4 in
  gray_area_m2 r1 = gray_area_m2 r2 /\
  white_area_m2 r1 = white_area_m2 r2 /\
  kicker_length_mb r1 = kicker_length_mb r2 /\
  door_count r1 = door_count r2 /\
  avg_door_width_m r1 = avg_door_width_m r2 /\
  cost_gray_pln r1 <= cost_gray_pln r2 /\
  cost_white_pln r1 <= cost_white_pln r2 /\
  cost_kicker_pln r1 <= cost_kicker_pln r2 /\
  cost_doors_pln r1 <= cost_doors_pln r2 /\
  cost_total_pln r1 <= cost_total_pln r2.
Proof.
  apply (X8_monotone_in_prices default_calculator (mkCalculator 120 84 90 800 780)
           130 2.7 0.6 0.4); try reflexivity.
  - repeat split; reflexivity.
  - repeat split; reflexivity.
  - repeat split; reflexivity.
Defined.

(** X9.  For shares at or above zero whose binary64 sum [p + q] is one,
    the average door width lies between the two door widths, 0.75 and
    1.0, before and after the rounding of the report. *)
Theorem X9_avg_door_width_in_range self pum h p q :
  0 <= p -> 0 <= q -> p + q <= 1 -> 1 <= p + q ->
  0.75 <= _avg_door_width p q /\ _avg_door_width p q <= 1 /\
  0.75 <= avg_door_width_m (calculate self pum h p q) /\
  avg_door_width_m (calculate self pum h p q) <= 1.
Proof.
  intros Hp Hq Hhi Hlo.
  pose proof (avg_door_width_ge_075 p q Hp Hq Hhi Hlo) as L.
  pose proof (avg_door_width_le_1 p q Hp Hq Hhi) as U.
  repeat split; auto.
  - rewrite calculate_fields. cbn [avg_door_width_m].
    change 0.75 with (Py.round 0.75 3) at 1.
    apply round_le_mono; [reflexivity|assumption].
  - rewrite calculate_fields. cbn [avg_door_width_m].
    change 1%float with (Py.round 1 3).
    apply round_le_mono; [|assumption].
    apply (le_trans _ 0.75); [reflexivity|assumption].
Qed.

(** X9 at the mix (0.7, 0.3), whose exact sum is below one. *)
Lemma X9_avg_door_width_in_range_witness :
  0.75 <= _avg_door_width 0.7 0.3 /\ _avg_door_width 0.7 0.3 <= 1 /\
  0.75 <= avg_door_width_m (calculate default_calculator 130 2.7 0.7 0.3) /\
  avg_door_width_m (calculate default_calculator 130 2.7 0.7 0.3) <= 1.
Proof.
  apply (X9_avg_door_width_in_range default_calculator 130 2.7 0.7 0.3);
    reflexivity.
Defined.


(** X11.  A floor area that is not a number is not rejected: every
    quantity and every cost of the report is NaN; the average door width
    does not depend on the floor area. *)
Theorem X11_nan_floor_area self h p q :
  let r := calculate self nan h p q in
  gray_area_m2 r = nan /\ white_area_m2 r = nan /\
  kicker_length_mb r = nan /\ door_count r = nan /\
  avg_door_width_m r = Py.round (_avg_door_width p q) 3 /\
  cost_gray_pln r = nan /\ cost_white_pln r = nan /\
  cost_kicker_pln r = nan /\ cost_doors_pln r = nan /\
  cost_total_pln r = nan.
Proof.
  cbv zeta. rewrite calculate_fields.
  cbn [gray_area_m2 white_area_m2 kicker_length_mb door_count avg_door_width_m
       cost_gray_pln cost_white_pln cost_kicker_pln cost_doors_pln cost_total_pln].
  unfold gray_area, white_area, white_part_lower, white_part_lintels,
    _door_cost, _door_count. cbv zeta.
  repeat first [rewrite nan_mul_l|rewrite nan_add_l|rewrite round_nan].
  repeat split; reflexivity.
Qed.

(** X12.  A hall of height zero: with positive finite prices, a finite
    floor area above zero and a door mix in [[0, 1]], the gray and white
    areas and their costs are [0.0], and the total is the cost of the
    kicker plate and of the doors. *)
Theorem X12_zero_height self pum p q :
  positive_prices self -> finite pum -> 0 < pum ->
  0 <= p -> p <= 1 -> 0 <= q -> q <= 1 ->
  let r := calculate self pum 0 p q in
  gray_area_m2 r = 0 /\ white_area_m2 r = 0 /\
  cost_gray_pln r = 0 /\ cost_white_pln r = 0 /\
  cost_total_pln r =
    Py.round (pum * COEFF_KICKER_LIN * price_kicker self
              + _door_cost self (_door_count pum) p q) 2.
Proof.
  intros prices Fp Pp Hp0 Hp1 Hq0 Hq1.
  pose proof prices as ((Fw & Pw) & (Fg & Pg) & (Fk & Pk) & _).
  destruct (density_facts pum Fp Pp COEFF_GRAY_LIN) as (Fgc & _ & Sg & _);
    try reflexivity.
  destruct (density_facts pum Fp Pp COEFF_KICKER_LIN) as (Fkc & Nk & Sk & _);
    try reflexivity.
  destruct (lintel_length_facts pum p q Fp Pp Hp0 Hp1 Hq0 Hq1) as (FL & NL).
  assert (S0 : pos_sign 0) by reflexivity.
  assert (F0 : finite 0) by reflexivity.
  assert (Eg : gray_area pum 0 = 0).
  { unfold gray_area. apply Prim2SF_inj.
    pose proof (mul_pos_sign _ _ Fgc F0 Sg S0) as S.
    destruct (mul_zero_r (pum * COEFF_GRAY_LIN) 0 Fgc zero_float_0) as [s Hs].
    unfold pos_sign in S. rewrite Hs in S |- *. cbn [has_sign] in S. now subst s. }
  assert (El : white_part_lower pum 0 = 0).
  { unfold white_part_lower. apply Prim2SF_inj.
    pose proof (mul_pos_sign _ _ Fkc F0 Sk S0) as S.
    destruct (mul_zero_r (pum * COEFF_KICKER_LIN) 0 Fkc zero_float_0) as [s Hs].
    unfold pos_sign in S. rewrite Hs in S |- *. cbn [has_sign] in S. now subst s. }
  assert (Et : zero_float (white_part_lintels pum 0 p q)).
  { unfold white_part_lintels.
    change (height_above_door 0) with 0%float.
    apply mul_zero_r; [exact FL|apply zero_float_0]. }
  assert (Ew : white_area pum 0 p q = 0).
  { unfold white_area. rewrite El. apply add_zero_r; [reflexivity|exact Et]. }
  assert (Zp : forall c, finite c -> 0 < c -> 0 * c = 0).
  { intros c Fc Pc. apply Prim2SF_inj.
    pose proof (mul_pos_sign 0 c F0 Fc S0 (pos_sign_of_lt c Pc)) as S.
    destruct (zero_mul_l 0 c zero_float_0 Fc) as [s Hs].
    unfold pos_sign in S. rewrite Hs in S |- *. cbn [has_sign] in S. now subst s. }
  cbv zeta. rewrite calculate_fields.
  cbn [gray_area_m2 white_area_m2 cost_gray_pln cost_white_pln cost_total_pln].
  rewrite Eg, Ew, !Zp by assumption.
  assert (R0 : Py.round 0 2 = 0) by reflexivity.
  rewrite R0. repeat split.
  f_equal. f_equal.
  change (0 + 0) with 0%float.
  rewrite add_comm. apply add_zero_r; [|apply zero_float_0].
  apply mul_pos_sign; auto with float_facts.
Qed.

(** X12 at floor area 130, mix (0.6, 0.4). *)
Lemma X12_zero_height_witness :
  let r := calculate default_calculator 130 0 0.6 0.4 in
  gray_area_m2 r = 0 /\ white_area_m2 r = 0 /\
  cost_gray_pln r = 0 /\ cost_white_pln r = 0 /\
  cost_total_pln r =
    Py.round (130 * COEFF_KICKER_LIN * 81
              + _door_cost default_calculator (_door_count 130) 0.6 0.4) 2.
Proof.
  apply (X12_zero_height default_calculator 130 0.6 0.4); try reflexivity.
  repeat split; reflexivity.
Defined.

(** X13.  Every field of the report is a rounded number: rounding it
    again to its number of decimals (1 for the door count, 3 for the
    average door width, 2 for the others) returns it unchanged, the same
    binary64 number, for every input; a field that is NaN stays NaN. *)
Theorem X13_report_is_rounded self pum h p q :
  let r := calculate self pum h p q in
  Py.round (gray_area_m2 r) 2 = gray_area_m2 r /\
  Py.round (white_area_m2 r) 2 = white_area_m2 r /\
  Py.round (kicker_length_mb r) 2 = kicker_length_mb r /\
  Py.round (door_count r) 1 = door_count r /\
  Py.round (avg_door_width_m r) 3 = avg_door_width_m r /\
  Py.round (cost_gray_pln r) 2 = cost_gray_pln r /\
  Py.round (cost_white_pln r) 2 = cost_white_pln r /\
  Py.round (cost_kicker_pln r) 2 = cost_kicker_pln r /\
  Py.round (cost_doors_pln r) 2 = cost_doors_pln r /\
  Py.round (cost_total_pln r) 2 = cost_total_pln r.
Proof.
  cbv zeta. rewrite calculate_fields.
  cbn [gray_area_m2 white_area_m2 kicker_length_mb door_count avg_door_width_m
       cost_gray_pln cost_white_pln cost_kicker_pln cost_doors_pln cost_total_pln].
  repeat split; apply round_idempotent; lia.
Qed.

(** X14.  The three savings of [height_sensitivity_analysis] are
    numbers rounded to 2 decimals: rounding them again returns them
    unchanged, for every input. *)
Theorem X14_savings_are_rounded self pum height_high height_low p q :
  let '(_, _, analysis) :=
    height_sensitivity_analysis self pum height_high height_low p q in
  exists w g t,
    dict_get analysis "savings_white_pln" = Some w /\
    dict_get analysis "savings_gray_pln" = Some g /\
    dict_get analysis "savings_total_pln" = Some t /\
    Py.round w 2 = w /\ Py.round g 2 = g /\ Py.round t 2 = t.
Proof.
  unfold height_sensitivity_analysis. cbv zeta.
  do 3 eexists.
  split; [reflexivity|]. split; [reflexivity|]. split; [reflexivity|].
  split; [|split]; apply round_idempotent; lia.
Qed.

End FurtherProperties.
